(** * Kernel thread control: a shallow embedding of kthread.c

    The kernel state is passed explicitly.  Every operation of kthread.c is
    a function from a state to an outcome: an ordinary return, a kernel
    panic (a failed KASSERT or a call of panic), a fault (a dereference of a
    pointer that is not backed by an object) or a final switch away from
    the calling thread. *)

From stdpp Require Import gmap strings list.

Open Scope Z_scope.

(** ** Machine data *)

Abbreviation addr := Z.

Definition NULL : addr := 0.

(** [(int) x] and [(uint32_t) x] on the 32-bit target. *)
Definition cast_int (z : Z) : Z := (z + 2 ^ 31) mod 2 ^ 32 - 2 ^ 31.

Definition cast_uint32 (z : Z) : Z := z mod 2 ^ 32.

Inductive kt_state_t : Set :=
| KT_NO_STATE
| KT_RUN
| KT_SLEEP
| KT_SLEEP_CANCELLABLE
| KT_EXITED.

#[global] Instance kt_state_t_eq_dec : EqDecision kt_state_t.
Proof. solve_decision. Defined.

(** A pointer to a list link is the address of a field of an object:
    [&p->p_threads], [&t->kt_qlink], [&t->kt_plink] or the list head of a
    scheduler queue. *)
Inductive link_ptr : Set :=
| LNull
| LThreads (p : addr)
| LQlink (t : addr)
| LPlink (t : addr)
| LQueue (q : addr).

#[global] Instance link_ptr_eq_dec : EqDecision link_ptr.
Proof. solve_decision. Defined.

(** [list_t] and [list_link_t] of util/list.h. *)
Record list_link_t : Set := mk_link { l_next : link_ptr; l_prev : link_ptr }.

#[global] Instance list_link_t_eq_dec : EqDecision list_link_t.
Proof. solve_decision. Defined.

(** Modelled from the spec: the execution context of a thread ([context_t],
    declared outside kthread.c): saved register state, the current stack
    pointer, the page-table reference, and the two fields kthread.c itself
    names, [c_kstack] and [c_kstacksz]. *)
Record context_t : Set := mk_ctx {
  c_eip : Z;
  c_esp : Z;
  c_ebp : Z;
  c_pdptr : addr;
  c_kstack : Z;
  c_kstacksz : Z
}.

#[global] Instance context_t_eq_dec : EqDecision context_t.
Proof. solve_decision. Defined.

Record kthread_t : Set := mk_kthread {
  kt_ctx : context_t;
  kt_kstack : addr;
  kt_retval : Z;
  kt_errno : Z;
  kt_proc : addr;
  kt_cancelled : Z;
  kt_wchan : addr;
  kt_state : kt_state_t;
  kt_qlink : list_link_t;
  kt_plink : list_link_t
}.

#[global] Instance kthread_t_eq_dec : EqDecision kthread_t.
Proof. solve_decision. Defined.

(** The fields of [proc_t] that kthread.c reads or links into. *)
Record proc_t : Set := mk_proc {
  p_pagedir : addr;
  p_threads : list_link_t
}.

(** A scheduler queue, as far as its list head. *)
Record ktqueue_t : Set := mk_ktqueue { tq_list : list_link_t }.

(** Calls received by the page allocator, oldest first. *)
Inductive page_event : Set :=
| PageAlloc (npages : Z) (result : addr)
| PageFree (region : addr) (npages : Z).

#[global] Instance page_event_eq_dec : EqDecision page_event.
Proof. solve_decision. Defined.

(** The kernel state kthread.c works on.  [kt_mem] is the memory of the
    kthread slab, live and free objects alike (a free object keeps its stale
    contents); [kthread_allocator] is the free list of that slab, after
    [kthread_init].  [pg_pool] lists the free regions the page allocator
    hands out next, each large enough for one stack request; [pg_used] maps
    the base of an allocated region to its page count. *)
Record kstate : Type := mk_kstate {
  curthr : addr;
  curproc : addr;
  kt_mem : gmap Z kthread_t;
  kthread_allocator : list addr;
  proc_mem : gmap Z proc_t;
  queue_mem : gmap Z ktqueue_t;
  pg_used : gmap Z Z;
  pg_pool : list addr;
  pg_log : list page_event
}.

(** Field updates. *)
Definition set_c_kstack (v : Z) (c : context_t) : context_t :=
  mk_ctx (c_eip c) (c_esp c) (c_ebp c) (c_pdptr c) v (c_kstacksz c).

Definition set_c_kstacksz (v : Z) (c : context_t) : context_t :=
  mk_ctx (c_eip c) (c_esp c) (c_ebp c) (c_pdptr c) (c_kstack c) v.

Definition set_l_next (v : link_ptr) (l : list_link_t) : list_link_t :=
  mk_link v (l_prev l).

Definition set_l_prev (v : link_ptr) (l : list_link_t) : list_link_t :=
  mk_link (l_next l) v.

Definition set_kt_ctx (v : context_t) (k : kthread_t) : kthread_t :=
  mk_kthread v (kt_kstack k) (kt_retval k) (kt_errno k) (kt_proc k)
    (kt_cancelled k) (kt_wchan k) (kt_state k) (kt_qlink k) (kt_plink k).

Definition set_kt_kstack (v : addr) (k : kthread_t) : kthread_t :=
  mk_kthread (kt_ctx k) v (kt_retval k) (kt_errno k) (kt_proc k)
    (kt_cancelled k) (kt_wchan k) (kt_state k) (kt_qlink k) (kt_plink k).

Definition set_kt_retval (v : Z) (k : kthread_t) : kthread_t :=
  mk_kthread (kt_ctx k) (kt_kstack k) v (kt_errno k) (kt_proc k)
    (kt_cancelled k) (kt_wchan k) (kt_state k) (kt_qlink k) (kt_plink k).

Definition set_kt_errno (v : Z) (k : kthread_t) : kthread_t :=
  mk_kthread (kt_ctx k) (kt_kstack k) (kt_retval k) v (kt_proc k)
    (kt_cancelled k) (kt_wchan k) (kt_state k) (kt_qlink k) (kt_plink k).

Definition set_kt_proc (v : addr) (k : kthread_t) : kthread_t :=
  mk_kthread (kt_ctx k) (kt_kstack k) (kt_retval k) (kt_errno k) v
    (kt_cancelled k) (kt_wchan k) (kt_state k) (kt_qlink k) (kt_plink k).

Definition set_kt_cancelled (v : Z) (k : kthread_t) : kthread_t :=
  mk_kthread (kt_ctx k) (kt_kstack k) (kt_retval k) (kt_errno k) (kt_proc k)
    v (kt_wchan k) (kt_state k) (kt_qlink k) (kt_plink k).

Definition set_kt_wchan (v : addr) (k : kthread_t) : kthread_t :=
  mk_kthread (kt_ctx k) (kt_kstack k) (kt_retval k) (kt_errno k) (kt_proc k)
    (kt_cancelled k) v (kt_state k) (kt_qlink k) (kt_plink k).

Definition set_kt_state (v : kt_state_t) (k : kthread_t) : kthread_t :=
  mk_kthread (kt_ctx k) (kt_kstack k) (kt_retval k) (kt_errno k) (kt_proc k)
    (kt_cancelled k) (kt_wchan k) v (kt_qlink k) (kt_plink k).

Definition set_kt_qlink (v : list_link_t) (k : kthread_t) : kthread_t :=
  mk_kthread (kt_ctx k) (kt_kstack k) (kt_retval k) (kt_errno k) (kt_proc k)
    (kt_cancelled k) (kt_wchan k) (kt_state k) v (kt_plink k).

Definition set_kt_plink (v : list_link_t) (k : kthread_t) : kthread_t :=
  mk_kthread (kt_ctx k) (kt_kstack k) (kt_retval k) (kt_errno k) (kt_proc k)
    (kt_cancelled k) (kt_wchan k) (kt_state k) (kt_qlink k) v.

Definition set_p_threads (v : list_link_t) (p : proc_t) : proc_t :=
  mk_proc (p_pagedir p) v.

Definition with_kt_mem (m : gmap Z kthread_t) (s : kstate) : kstate :=
  mk_kstate (curthr s) (curproc s) m (kthread_allocator s) (proc_mem s)
    (queue_mem s) (pg_used s) (pg_pool s) (pg_log s).

Definition with_kthread_allocator (l : list addr) (s : kstate) : kstate :=
  mk_kstate (curthr s) (curproc s) (kt_mem s) l (proc_mem s)
    (queue_mem s) (pg_used s) (pg_pool s) (pg_log s).

Definition with_proc_mem (m : gmap Z proc_t) (s : kstate) : kstate :=
  mk_kstate (curthr s) (curproc s) (kt_mem s) (kthread_allocator s) m
    (queue_mem s) (pg_used s) (pg_pool s) (pg_log s).

Definition with_queue_mem (m : gmap Z ktqueue_t) (s : kstate) : kstate :=
  mk_kstate (curthr s) (curproc s) (kt_mem s) (kthread_allocator s)
    (proc_mem s) m (pg_used s) (pg_pool s) (pg_log s).

Definition with_pages (u : gmap Z Z) (f : list addr) (l : list page_event)
    (s : kstate) : kstate :=
  mk_kstate (curthr s) (curproc s) (kt_mem s) (kthread_allocator s)
    (proc_mem s) (queue_mem s) u f l.

(** ** Outcomes and the kernel monad *)

Inductive outcome (A : Type) : Type :=
| Returns (a : A) (s : kstate)
| Panics (msg : string) (s : kstate)
| Faults (s : kstate)
| Switched (s : kstate).

Arguments Returns {A} a s.
Arguments Panics {A} msg s.
Arguments Faults {A} s.
Arguments Switched {A} s.

Definition kernel (A : Type) : Type := kstate → outcome A.

Definition ret {A : Type} (a : A) : kernel A := λ s, Returns a s.

Definition bind {A B : Type} (m : kernel A) (k : A → kernel B) : kernel B :=
  λ s, match m s with
       | Returns a s' => k a s'
       | Panics msg s' => Panics msg s'
       | Faults s' => Faults s'
       | Switched s' => Switched s'
       end.

Notation "x <~ m ; k" := (bind m (λ x, k))
  (at level 20, m at level 100, k at level 200, only parsing).

Notation "m ;~ k" := (bind m (λ _, k))
  (at level 100, k at level 200, right associativity, only parsing).

(** The state an outcome ends in, and what it returns if it returns. *)
Definition final_state {A : Type} (o : outcome A) : kstate :=
  match o with
  | Returns _ s | Panics _ s | Faults s | Switched s => s
  end.

Definition is_return {A : Type} (o : outcome A) : bool :=
  match o with Returns _ _ => true | _ => false end.

Definition is_panic {A : Type} (o : outcome A) : bool :=
  match o with Panics _ _ => true | _ => false end.

(** [KASSERT(cond)] and [panic(msg)] of util/debug.h: a failed assertion
    halts the kernel with the text of the condition. *)
Definition KASSERT (cond : bool) (text : string) : kernel unit :=
  λ s, if cond then Returns tt s else Panics text s.

Definition panic {A : Type} (msg : string) : kernel A := λ s, Panics msg s.

(** Reads of the globals [curthr] and [curproc]. *)
Definition get_curthr : kernel addr := λ s, Returns (curthr s) s.

Definition get_curproc : kernel addr := λ s, Returns (curproc s) s.

(** [t->f] as an rvalue, and an assignment to a field of [*t]. *)
Definition kt_get {A : Type} (t : addr) (f : kthread_t → A) : kernel A :=
  λ s, match kt_mem s !! t with
       | Some k => Returns (f k) s
       | None => Faults s
       end.

Definition kt_upd (t : addr) (f : kthread_t → kthread_t) : kernel unit :=
  λ s, match kt_mem s !! t with
       | Some k => Returns tt (with_kt_mem (<[t := f k]> (kt_mem s)) s)
       | None => Faults s
       end.

Definition proc_get {A : Type} (p : addr) (f : proc_t → A) : kernel A :=
  λ s, match proc_mem s !! p with
       | Some pr => Returns (f pr) s
       | None => Faults s
       end.

(** ** Collaborators of kthread.c

    Modelled from the spec: the intrusive list operations of util/list.h,
    which kthread.c calls and does not define.  A list is a circular chain
    of links through [l_next] and [l_prev], closed by its head; a link that
    is on no list holds two null pointers. *)

Definition load_link (l : link_ptr) (s : kstate) : option list_link_t :=
  match l with
  | LNull => None
  | LThreads p => p_threads <$> proc_mem s !! p
  | LQlink t => kt_qlink <$> kt_mem s !! t
  | LPlink t => kt_plink <$> kt_mem s !! t
  | LQueue q => tq_list <$> queue_mem s !! q
  end.

Definition store_link (l : link_ptr) (v : list_link_t) (s : kstate) : kstate :=
  match l with
  | LNull => s
  | LThreads p => with_proc_mem (alter (set_p_threads v) p (proc_mem s)) s
  | LQlink t => with_kt_mem (alter (set_kt_qlink v) t (kt_mem s)) s
  | LPlink t => with_kt_mem (alter (set_kt_plink v) t (kt_mem s)) s
  | LQueue q => with_queue_mem (alter (λ _, mk_ktqueue v) q (queue_mem s)) s
  end.

Definition link_get (l : link_ptr) : kernel list_link_t :=
  λ s, match load_link l s with
       | Some v => Returns v s
       | None => Faults s
       end.

Definition link_upd (l : link_ptr) (f : list_link_t → list_link_t) : kernel unit :=
  λ s, match load_link l s with
       | Some v => Returns tt (store_link l (f v) s)
       | None => Faults s
       end.

Definition is_null (l : link_ptr) : bool :=
  match l with LNull => true | _ => false end.

Definition unlinked : list_link_t := mk_link LNull LNull.

Definition list_link_init (link : link_ptr) : kernel unit :=
  link_upd link (λ _, unlinked).

Definition linked (l : list_link_t) : bool :=
  negb (is_null (l_next l)) && negb (is_null (l_prev l)).

Definition list_link_is_linked (link : link_ptr) : kernel bool :=
  l <~ link_get link;
  ret (linked l).

Definition list_insert_before (link to_insert : link_ptr) : kernel unit :=
  l <~ link_get link;
  link_upd to_insert (set_l_next link) ;~
  link_upd to_insert (set_l_prev (l_prev l)) ;~
  link_upd (l_prev l) (set_l_next to_insert) ;~
  link_upd link (set_l_prev to_insert).

Definition list_insert_tail (list link : link_ptr) : kernel unit :=
  list_insert_before list link.

Definition list_remove (link : link_ptr) : kernel unit :=
  l <~ link_get link;
  link_upd (l_prev l) (set_l_next (l_next l)) ;~
  link_upd (l_next l) (set_l_prev (l_prev l)) ;~
  link_upd link (λ _, unlinked).

(** Modelled from the spec: the fixed-size object pool behind
    [kthread_allocator] (mm/slab.h).  [slab_obj_alloc] hands out the first
    free object, contents untouched, or NULL when the pool is exhausted;
    [slab_obj_free] puts the object back. *)
Definition slab_obj_alloc : kernel addr :=
  λ s, match kthread_allocator s with
       | [] => Returns NULL s
       | a :: rest => Returns a (with_kthread_allocator rest s)
       end.

Definition slab_obj_free (obj : addr) : kernel unit :=
  λ s, Returns tt (with_kthread_allocator (obj :: kthread_allocator s) s).

(** Modelled from the spec: the page allocator (mm/page.h), which allocates
    and frees N contiguous pages.  [page_alloc_n] returns the base of a
    free region, or NULL under memory pressure; every call is logged with
    its page count. *)
Definition page_alloc_n (npages : Z) : kernel addr :=
  λ s, match pg_pool s with
       | [] =>
           Returns NULL
             (with_pages (pg_used s) [] (pg_log s ++ [PageAlloc npages NULL]) s)
       | a :: rest =>
           Returns a
             (with_pages (<[a := npages]> (pg_used s)) rest
                (pg_log s ++ [PageAlloc npages a]) s)
       end.

Definition page_free_n (region : addr) (npages : Z) : kernel unit :=
  λ s, Returns tt
         (with_pages (delete region (pg_used s)) (region :: pg_pool s)
            (pg_log s ++ [PageFree region npages]) s).

(** Modelled from the spec: [sched_cancel] of proc/sched.h, the scheduler's
    wake-if-cancellable-sleep.  It sets the cancellation flag; if the
    target is in a cancellable sleep it removes it from its wait queue and
    marks it runnable; otherwise no wake occurs. *)
Definition sched_cancel (kthr : addr) : kernel unit :=
  kt_upd kthr (set_kt_cancelled 1) ;~
  st <~ kt_get kthr kt_state;
  match st with
  | KT_SLEEP_CANCELLABLE =>
      list_remove (LQlink kthr) ;~
      kt_upd kthr (set_kt_wchan NULL) ;~
      kt_upd kthr (set_kt_state KT_RUN)
  | _ => ret tt
  end.

(** ** kthread.c *)

(** What kthread.c takes from its platform: the constants of config.h and
    mm/page.h, the architecture-specific context initializer (from the
    context it is handed, the entry function, its two arguments, the stack,
    the stack size and the page directory, the context it leaves behind),
    and the thread-exited notification of the process layer. *)
Class Platform : Type := {
  DEFAULT_STACK_SIZE : Z;
  PAGE_SHIFT : Z;
  context_setup : context_t → Z → Z → Z → addr → Z → addr → context_t;
  proc_thread_exited : Z → kernel unit
}.

Section Kthread.

Context `{!Platform}.

Definition alloc_stack : kernel addr :=
  let npages := cast_int (1 + Z.shiftr DEFAULT_STACK_SIZE PAGE_SHIFT) in
  kstack <~ page_alloc_n npages;
  ret kstack.

Definition free_stack (stack : addr) : kernel unit :=
  page_free_n stack (cast_int (1 + Z.shiftr DEFAULT_STACK_SIZE PAGE_SHIFT)).

Definition kthread_destroy (t : addr) : kernel unit :=
  (if t =? NULL then KASSERT false "t && t->kt_kstack"
   else ks <~ kt_get t kt_kstack;
        KASSERT (negb (ks =? NULL)) "t && t->kt_kstack") ;~
  ks <~ kt_get t kt_kstack;
  free_stack ks ;~
  is_linked <~ list_link_is_linked (LPlink t);
  (if is_linked then list_remove (LPlink t) else ret tt) ;~
  slab_obj_free t.

Definition kthread_create (p : addr) (func : Z) (arg1 : Z) (arg2 : Z) : kernel addr :=
  KASSERT (negb (NULL =? p)) "NULL != p" ;~
  newthread <~ slab_obj_alloc;
  KASSERT (negb (newthread =? NULL)) "Ran out of memory in kthread creation" ;~
  ktstack <~ alloc_stack;
  KASSERT (negb (NULL =? ktstack)) "Ran out of memory in thread context setup." ;~
  pagedir <~ proc_get p p_pagedir;
  kt_upd newthread
    (λ k, set_kt_ctx
            (context_setup (kt_ctx k) func (cast_int arg1) arg2 ktstack
               DEFAULT_STACK_SIZE pagedir) k) ;~
  kt_upd newthread (set_kt_kstack ktstack) ;~
  ks <~ kt_get newthread kt_kstack;
  KASSERT (negb (ks =? NULL)) "newthread->kt_kstack != NULL" ;~
  kt_upd newthread (set_kt_retval NULL) ;~
  kt_upd newthread (set_kt_errno 0) ;~
  kt_upd newthread (set_kt_proc p) ;~
  kt_upd newthread (set_kt_cancelled 0) ;~
  kt_upd newthread (set_kt_wchan NULL) ;~
  kt_upd newthread (set_kt_state KT_RUN) ;~
  list_link_init (LQlink newthread) ;~
  list_insert_tail (LThreads p) (LPlink newthread) ;~
  ret newthread.

Definition kthread_exit (retval : Z) : kernel unit :=
  c <~ get_curthr;
  kt_upd c (set_kt_retval retval) ;~
  c <~ get_curthr;
  wchan <~ kt_get c kt_wchan;
  KASSERT (wchan =? NULL) "!curthr->kt_wchan" ;~
  c <~ get_curthr;
  qlink <~ kt_get c kt_qlink;
  KASSERT (is_null (l_next qlink) && is_null (l_prev qlink))
    "!curthr->kt_qlink.l_next && !curthr->kt_qlink.l_prev" ;~
  c <~ get_curthr;
  owner <~ kt_get c kt_proc;
  cp <~ get_curproc;
  KASSERT (owner =? cp) "curthr->kt_proc == curproc" ;~
  c <~ get_curthr;
  kt_upd c (set_kt_state KT_EXITED) ;~
  proc_thread_exited retval ;~
  panic "Should never get here! proc_thread_exited() will kill thread.".

Definition kthread_cancel (kthr : addr) (retval : Z) : kernel unit :=
  KASSERT (negb (NULL =? kthr)) "NULL != kthr" ;~
  c <~ get_curthr;
  (if c =? kthr
   then kthread_exit retval ;~
        panic "Should never get here! kthread_exit() will kill thread."
   else ret tt) ;~
  kt_upd kthr (set_kt_retval retval) ;~
  sched_cancel kthr.

Definition kthread_clone (thr : addr) : kernel addr :=
  st <~ kt_get thr kt_state;
  KASSERT (bool_decide (KT_RUN = st)) "KT_RUN == thr->kt_state" ;~
  newthr <~ slab_obj_alloc;
  KASSERT (negb (newthr =? NULL)) "Ran out of memory in kthread clone" ;~
  contextstack <~ alloc_stack;
  KASSERT (negb (NULL =? contextstack))
    "Ran out of memory in kthread clone context setup." ;~
  kt_upd newthr
    (λ k, set_kt_ctx (set_c_kstack (cast_uint32 contextstack) (kt_ctx k)) k) ;~
  kt_upd newthr
    (λ k, set_kt_ctx (set_c_kstacksz DEFAULT_STACK_SIZE (kt_ctx k)) k) ;~
  kernelstack <~ alloc_stack;
  KASSERT (negb (NULL =? kernelstack))
    "Ran out of memory in kthread clone stack setup." ;~
  kt_upd newthr (set_kt_kstack kernelstack) ;~
  v <~ kt_get thr kt_retval;
  kt_upd newthr (set_kt_retval v) ;~
  v <~ kt_get thr kt_errno;
  kt_upd newthr (set_kt_errno v) ;~
  kt_upd newthr (set_kt_proc NULL) ;~
  v <~ kt_get thr kt_cancelled;
  kt_upd newthr (set_kt_cancelled v) ;~
  v <~ kt_get thr kt_wchan;
  kt_upd newthr (set_kt_wchan v) ;~
  kt_upd newthr (set_kt_state KT_RUN) ;~
  list_link_init (LQlink newthr) ;~
  list_link_init (LPlink newthr) ;~
  st <~ kt_get newthr kt_state;
  KASSERT (bool_decide (KT_RUN = st)) "KT_RUN == newthr->kt_state" ;~
  ret newthr.

End Kthread.

(** ** Vocabulary of the specification *)

(** What a store to a link leaves alone: everything but link fields. *)
Definition kt_body (k : kthread_t) : kthread_t :=
  set_kt_qlink unlinked (set_kt_plink unlinked k).

Record links_only (s s' : kstate) : Prop := mk_links_only {
  lo_curthr : curthr s' = curthr s;
  lo_curproc : curproc s' = curproc s;
  lo_allocator : kthread_allocator s' = kthread_allocator s;
  lo_pg_used : pg_used s' = pg_used s;
  lo_pg_pool : pg_pool s' = pg_pool s;
  lo_pg_log : pg_log s' = pg_log s;
  lo_body : ∀ t, kt_body <$> kt_mem s' !! t = kt_body <$> kt_mem s !! t;
  lo_pagedir : ∀ p, p_pagedir <$> proc_mem s' !! p = p_pagedir <$> proc_mem s !! p
}.

(** [b] follows [a] on a list: [a] points forward to [b] and [b] back to
    [a]. *)
Definition adjacent (s : kstate) (a b : link_ptr) : Prop :=
  l_next <$> load_link a s = Some b ∧ l_prev <$> load_link b s = Some a.

Fixpoint path (s : kstate) (a : link_ptr) (P : list link_ptr) : Prop :=
  match P with
  | [] => True
  | b :: P' => adjacent s a b ∧ path s b P'
  end.

(** The list with head [h] holds exactly the links [L], in order: the chain
    leaves the head, runs through [L] and closes at the head again. *)
Definition is_list (s : kstate) (h : link_ptr) (L : list link_ptr) : Prop :=
  NoDup (h :: L) ∧ path s h (L ++ [h]).

(** The thread collection of process [p] holds exactly the threads [ts]. *)
Definition thread_list (s : kstate) (p : addr) (ts : list addr) : Prop :=
  is_list s (LThreads p) (LPlink <$> ts).

(** Sound allocators: free control blocks are distinct, non-null and backed
    by slab memory; free page regions are distinct, non-null 32-bit
    addresses and not in use. *)
Definition slab_wf (s : kstate) : Prop :=
  NoDup (kthread_allocator s) ∧
  Forall (λ a, a ≠ NULL ∧ is_Some (kt_mem s !! a)) (kthread_allocator s).

Definition pages_wf (s : kstate) : Prop :=
  NoDup (pg_pool s) ∧
  Forall (λ a, 0 < a < 2 ^ 32 ∧ pg_used s !! a = None) (pg_pool s).

(** The queue-membership invariant of a control block. *)
Definition sleeping (st : kt_state_t) : bool :=
  match st with
  | KT_SLEEP | KT_SLEEP_CANCELLABLE => true
  | _ => false
  end.

Definition queue_invariant (k : kthread_t) : Prop :=
  (linked (kt_qlink k) = true ↔ sleeping (kt_state k) = true ∧ kt_wchan k ≠ NULL) ∧
  (kt_wchan k ≠ NULL → sleeping (kt_state k) = true).

(** It holds of every live control block: one in slab memory that is not on
    the free list. *)
Definition kthread_invariant (s : kstate) : Prop :=
  ∀ t k, kt_mem s !! t = Some k → t ∉ kthread_allocator s → queue_invariant k.

(** Links are used in two kinds of lists, thread collections of processes
    and scheduler queues.  In a well-formed memory a link points to links
    of its own kind only, and the neighbours of a linked link point back at
    it. *)
Inductive link_kind : Set := KProc | KQueue.

#[global] Instance link_kind_eq_dec : EqDecision link_kind.
Proof. solve_decision. Defined.

Definition kind_of (l : link_ptr) : option link_kind :=
  match l with
  | LNull => None
  | LThreads _ | LPlink _ => Some KProc
  | LQlink _ | LQueue _ => Some KQueue
  end.

Definition same_kind (l x : link_ptr) : Prop :=
  x = LNull ∨ kind_of x = kind_of l.

Definition link_ok (s : kstate) (l : link_ptr) (v : list_link_t) : Prop :=
  same_kind l (l_next v) ∧ same_kind l (l_prev v) ∧
  (linked v = true → adjacent s (l_prev v) l ∧ adjacent s l (l_next v)).

Definition links_wf (s : kstate) : Prop :=
  ∀ l v, load_link l s = Some v → link_ok s l v.

#[global] Instance queue_invariant_dec k : Decision (queue_invariant k).
Proof. unfold queue_invariant. apply _. Defined.

#[global] Instance kthread_invariant_dec s : Decision (kthread_invariant s).
Proof. unfold kthread_invariant. apply (map_Forall_dec _). Defined.

#[global] Instance link_ok_dec s l v : Decision (link_ok s l v).
Proof. unfold link_ok, same_kind, adjacent. apply _. Defined.

(** The same, memory by memory: a form that can be decided on a concrete
    state. *)
Definition links_wf_by_memory (s : kstate) : Prop :=
  map_Forall (λ t k, link_ok s (LQlink t) (kt_qlink k) ∧
                     link_ok s (LPlink t) (kt_plink k)) (kt_mem s) ∧
  map_Forall (λ p pr, link_ok s (LThreads p) (p_threads pr)) (proc_mem s) ∧
  map_Forall (λ q qu, link_ok s (LQueue q) (tq_list qu)) (queue_mem s).

#[global] Instance links_wf_by_memory_dec s : Decision (links_wf_by_memory s).
Proof.
  unfold links_wf_by_memory.
  apply and_dec; [apply (map_Forall_dec _)|].
  apply and_dec; apply (map_Forall_dec _).
Defined.

#[global] Instance slab_wf_dec s : Decision (slab_wf s).
Proof. unfold slab_wf. apply _. Defined.

#[global] Instance pages_wf_dec s : Decision (pages_wf s).
Proof. unfold pages_wf. apply _. Defined.

(** Stack ownership: allocated regions are 32-bit addresses, every live
    control block holds an allocated region in [kt_kstack], and no two live
    control blocks hold the same region. *)
Definition stack_ownership (s : kstate) : Prop :=
  (∀ r np, pg_used s !! r = Some np → 0 < r < 2 ^ 32) ∧
  (∀ t k, kt_mem s !! t = Some k → t ∉ kthread_allocator s →
     is_Some (pg_used s !! kt_kstack k)) ∧
  (∀ t k, kt_mem s !! t = Some k → t ∉ kthread_allocator s →
     ∀ t' k', kt_mem s !! t' = Some k' → t' ∉ kthread_allocator s →
       kt_kstack k' = kt_kstack k → t' = t).

(** The memory invariant of the thread layer: sound allocators and stack
    ownership. *)
Definition memory_invariant (s : kstate) : Prop :=
  slab_wf s ∧ pages_wf s ∧ stack_ownership s.

#[global] Instance stack_ownership_dec s : Decision (stack_ownership s).
Proof.
  unfold stack_ownership.
  apply and_dec; [apply (map_Forall_dec _)|].
  apply and_dec; [apply (map_Forall_dec _)|].
  apply (map_Forall_dec
           (λ t k, t ∉ kthread_allocator s →
                   map_Forall
                     (λ t' k', t' ∉ kthread_allocator s →
                               kt_kstack k' = kt_kstack k → t' = t)
                     (kt_mem s))).
Defined.

#[global] Instance memory_invariant_dec s : Decision (memory_invariant s).
Proof. unfold memory_invariant. apply _. Defined.

(** The threads of process [p] are [ts]: its thread collection holds them,
    and each of them is live and names [p] as its process. *)
Definition process_threads (s : kstate) (p : addr) (ts : list addr) : Prop :=
  thread_list s p ts ∧
  ∀ t, t ∈ ts → t ∉ kthread_allocator s ∧ kt_proc <$> kt_mem s !! t = Some p.

(** The state in which [t] is the calling thread: what a switch to [t]
    makes of [curthr]. *)
Definition with_curthr (t : addr) (s : kstate) : kstate :=
  mk_kstate t (curproc s) (kt_mem s) (kthread_allocator s) (proc_mem s)
    (queue_mem s) (pg_used s) (pg_pool s) (pg_log s).

Definition ceil_div (a b : Z) : Z := (a + b - 1) / b.

Section Vocabulary.

Context `{!Platform}.

(** The page count of a stack request, as [alloc_stack] and [free_stack]
    compute it. *)
Definition stack_npages : Z := cast_int (1 + Z.shiftr DEFAULT_STACK_SIZE PAGE_SHIFT).

Definition page_size : Z := 2 ^ PAGE_SHIFT.

(** The state [kthread_exit] panics in when an assertion fails, and the
    state it hands to [proc_thread_exited]. *)
Definition exit_stored (retval : Z) (k : kthread_t) (s : kstate) : kstate :=
  with_kt_mem (<[curthr s := set_kt_retval retval k]> (kt_mem s)) s.

Definition exit_handoff (retval : Z) (k : kthread_t) (s : kstate) : kstate :=
  with_kt_mem
    (<[curthr s := set_kt_state KT_EXITED (set_kt_retval retval k)]> (kt_mem s)) s.

(** The control block [kthread_clone] builds from the source [S], in a block
    that held [N] when the allocator handed it over, and the state it
    returns in. *)
Definition clone_block (S N : kthread_t) (contextstack kernelstack : addr) : kthread_t :=
  mk_kthread
    (set_c_kstacksz DEFAULT_STACK_SIZE
       (set_c_kstack (cast_uint32 contextstack) (kt_ctx N)))
    kernelstack (kt_retval S) (kt_errno S) NULL (kt_cancelled S) (kt_wchan S)
    KT_RUN unlinked unlinked.

Definition clone_state (s : kstate) (n : addr) (T : kthread_t) (rest : list addr)
    (a b : addr) (pool : list addr) : kstate :=
  mk_kstate (curthr s) (curproc s) (<[n := T]> (kt_mem s)) rest (proc_mem s)
    (queue_mem s) (<[b := stack_npages]> (<[a := stack_npages]> (pg_used s)))
    pool (pg_log s ++ [PageAlloc stack_npages a; PageAlloc stack_npages b]).

(** The control block [kthread_create] has written when it starts to link
    it into the thread collection, and the state at that point. *)
Definition create_block (N : kthread_t) (p : addr) (func arg1 arg2 : Z)
    (ktstack pagedir : addr) : kthread_t :=
  mk_kthread
    (context_setup (kt_ctx N) func (cast_int arg1) arg2 ktstack
       DEFAULT_STACK_SIZE pagedir)
    ktstack NULL 0 p 0 NULL KT_RUN unlinked (kt_plink N).

Definition create_linking (s : kstate) (n : addr) (T : kthread_t)
    (rest : list addr) (a : addr) (pool : list addr) : kstate :=
  mk_kstate (curthr s) (curproc s) (<[n := T]> (kt_mem s)) rest (proc_mem s)
    (queue_mem s) (<[a := stack_npages]> (pg_used s)) pool
    (pg_log s ++ [PageAlloc stack_npages a]).

End Vocabulary.

(** ** Small machines to run the operations on *)

(** A 32-bit platform with 4 KiB pages and 16-page stacks; the context
    initializer fills every field of the context, and the thread-exited
    notification switches away for good. *)
Definition weenix : Platform := {|
  DEFAULT_STACK_SIZE := 65536;
  PAGE_SHIFT := 12;
  context_setup := λ _ func arg1 arg2 kstack sz pagedir,
    mk_ctx func (kstack + sz) (kstack + sz) pagedir (cast_uint32 kstack) sz;
  proc_thread_exited := λ _ s, Switched s
|}.

(** The same platform with a stack size that is not a whole number of
    pages. *)
Definition odd_stack : Platform := {|
  DEFAULT_STACK_SIZE := 6000;
  PAGE_SHIFT := 12;
  context_setup := λ _ func arg1 arg2 kstack sz pagedir,
    mk_ctx func (kstack + sz) (kstack + sz) pagedir (cast_uint32 kstack) sz;
  proc_thread_exited := λ _ s, Switched s
|}.

Definition blank_kthread : kthread_t :=
  mk_kthread (mk_ctx 0 0 0 0 0 0) 0 0 0 0 0 0 KT_NO_STATE unlinked unlinked.

(** [machine0]: one process at 100 with an empty thread collection, an
    empty scheduler queue at 500, three free control blocks, four free
    stack regions. *)
Definition machine0 : kstate := {|
  curthr := 0;
  curproc := 100;
  kt_mem := {[ 1000 := blank_kthread; 2000 := blank_kthread; 3000 := blank_kthread ]};
  kthread_allocator := [1000; 2000; 3000];
  proc_mem := {[ 100 := mk_proc 7000 (mk_link (LThreads 100) (LThreads 100)) ]};
  queue_mem := {[ 500 := mk_ktqueue (mk_link (LQueue 500) (LQueue 500)) ]};
  pg_used := ∅;
  pg_pool := [65536; 196608; 327680; 458752];
  pg_log := []
|}.

(** [machine1]: the thread at 1000 has been created for process 100 and is
    running. *)
Definition thread1 : kthread_t :=
  mk_kthread (mk_ctx 11 131072 131072 7000 65536 65536) 65536 0 0 100 0 0
    KT_RUN unlinked (mk_link (LThreads 100) (LThreads 100)).

Definition machine1 : kstate := {|
  curthr := 1000;
  curproc := 100;
  kt_mem := {[ 1000 := thread1; 2000 := blank_kthread; 3000 := blank_kthread ]};
  kthread_allocator := [2000; 3000];
  proc_mem := {[ 100 := mk_proc 7000 (mk_link (LPlink 1000) (LPlink 1000)) ]};
  queue_mem := {[ 500 := mk_ktqueue (mk_link (LQueue 500) (LQueue 500)) ]};
  pg_used := {[ 65536 := 17 ]};
  pg_pool := [196608; 327680; 458752];
  pg_log := [PageAlloc 17 65536]
|}.

(** [machine2]: a second thread, at 2000, of the same process is in a
    cancellable sleep on the queue at 500. *)
Definition thread1_of_two : kthread_t :=
  mk_kthread (mk_ctx 11 131072 131072 7000 65536 65536) 65536 0 0 100 0 0
    KT_RUN unlinked (mk_link (LPlink 2000) (LThreads 100)).

Definition thread2 : kthread_t :=
  mk_kthread (mk_ctx 12 262144 262144 7000 196608 65536) 196608 0 0 100 0 500
    KT_SLEEP_CANCELLABLE (mk_link (LQueue 500) (LQueue 500))
    (mk_link (LThreads 100) (LPlink 1000)).

Definition machine2 : kstate := {|
  curthr := 1000;
  curproc := 100;
  kt_mem := {[ 1000 := thread1_of_two; 2000 := thread2; 3000 := blank_kthread ]};
  kthread_allocator := [3000];
  proc_mem := {[ 100 := mk_proc 7000 (mk_link (LPlink 1000) (LPlink 2000)) ]};
  queue_mem := {[ 500 := mk_ktqueue (mk_link (LQlink 2000) (LQlink 2000)) ]};
  pg_used := {[ 65536 := 17; 196608 := 17 ]};
  pg_pool := [327680; 458752];
  pg_log := [PageAlloc 17 65536; PageAlloc 17 196608]
|}.

(** [machine3]: two processes.  The thread at 1000 of process 100 is
    running; the thread at 2000 of process 200 sleeps on the queue at
    500. *)
Definition thread_of_200 : kthread_t :=
  mk_kthread (mk_ctx 12 262144 262144 8000 196608 65536) 196608 0 0 200 0 500
    KT_SLEEP (mk_link (LQueue 500) (LQueue 500))
    (mk_link (LThreads 200) (LThreads 200)).

Definition machine3 : kstate := {|
  curthr := 1000;
  curproc := 100;
  kt_mem := {[ 1000 := thread1; 2000 := thread_of_200; 3000 := blank_kthread ]};
  kthread_allocator := [3000];
  proc_mem := {[ 100 := mk_proc 7000 (mk_link (LPlink 1000) (LPlink 1000));
                 200 := mk_proc 8000 (mk_link (LPlink 2000) (LPlink 2000)) ]};
  queue_mem := {[ 500 := mk_ktqueue (mk_link (LQlink 2000) (LQlink 2000)) ]};
  pg_used := {[ 65536 := 17; 196608 := 17 ]};
  pg_pool := [327680; 458752];
  pg_log := [PageAlloc 17 65536; PageAlloc 17 196608]
|}.

(** What a run returned, if it returned. *)
Definition returned {A : Type} (o : outcome A) : option A :=
  match o with Returns a _ => Some a | _ => None end.

(** The control block at [t] in the state a run ended in. *)
Definition block_after {A : Type} (o : outcome A) (t : addr) : option kthread_t :=
  kt_mem (final_state o) !! t.

(** ** Running the monad *)

Lemma bind_Returns {A B : Type} (m : kernel A) (k : A → kernel B) s a s' :
  m s = Returns a s' → bind m k s = k a s'.
Proof. intros E. unfold bind. by rewrite E. Qed.

Lemma bind_Faults {A B : Type} (m : kernel A) (k : A → kernel B) s s' :
  m s = Faults s' → bind m k s = Faults s'.
Proof. intros E. unfold bind. by rewrite E. Qed.

Lemma bind_continuation_never_returns {A B : Type} (m : kernel A)
    (k : A → kernel B) s :
  (∀ a s', is_return (k a s') = false) → is_return (bind m k s) = false.
Proof. intros Hk. unfold bind. destruct (m s); auto. Qed.

Lemma Returns_inj {A : Type} (a b : A) s s' :
  Returns a s = Returns b s' → a = b ∧ s = s'.
Proof. by intros [= -> ->]. Qed.

Lemma bind_assoc {A B C : Type} (m : kernel A) (k1 : A → kernel B)
    (k2 : B → kernel C) s :
  bind (bind m k1) k2 s = bind m (λ a, bind (k1 a) k2) s.
Proof. unfold bind. by destruct (m s). Qed.

Lemma bind_Returns_inv {A B : Type} (m : kernel A) (k : A → kernel B) s b s' :
  bind m k s = Returns b s' →
  ∃ a s1, m s = Returns a s1 ∧ k a s1 = Returns b s'.
Proof. unfold bind. destruct (m s) eqn:E; try done. eauto. Qed.

Lemma KASSERT_Returns_inv cond text s u s' :
  KASSERT cond text s = Returns u s' → cond = true ∧ s' = s.
Proof. unfold KASSERT. destruct cond; [|done]. by intros [= _ <-]. Qed.

Lemma kt_get_Returns_inv {A : Type} t (f : kthread_t → A) s a s' :
  kt_get t f s = Returns a s' →
  ∃ k, kt_mem s !! t = Some k ∧ a = f k ∧ s' = s.
Proof.
  unfold kt_get. destruct (kt_mem s !! t) as [k|]; [|done].
  intros [= <- <-]. eauto.
Qed.

Lemma kt_upd_Returns_inv t f s u s' :
  kt_upd t f s = Returns u s' →
  ∃ k, kt_mem s !! t = Some k ∧ s' = with_kt_mem (<[t := f k]> (kt_mem s)) s.
Proof.
  unfold kt_upd. destruct (kt_mem s !! t) as [k|]; [|done].
  intros [= <-]. eauto.
Qed.

Lemma proc_get_Returns_inv {A : Type} p (f : proc_t → A) s a s' :
  proc_get p f s = Returns a s' →
  ∃ pr, proc_mem s !! p = Some pr ∧ a = f pr ∧ s' = s.
Proof.
  unfold proc_get. destruct (proc_mem s !! p) as [pr|]; [|done].
  intros [= <- <-]. eauto.
Qed.

Lemma get_curthr_Returns_inv s a s' :
  get_curthr s = Returns a s' → a = curthr s ∧ s' = s.
Proof. by intros [= <- <-]. Qed.

Lemma ret_Returns_inv {A : Type} (a b : A) s s' :
  ret a s = Returns b s' → b = a ∧ s' = s.
Proof. by intros [= <- <-]. Qed.

Lemma slab_obj_alloc_Returns_inv s a s' :
  slab_obj_alloc s = Returns a s' →
  (kthread_allocator s = [] ∧ a = NULL ∧ s' = s) ∨
  (∃ rest, kthread_allocator s = a :: rest ∧ s' = with_kthread_allocator rest s).
Proof.
  unfold slab_obj_alloc. destruct (kthread_allocator s) as [|n rest].
  - intros [= <- <-]. by left.
  - intros [= <- <-]. right. eauto.
Qed.

Lemma kt_get_Some {A : Type} t (f : kthread_t → A) s k :
  kt_mem s !! t = Some k → kt_get t f s = Returns (f k) s.
Proof. intros E. unfold kt_get. by rewrite E. Qed.

Lemma kt_upd_Some t f s k :
  kt_mem s !! t = Some k →
  kt_upd t f s = Returns () (with_kt_mem (<[t := f k]> (kt_mem s)) s).
Proof. intros E. unfold kt_upd. by rewrite E. Qed.

Lemma kt_upd_None t f s :
  kt_mem s !! t = None → kt_upd t f s = Faults s.
Proof. intros E. unfold kt_upd. by rewrite E. Qed.

Lemma proc_get_Some {A : Type} p (f : proc_t → A) s pr :
  proc_mem s !! p = Some pr → proc_get p f s = Returns (f pr) s.
Proof. intros E. unfold proc_get. by rewrite E. Qed.

Lemma Z_eqb_NULL_false (a : addr) : a ≠ NULL → (a =? NULL) = false.
Proof. intros. by apply Z.eqb_neq. Qed.

Lemma NULL_eqb_false (a : addr) : a ≠ NULL → (NULL =? a) = false.
Proof. intros. apply Z.eqb_neq. congruence. Qed.

(** ** Links in memory *)

Lemma load_store_link l v y s :
  is_Some (load_link l s) →
  load_link y (store_link l v s) =
    if decide (y = l) then Some v else load_link y s.
Proof.
  intros [w Hw].
  destruct l, y; try done; unfold store_link, load_link in *;
    cbn [kt_mem proc_mem queue_mem with_kt_mem with_proc_mem with_queue_mem];
    case_decide as E; simplify_eq; try done;
    rewrite ?lookup_alter_eq, ?lookup_alter_ne by congruence; try done.
  all: try (by destruct (_ !! _); simplify_eq/=).
  all: rewrite lookup_alter; case_decide; simplify_eq; [|done];
    by destruct (_ !! _).
Qed.

Lemma link_get_Some l s v : load_link l s = Some v → link_get l s = Returns v s.
Proof. intros E. unfold link_get. by rewrite E. Qed.

Lemma link_upd_Some l f s v :
  load_link l s = Some v → link_upd l f s = Returns () (store_link l (f v) s).
Proof. intros E. unfold link_upd. by rewrite E. Qed.

Lemma link_get_Returns_inv l s v s' :
  link_get l s = Returns v s' → load_link l s = Some v ∧ s' = s.
Proof.
  unfold link_get. destruct (load_link l s); [|done]. by intros [= <- <-].
Qed.

Lemma link_upd_Returns_inv l f s u s' :
  link_upd l f s = Returns u s' →
  ∃ v, load_link l s = Some v ∧ s' = store_link l (f v) s.
Proof.
  unfold link_upd. destruct (load_link l s) as [v|]; [|done].
  intros [= <-]. eauto.
Qed.

Lemma list_link_is_linked_Some l s v :
  load_link l s = Some v → list_link_is_linked l s = Returns (linked v) s.
Proof.
  intros E. unfold list_link_is_linked.
  by rewrite (bind_Returns _ _ _ _ _ (link_get_Some _ _ _ E)).
Qed.

Lemma links_only_refl s : links_only s s.
Proof. by split. Qed.

Lemma links_only_trans s1 s2 s3 :
  links_only s1 s2 → links_only s2 s3 → links_only s1 s3.
Proof.
  intros [] []. split; congruence.
Qed.

Lemma store_link_links_only l v s : links_only s (store_link l v s).
Proof.
  destruct l; simpl; split; simpl; try done; intros x.
  all: rewrite lookup_alter; case_decide; simplify_eq; [|done].
  all: by destruct (_ !! _).
Qed.

(** The thread record after link stores, from the record before. *)
Lemma links_only_lookup s s' t k :
  links_only s s' → kt_mem s !! t = Some k →
  ∃ k', kt_mem s' !! t = Some k' ∧ kt_body k' = kt_body k ∧
    load_link (LQlink t) s' = Some (kt_qlink k') ∧
    load_link (LPlink t) s' = Some (kt_plink k').
Proof.
  intros Hlo Hk. pose proof (lo_body _ _ Hlo t) as Hb. rewrite Hk in Hb.
  unfold load_link. destruct (kt_mem s' !! t) as [k'|]; [|done].
  exists k'. simpl in *. repeat split; congruence.
Qed.

(** The effect of [list_insert_before] on every link in memory. *)
Lemma list_insert_before_Returns link ins s hl il pl :
  load_link link s = Some hl →
  load_link ins s = Some il →
  load_link (l_prev hl) s = Some pl →
  ins ≠ link → ins ≠ l_prev hl →
  ∃ s', list_insert_before link ins s = Returns () s' ∧ links_only s s' ∧
    ∀ y, load_link y s' =
      if decide (y = link) then
        Some (mk_link (if decide (l_prev hl = link) then ins else l_next hl) ins)
      else if decide (y = l_prev hl) then Some (mk_link ins (l_prev pl))
      else if decide (y = ins) then Some (mk_link link (l_prev hl))
      else load_link y s.
Proof.
  intros Hh Hi Hp Hne1 Hne2. unfold list_insert_before.
  rewrite (bind_Returns _ _ _ _ _ (link_get_Some _ _ _ Hh)).
  rewrite (bind_Returns _ _ _ _ _ (link_upd_Some _ _ _ _ Hi)).
  set (s1 := store_link ins _ s).
  assert (L1 : ∀ y, load_link y s1 =
                    if decide (y = ins) then Some (set_l_next link il)
                    else load_link y s)
    by (intros y; apply load_store_link; eauto).
  assert (Hi1 : load_link ins s1 = Some (set_l_next link il))
    by (rewrite L1; by case_decide).
  rewrite (bind_Returns _ _ _ _ _ (link_upd_Some _ _ _ _ Hi1)).
  set (s2 := store_link ins _ s1).
  assert (L2 : ∀ y, load_link y s2 =
                    if decide (y = ins) then Some (mk_link link (l_prev hl))
                    else load_link y s).
  { intros y. unfold s2. rewrite load_store_link by eauto.
    case_decide; [done|]. rewrite L1. by case_decide. }
  assert (Hp2 : load_link (l_prev hl) s2 = Some pl)
    by (rewrite L2; by case_decide).
  rewrite (bind_Returns _ _ _ _ _ (link_upd_Some _ _ _ _ Hp2)).
  set (s3 := store_link (l_prev hl) _ s2).
  assert (L3 : ∀ y, load_link y s3 =
                    if decide (y = l_prev hl) then Some (set_l_next ins pl)
                    else load_link y s2)
    by (intros y; apply load_store_link; eauto).
  assert (Hh3 : load_link link s3 =
                Some (if decide (l_prev hl = link) then set_l_next ins pl else hl)).
  { rewrite L3. destruct (decide (link = l_prev hl)) as [E|E].
    - by rewrite decide_True.
    - rewrite decide_False by done. rewrite L2. by rewrite decide_False. }
  rewrite (link_upd_Some _ _ _ _ Hh3).
  eexists. split; [done|]. split.
  { unfold s3, s2, s1.
    repeat (eapply links_only_trans; [|apply store_link_links_only]).
    apply links_only_refl. }
  intros y. rewrite load_store_link by eauto.
  destruct (decide (y = link)) as [->|Ey].
  { destruct (decide (l_prev hl = link)) as [E|E]; [|done].
    rewrite E in Hp. by simplify_eq. }
  rewrite L3. destruct (decide (y = l_prev hl)) as [->|Ey2]; [done|].
  by rewrite L2.
Qed.

(** The effect of [list_remove] on every link in memory. *)
Lemma list_remove_Returns link s v pl nl :
  load_link link s = Some v →
  load_link (l_prev v) s = Some pl →
  load_link (l_next v) s = Some nl →
  ∃ s', list_remove link s = Returns () s' ∧ links_only s s' ∧
    ∀ y, load_link y s' =
      if decide (y = link) then Some unlinked
      else if decide (y = l_next v) then
        Some (mk_link (if decide (l_prev v = l_next v) then l_next v else l_next nl)
                (l_prev v))
      else if decide (y = l_prev v) then Some (mk_link (l_next v) (l_prev pl))
      else load_link y s.
Proof.
  intros Hv Hp Hn. unfold list_remove.
  rewrite (bind_Returns _ _ _ _ _ (link_get_Some _ _ _ Hv)).
  rewrite (bind_Returns _ _ _ _ _ (link_upd_Some _ _ _ _ Hp)).
  set (s1 := store_link (l_prev v) _ s).
  assert (L1 : ∀ y, load_link y s1 =
                    if decide (y = l_prev v) then Some (set_l_next (l_next v) pl)
                    else load_link y s)
    by (intros y; apply load_store_link; eauto).
  assert (Hn1 : load_link (l_next v) s1 =
                Some (if decide (l_next v = l_prev v)
                      then set_l_next (l_next v) pl else nl)).
  { rewrite L1. by case_decide. }
  rewrite (bind_Returns _ _ _ _ _ (link_upd_Some _ _ _ _ Hn1)).
  set (s2 := store_link (l_next v) _ s1).
  assert (L2 : ∀ y, load_link y s2 =
                    if decide (y = l_next v) then
                      Some (set_l_prev (l_prev v)
                              (if decide (l_next v = l_prev v)
                               then set_l_next (l_next v) pl else nl))
                    else load_link y s1)
    by (intros y; apply load_store_link; eauto).
  assert (Hv2 : is_Some (load_link link s2)).
  { rewrite L2, L1.
    destruct (decide (link = l_next v)); [eauto|].
    destruct (decide (link = l_prev v)); eauto. }
  destruct Hv2 as [v2 Hv2].
  rewrite (link_upd_Some _ _ _ _ Hv2).
  eexists. split; [done|]. split.
  { unfold s2, s1.
    repeat (eapply links_only_trans; [|apply store_link_links_only]).
    apply links_only_refl. }
  intros y. rewrite load_store_link by eauto.
  destruct (decide (y = link)) as [->|Ey]; [done|].
  rewrite L2. destruct (decide (y = l_next v)) as [->|Ey2].
  { destruct (decide (l_next v = l_prev v)) as [E|E].
    - rewrite decide_True by done. by rewrite E.
    - by rewrite decide_False by done. }
  by rewrite L1.
Qed.

Lemma link_upd_frame l f s u s' :
  link_upd l f s = Returns u s' →
  is_Some (load_link l s) ∧ links_only s s' ∧
  ∀ y, y ≠ l → load_link y s' = load_link y s.
Proof.
  intros E. apply link_upd_Returns_inv in E as (v & Hv & ->).
  split; [eauto|]. split; [apply store_link_links_only|].
  intros y Hy. rewrite load_store_link by eauto. by rewrite decide_False.
Qed.

(** What [list_insert_before] can touch, whenever it returns. *)
Lemma list_insert_before_frame link ins s u s' :
  list_insert_before link ins s = Returns u s' →
  ∃ hl, load_link link s = Some hl ∧ links_only s s' ∧
    ∀ y, y ≠ link → y ≠ ins → y ≠ l_prev hl → load_link y s' = load_link y s.
Proof.
  unfold list_insert_before. intros E.
  apply bind_Returns_inv in E as (hl & s0 & E0 & E).
  apply link_get_Returns_inv in E0 as [Hhl ->].
  apply bind_Returns_inv in E as (? & s1 & E1 & E).
  apply link_upd_frame in E1 as (_ & Hlo1 & Hf1).
  apply bind_Returns_inv in E as (? & s2 & E2 & E).
  apply link_upd_frame in E2 as (_ & Hlo2 & Hf2).
  apply bind_Returns_inv in E as (? & s3 & E3 & E).
  apply link_upd_frame in E3 as (_ & Hlo3 & Hf3).
  apply link_upd_frame in E as (_ & Hlo4 & Hf4).
  exists hl. split; [done|]. split.
  { eauto using links_only_trans. }
  intros y Hy1 Hy2 Hy3. rewrite Hf4, Hf3, Hf2, Hf1 by done. done.
Qed.

(** [list_remove] returns only if the link and both neighbours are in
    memory. *)
Lemma list_remove_Returns_inv link s u s' :
  list_remove link s = Returns u s' →
  ∃ v pl nl, load_link link s = Some v ∧
    load_link (l_prev v) s = Some pl ∧ load_link (l_next v) s = Some nl.
Proof.
  unfold list_remove. intros E.
  apply bind_Returns_inv in E as (v & s0 & E0 & E).
  apply link_get_Returns_inv in E0 as [Hv ->].
  apply bind_Returns_inv in E as (? & s1 & E1 & E).
  apply link_upd_Returns_inv in E1 as (pl & Hpl & ->).
  apply bind_Returns_inv in E as (? & s2 & E2 & E).
  apply link_upd_Returns_inv in E2 as (nl1 & Hnl1 & ->).
  rewrite load_store_link in Hnl1 by eauto.
  destruct (decide (l_next v = l_prev v)) as [Heq|Hne].
  - exists v, pl, pl. by rewrite Heq.
  - exists v, pl, nl1. done.
Qed.

(** Removing a link whose neighbours point back at it leaves every other
    link as linked as it was. *)
Lemma list_remove_linked_frame link s s' v pl nl :
  load_link link s = Some v →
  load_link (l_prev v) s = Some pl → load_link (l_next v) s = Some nl →
  l_next pl = link → l_prev nl = link →
  (∀ y, load_link y s' =
      if decide (y = link) then Some unlinked
      else if decide (y = l_next v) then
        Some (mk_link (if decide (l_prev v = l_next v) then l_next v else l_next nl)
                (l_prev v))
      else if decide (y = l_prev v) then Some (mk_link (l_next v) (l_prev pl))
      else load_link y s) →
  ∀ y, y ≠ link → linked <$> load_link y s' = linked <$> load_link y s.
Proof.
  intros Hv Hpl Hnl Hpn Hnp Hview y Hy. rewrite Hview, decide_False by done.
  assert (Hlink : link ≠ LNull) by (intros ->; done).
  assert (Hp : l_prev v ≠ LNull) by (intros E; by rewrite E in Hpl).
  assert (Hn : l_next v ≠ LNull) by (intros E; by rewrite E in Hnl).
  destruct (decide (y = l_next v)) as [->|Hyn].
  - rewrite Hnl. simpl. f_equal. unfold linked. simpl. rewrite Hnp.
    destruct (decide (l_prev v = l_next v)) as [Heq|Hne].
    + rewrite Heq in Hpl. assert (pl = nl) as -> by congruence.
      rewrite Hpn. by destruct (l_next v), (l_prev v), link.
    + by destruct (l_next nl), (l_prev v), link.
  - destruct (decide (y = l_prev v)) as [->|Hyp]; [|done].
    rewrite Hpl. simpl. f_equal. unfold linked. simpl. rewrite Hpn.
    by destruct (l_next v), (l_prev pl), link.
Qed.

(** ** Lists as chains of links *)

Lemma last_cons_default {A : Type} (P : list A) (a b : A) :
  List.last (b :: P) a = List.last P b.
Proof.
  revert a b. induction P as [|c P IH]; intros a b; [done|].
  change (List.last (c :: P) a = List.last (c :: P) b).
  by rewrite (IH a c), (IH b c).
Qed.

Lemma last_elem_of {A : Type} (P : list A) (a : A) : List.last P a ∈ a :: P.
Proof.
  revert a. induction P as [|b P IH]; intros a; [set_solver|].
  rewrite last_cons_default. specialize (IH b). set_solver.
Qed.

Lemma path_app s a P Q :
  path s a (P ++ Q) ↔ path s a P ∧ path s (List.last P a) Q.
Proof.
  revert a. induction P as [|b P IH]; intros a.
  - simpl. naive_solver.
  - rewrite last_cons_default. simpl. rewrite IH. naive_solver.
Qed.

Lemma path_frame s s' a P :
  NoDup (a :: P) →
  path s a P →
  (∀ c, c ∈ a :: P → c ≠ List.last P a →
        l_next <$> load_link c s' = l_next <$> load_link c s) →
  (∀ d, d ∈ P → l_prev <$> load_link d s' = l_prev <$> load_link d s) →
  path s' a P.
Proof.
  revert a. induction P as [|b P IH]; intros a Hnd Hp Hnext Hprev; [done|].
  destruct Hp as [[Hab Hba] Hp]. apply NoDup_cons in Hnd as [Ha Hnd].
  rewrite last_cons_default in Hnext. simpl. split; [split|].
  - rewrite Hnext; [done|set_solver|].
    intros ->. apply Ha, last_elem_of.
  - rewrite Hprev; [done|set_solver].
  - apply IH; [done|done| |].
    + intros c Hc Hne. apply Hnext; [set_solver|done].
    + intros d Hd. apply Hprev. set_solver.
Qed.

Lemma path_ext s s' a P :
  (∀ y, y ∈ a :: P → load_link y s' = load_link y s) →
  path s a P → path s' a P.
Proof.
  revert a. induction P as [|b P IH]; intros a Heq Hp; [done|].
  destruct Hp as [[Hab Hba] Hp]. simpl. split; [split|].
  - rewrite Heq; [done|set_solver].
  - rewrite Heq; [done|set_solver].
  - apply IH; [|done]. intros y Hy. apply Heq. set_solver.
Qed.

Lemma is_list_ext s s' h L :
  (∀ y, y ∈ h :: L → load_link y s' = load_link y s) →
  is_list s h L → is_list s' h L.
Proof.
  intros Heq [Hnd Hp]. split; [done|]. apply (path_ext s); [|done].
  intros y Hy. apply Heq. set_solver.
Qed.

Lemma is_list_head s h L :
  is_list s h L →
  ∃ hl, load_link h s = Some hl ∧ l_prev hl = List.last L h ∧ l_prev hl ∈ h :: L.
Proof.
  intros [_ Hp]. apply path_app in Hp as [_ [[_ Hz] _]].
  destruct (load_link h s) as [hl|]; [|done]. exists hl.
  simpl in Hz. injection Hz as Hz. split; [done|]. split; [done|].
  rewrite Hz. apply last_elem_of.
Qed.

(** A link on a list points forward to a link in memory: it is not null. *)
Lemma path_elem_next s a P z x :
  path s a (P ++ [z]) → x ∈ a :: P →
  ∃ v, load_link x s = Some v ∧ is_Some (load_link (l_next v) s).
Proof.
  revert a. induction P as [|b P IH]; intros a Hp Hx.
  - destruct Hp as [[Hn Hb] _]. apply list_elem_of_singleton in Hx as ->.
    destruct (load_link a s) as [v|]; [|done]. exists v. split; [done|].
    simpl in Hn. simplify_eq. destruct (load_link (l_next v) s); [eauto|done].
  - destruct Hp as [[Hn Hb] Hp]. apply elem_of_cons in Hx as [->|Hx].
    + destruct (load_link a s) as [v|]; [|done]. exists v. split; [done|].
      simpl in Hn. simplify_eq. destruct (load_link (l_next v) s); [eauto|done].
    + by apply (IH b).
Qed.

Lemma is_list_elem_mapped s h L x :
  is_list s h L → x ∈ h :: L → is_Some (load_link x s).
Proof.
  intros [_ Hp] Hx. destruct (path_elem_next s h L h x Hp Hx) as (v & Hv & _).
  eauto.
Qed.

Lemma is_list_elem_next s h L x :
  is_list s h L → x ∈ L →
  ∃ v, load_link x s = Some v ∧ l_next v ≠ LNull.
Proof.
  intros [_ Hp] Hx.
  destruct (path_elem_next s h L h x Hp) as (v & Hv & [w Hw]); [set_solver|].
  exists v. split; [done|]. intros E. by rewrite E in Hw.
Qed.

(** A link that is not linked is on no list. *)
Lemma unlinked_on_no_list s x v h L :
  load_link x s = Some v → l_next v = LNull → is_list s h L → x ∉ L.
Proof.
  intros Hv Hn Hl Hx.
  destruct (is_list_elem_next s h L x Hl Hx) as (v' & Hv' & Hne). congruence.
Qed.

(** The chain determines the list: a head has one list of links. *)
Lemma path_functional s a P P' z :
  path s a (P ++ [z]) → path s a (P' ++ [z]) → z ∉ P → z ∉ P' → P = P'.
Proof.
  revert a P'. induction P as [|b P IH]; intros a P' Hp Hp' Hz Hz'.
  - destruct P' as [|b' P']; [done|].
    destruct Hp as [[Hn _] _]. destruct Hp' as [[Hn' _] _].
    rewrite Hn in Hn'. injection Hn' as <-. set_solver.
  - destruct P' as [|b' P'].
    + destruct Hp as [[Hn _] _]. destruct Hp' as [[Hn' _] _].
      rewrite Hn in Hn'. injection Hn' as ->. set_solver.
    + destruct Hp as [[Hn _] Hp]. destruct Hp' as [[Hn' _] Hp'].
      rewrite Hn in Hn'. injection Hn' as <-. f_equal.
      apply (IH b); [done|done|set_solver|set_solver].
Qed.

Lemma is_list_unique s h L L' : is_list s h L → is_list s h L' → L = L'.
Proof.
  intros [Hnd Hp] [Hnd' Hp'].
  apply NoDup_cons in Hnd as [Hh _]. apply NoDup_cons in Hnd' as [Hh' _].
  by apply (path_functional s h L L' h).
Qed.

Lemma thread_list_unique s p ts ts' :
  thread_list s p ts → thread_list s p ts' → ts = ts'.
Proof.
  intros Hl Hl'. pose proof (is_list_unique _ _ _ _ Hl Hl') as E.
  clear Hl Hl'. revert ts' E.
  induction ts as [|t ts IH]; intros [|t' ts'] E; try done.
  injection E as -> E. f_equal. by apply IH.
Qed.

(** Inserting a fresh link before the head appends it to the list. *)
Lemma is_list_insert_tail s s' h L x hl pl :
  is_list s h L → x ∉ h :: L →
  load_link h s = Some hl → load_link (l_prev hl) s = Some pl →
  (∀ y, load_link y s' =
      if decide (y = h) then
        Some (mk_link (if decide (l_prev hl = h) then x else l_next hl) x)
      else if decide (y = l_prev hl) then Some (mk_link x (l_prev pl))
      else if decide (y = x) then Some (mk_link h (l_prev hl))
      else load_link y s) →
  is_list s' h (L ++ [x]).
Proof.
  intros [Hnd Hp] Hx Hh Hpl Hview.
  apply path_app in Hp as [HpL [[Hzn Hzp] _]].
  rewrite Hh in Hzp. simpl in Hzp. injection Hzp as Hz.
  assert (Hzin : l_prev hl ∈ h :: L) by (rewrite Hz; apply last_elem_of).
  assert (Hxz : x ≠ l_prev hl) by (intros ->; done).
  assert (Hxh : x ≠ h) by set_solver.
  split.
  { rewrite app_comm_cons. apply NoDup_app. split; [done|]. split.
    - intros y Hy ->%list_elem_of_singleton. done.
    - apply NoDup_singleton. }
  rewrite <- app_assoc. apply path_app. split.
  - apply (path_frame s); [done|done| |].
    + intros c Hc Hne. rewrite <- Hz in Hne. rewrite Hview.
      destruct (decide (c = h)) as [->|Ech].
      * rewrite decide_False by done. by rewrite Hh.
      * rewrite decide_False by done. rewrite decide_False; [done|].
        intros ->. done.
    + intros d Hd. rewrite Hview.
      rewrite decide_False by (intros ->; apply NoDup_cons in Hnd as [? _]; done).
      destruct (decide (d = l_prev hl)) as [->|Edz]; [by rewrite Hpl|].
      rewrite decide_False; [done|]. intros ->. set_solver.
  - rewrite <- Hz. simpl. repeat split.
    + rewrite Hview. destruct (decide (l_prev hl = h)) as [E|E]; [done|].
      by rewrite decide_True.
    + rewrite Hview. by rewrite decide_False, decide_False, decide_True.
    + rewrite Hview. by rewrite decide_False, decide_False, decide_True.
    + rewrite Hview. by rewrite decide_True.
Qed.

(** ** Allocation steps *)

Lemma slab_obj_alloc_cons s a rest :
  kthread_allocator s = a :: rest →
  slab_obj_alloc s = Returns a (with_kthread_allocator rest s).
Proof. intros E. unfold slab_obj_alloc. by rewrite E. Qed.

Lemma slab_obj_alloc_nil s :
  kthread_allocator s = [] → slab_obj_alloc s = Returns NULL s.
Proof. intros E. unfold slab_obj_alloc. by rewrite E. Qed.

Lemma list_link_init_qlink t s k :
  kt_mem s !! t = Some k →
  list_link_init (LQlink t) s =
    Returns () (with_kt_mem (<[t := set_kt_qlink unlinked k]> (kt_mem s)) s).
Proof.
  intros E. unfold list_link_init, link_upd, load_link, store_link.
  rewrite E. simpl. by rewrite (alter_alt_Some _ _ _ _ E).
Qed.

Lemma list_link_init_plink t s k :
  kt_mem s !! t = Some k →
  list_link_init (LPlink t) s =
    Returns () (with_kt_mem (<[t := set_kt_plink unlinked k]> (kt_mem s)) s).
Proof.
  intros E. unfold list_link_init, link_upd, load_link, store_link.
  rewrite E. simpl. by rewrite (alter_alt_Some _ _ _ _ E).
Qed.

Section Stack.

Context `{!Platform}.

Lemma alloc_stack_cons s a rest :
  pg_pool s = a :: rest →
  alloc_stack s =
    Returns a (with_pages (<[a := stack_npages]> (pg_used s)) rest
                 (pg_log s ++ [PageAlloc stack_npages a]) s).
Proof. intros E. unfold alloc_stack, page_alloc_n, bind, ret. by rewrite E. Qed.

Lemma alloc_stack_nil s :
  pg_pool s = [] →
  alloc_stack s =
    Returns NULL (with_pages (pg_used s) []
                    (pg_log s ++ [PageAlloc stack_npages NULL]) s).
Proof. intros E. unfold alloc_stack, page_alloc_n, bind, ret. by rewrite E. Qed.

Lemma alloc_stack_Returns_inv s a s' :
  alloc_stack s = Returns a s' →
  (pg_pool s = [] ∧ a = NULL) ∨
  (∃ rest, pg_pool s = a :: rest ∧
     s' = with_pages (<[a := stack_npages]> (pg_used s)) rest
            (pg_log s ++ [PageAlloc stack_npages a]) s).
Proof.
  destruct (pg_pool s) as [|r rest] eqn:Hpool.
  - rewrite (alloc_stack_nil _ Hpool). intros [= <- <-]. by left.
  - rewrite (alloc_stack_cons _ _ _ Hpool). intros [= <- <-]. right. eauto.
Qed.

Lemma free_stack_Returns stack s :
  free_stack stack s =
    Returns () (with_pages (delete stack (pg_used s)) (stack :: pg_pool s)
                  (pg_log s ++ [PageFree stack stack_npages]) s).
Proof. reflexivity. Qed.

End Stack.

#[local] Arguments Z.eqb : simpl never.
#[local] Arguments cast_int : simpl never.
#[local] Arguments cast_uint32 : simpl never.
#[local] Arguments list_insert_tail : simpl never.
#[local] Arguments list_insert_before : simpl never.
#[local] Arguments list_remove : simpl never.
#[local] Arguments list_link_init : simpl never.
#[local] Arguments list_link_is_linked : simpl never.
#[local] Arguments sched_cancel : simpl never.

(** One step of a run: the first action returns, go on with the rest. *)
Ltac klookup :=
  simpl;
  first
    [ eassumption
    | rewrite lookup_insert_eq; reflexivity
    | rewrite lookup_insert_ne by (simpl; congruence); klookup ].

Ltac kprim :=
  first
    [ reflexivity
    | apply kt_get_Some; klookup
    | apply kt_upd_Some; klookup
    | apply proc_get_Some; simpl; eassumption
    | apply slab_obj_alloc_cons; simpl; eassumption
    | apply alloc_stack_cons; simpl; eassumption
    | apply list_link_init_qlink; klookup
    | apply list_link_init_plink; klookup ].

(** One step back from a run that returned. *)
Ltac kinv E :=
  let E1 := fresh "E" in
  apply bind_Returns_inv in E as (? & ? & E1 & E);
  first
    [ apply KASSERT_Returns_inv in E1 as [E1 ->]
    | apply kt_get_Returns_inv in E1 as (? & E1 & -> & ->)
    | apply kt_upd_Returns_inv in E1 as (? & E1 & ->)
    | apply proc_get_Returns_inv in E1 as (? & E1 & -> & ->)
    | apply get_curthr_Returns_inv in E1 as [-> ->]
    | apply ret_Returns_inv in E1 as [-> ->]
    | apply link_get_Returns_inv in E1 as [E1 ->]
    | apply link_upd_Returns_inv in E1 as (? & E1 & ->)
    | apply slab_obj_alloc_Returns_inv in E1 as [(E1 & -> & ->)|(? & E1 & ->)]
    | apply alloc_stack_Returns_inv in E1 as [(E1 & ->)|(? & E1 & ->)] ];
  try unfold with_kt_mem in *; try unfold with_kthread_allocator in *;
  try unfold with_pages in *;
  cbn [curthr curproc kt_mem kthread_allocator proc_mem queue_mem
       pg_used pg_pool pg_log] in *.

Ltac knonnull :=
  repeat match goal with
         | H : negb (_ =? _) = true |- _ =>
             apply negb_true_iff, Z.eqb_neq in H
         end.

Ltac knorm :=
  try unfold with_kt_mem; try unfold with_kthread_allocator;
  try unfold with_pages;
  cbn [curthr curproc kt_mem kthread_allocator proc_mem queue_mem
       pg_used pg_pool pg_log];
  try rewrite !insert_insert_eq.

Ltac kstep := erewrite bind_Returns; [| kprim ]; knorm; simpl.

Section Properties.

Context `{!Platform}.

(** *** The stack manager *)

Lemma cast_int_small (z : Z) : - 2 ^ 31 ≤ z < 2 ^ 31 → cast_int z = z.
Proof. intros. unfold cast_int. rewrite Z.mod_small; lia. Qed.

Lemma ceil_div_exact (a b : Z) : 0 < b → a mod b = 0 → ceil_div a b = a / b.
Proof.
  intros Hb Hmod. unfold ceil_div.
  rewrite (Z.div_mod a b) at 1 by lia. rewrite Hmod.
  replace (b * (a / b) + 0 + b - 1) with (a / b * b + (b - 1)) by lia.
  rewrite Z.div_add_l by lia. rewrite (Z.div_small (b - 1) b) by lia. lia.
Qed.

(** C9, as the code has it.  A stack request is for
    [1 + (DEFAULT_STACK_SIZE >> PAGE_SHIFT)] pages: one more than the whole
    pages in the default stack size, rounded down.  That is
    [ceil(DEFAULT_STACK_SIZE / page_size) + 1] when the stack size is a
    whole number of pages.  [alloc_stack] asks the page allocator for that
    many pages and returns what it gets, NULL when no region is free;
    [free_stack] gives a stack back with the same page count. *)
Theorem stack_page_count :
  0 ≤ PAGE_SHIFT →
  - 2 ^ 31 ≤ 1 + DEFAULT_STACK_SIZE / 2 ^ PAGE_SHIFT < 2 ^ 31 →
  stack_npages = 1 + DEFAULT_STACK_SIZE / page_size ∧
  (DEFAULT_STACK_SIZE mod page_size = 0 →
   stack_npages = ceil_div DEFAULT_STACK_SIZE page_size + 1) ∧
  (∀ s, ∃ a s',
     alloc_stack s = Returns a s' ∧ a = default NULL (head (pg_pool s)) ∧
     pg_log s' = pg_log s ++ [PageAlloc stack_npages a]) ∧
  (∀ s stack, ∃ s',
     free_stack stack s = Returns () s' ∧
     pg_log s' = pg_log s ++ [PageFree stack stack_npages]).
Proof.
  intros Hshift Hrange.
  assert (Hn : stack_npages = 1 + DEFAULT_STACK_SIZE / page_size).
  { unfold stack_npages, page_size. rewrite Z.shiftr_div_pow2 by done.
    by apply cast_int_small. }
  split; [done|]. split.
  { intros Hmod. rewrite Hn, ceil_div_exact; [lia| |done].
    unfold page_size. by apply Z.pow_pos_nonneg. }
  split.
  - intros s. destruct (pg_pool s) as [|a rest] eqn:Hpool.
    + eexists _, _. split; [by apply alloc_stack_nil|]. done.
    + eexists _, _. split; [by apply alloc_stack_cons|]. done.
  - intros s stack. eexists. split; [apply free_stack_Returns|]. done.
Qed.

(** *** exit *)

Lemma kthread_exit_never_returns retval s :
  is_return (kthread_exit retval s) = false.
Proof.
  unfold kthread_exit.
  repeat (apply bind_continuation_never_returns; intros).
  reflexivity.
Qed.

Lemma kthread_exit_handoff retval s k :
  kt_mem s !! curthr s = Some k →
  kt_wchan k = NULL → kt_qlink k = unlinked → kt_proc k = curproc s →
  kthread_exit retval s =
    match proc_thread_exited retval (exit_handoff retval k s) with
    | Returns _ s' =>
        Panics "Should never get here! proc_thread_exited() will kill thread." s'
    | o => o
    end.
Proof.
  intros Hk Hw Hq Hp. unfold kthread_exit.
  do 4 kstep. rewrite Hw. simpl. do 3 kstep. rewrite Hq. simpl. do 4 kstep.
  rewrite Hp, Z.eqb_refl. do 3 kstep.
  unfold exit_handoff, with_kt_mem, bind, panic. simpl.
  by destruct (proc_thread_exited _ _).
Qed.

Lemma kthread_exit_assertion retval s k :
  kt_mem s !! curthr s = Some k →
  kt_wchan k ≠ NULL ∨ kt_qlink k ≠ unlinked ∨ kt_proc k ≠ curproc s →
  ∃ msg, kthread_exit retval s = Panics msg (exit_stored retval k s).
Proof.
  intros Hk Hbad. unfold kthread_exit. do 4 kstep.
  destruct (kt_wchan k =? NULL) eqn:Hw; [|by eexists].
  apply Z.eqb_eq in Hw. do 3 kstep.
  destruct (is_null (l_next (kt_qlink k)) && is_null (l_prev (kt_qlink k)))
    eqn:Hq; [|by eexists].
  assert (Hq' : kt_qlink k = unlinked).
  { destruct (kt_qlink k) as [[] []]; by simpl in Hq. }
  do 4 kstep.
  destruct (kt_proc k =? curproc s) eqn:Hp; [|by eexists].
  apply Z.eqb_eq in Hp. naive_solver.
Qed.

(** C2.  [kthread_exit(retval)] on the calling thread: while the thread
    still holds a queue membership (a wait channel or a linked queue link)
    the assertions stop the kernel, at a point where the result is already
    stored and the state is not yet EXITED; with no queue membership (and
    the thread owned by the current process) the result is stored, then the
    state set to EXITED, and that state is handed to [proc_thread_exited];
    should the notification come back, the kernel panics.  In no case does
    [kthread_exit] return to its caller. *)
Theorem kthread_exit_spec retval s k :
  kt_mem s !! curthr s = Some k →
  (kt_wchan k ≠ NULL ∨ kt_qlink k ≠ unlinked →
   ∃ msg, kthread_exit retval s = Panics msg (exit_stored retval k s) ∧
     kt_mem (exit_stored retval k s) !! curthr s = Some (set_kt_retval retval k)) ∧
  (kt_wchan k = NULL → kt_qlink k = unlinked → kt_proc k = curproc s →
   kt_mem (exit_handoff retval k s) !! curthr s =
     Some (set_kt_state KT_EXITED (set_kt_retval retval k)) ∧
   kthread_exit retval s =
     match proc_thread_exited retval (exit_handoff retval k s) with
     | Returns _ s' =>
         Panics "Should never get here! proc_thread_exited() will kill thread." s'
     | o => o
     end) ∧
  is_return (kthread_exit retval s) = false.
Proof.
  intros Hk. split; [|split].
  - intros Hbad.
    destruct (kthread_exit_assertion retval s k Hk) as [msg E]; [naive_solver|].
    exists msg. split; [done|]. simpl. apply lookup_insert_eq.
  - intros Hw Hq Hp. split; [simpl; apply lookup_insert_eq|].
    by apply kthread_exit_handoff.
  - apply kthread_exit_never_returns.
Qed.

(** *** cancel *)

Lemma kthread_cancel_self retval s :
  curthr s ≠ NULL →
  kthread_cancel (curthr s) retval s = kthread_exit retval s.
Proof.
  intros Hc. unfold kthread_cancel.
  rewrite (NULL_eqb_false _ Hc). do 2 kstep. rewrite Z.eqb_refl.
  pose proof (kthread_exit_never_returns retval s) as Hn.
  unfold bind at 1 2. by destruct (kthread_exit retval s).
Qed.

(** C3.  Cancelling the calling thread is [kthread_exit]: for every result
    value and every state the two calls have the same outcome, state
    included, and neither returns. *)
Theorem kthread_cancel_self_is_exit retval s :
  curthr s ≠ NULL →
  kthread_cancel (curthr s) retval s = kthread_exit retval s ∧
  is_return (kthread_cancel (curthr s) retval s) = false.
Proof.
  intros Hc. rewrite (kthread_cancel_self retval s Hc).
  split; [done|apply kthread_exit_never_returns].
Qed.

Lemma kt_store_load_link s t k y :
  load_link y (with_kt_mem (<[t := k]> (kt_mem s)) s) =
    if decide (y = LQlink t) then Some (kt_qlink k)
    else if decide (y = LPlink t) then Some (kt_plink k)
    else load_link y s.
Proof.
  destruct y; try done; simpl; case_decide; simplify_eq.
  all: try by rewrite lookup_insert_eq.
  all: rewrite lookup_insert_ne; [done|congruence].
Qed.

Lemma kthread_cancel_plain s kthr retval k :
  kthr ≠ NULL → kthr ≠ curthr s → kt_mem s !! kthr = Some k →
  kt_state k ≠ KT_SLEEP_CANCELLABLE →
  kthread_cancel kthr retval s =
    Returns ()
      (with_kt_mem
         (<[kthr := set_kt_cancelled 1 (set_kt_retval retval k)]> (kt_mem s)) s).
Proof.
  intros Hn Hc Hk Hst. unfold kthread_cancel.
  rewrite (NULL_eqb_false _ Hn). do 2 kstep.
  rewrite (proj2 (Z.eqb_neq (curthr s) kthr)) by done. do 2 kstep.
  unfold sched_cancel. do 2 kstep. by destruct (kt_state k).
Qed.

Lemma kthread_cancel_wake s kthr retval k pl nl :
  kthr ≠ NULL → kthr ≠ curthr s → kt_mem s !! kthr = Some k →
  kt_state k = KT_SLEEP_CANCELLABLE →
  load_link (l_prev (kt_qlink k)) s = Some pl →
  load_link (l_next (kt_qlink k)) s = Some nl →
  ∃ s3 k3,
    list_remove (LQlink kthr)
      (with_kt_mem
         (<[kthr := set_kt_cancelled 1 (set_kt_retval retval k)]> (kt_mem s)) s)
      = Returns () s3 ∧
    links_only
      (with_kt_mem
         (<[kthr := set_kt_cancelled 1 (set_kt_retval retval k)]> (kt_mem s)) s)
      s3 ∧
    (l_next pl = LQlink kthr → l_prev nl = LQlink kthr →
     ∀ y, y ≠ LQlink kthr →
          linked <$> load_link y s3 = linked <$> load_link y s) ∧
    kt_mem s3 !! kthr = Some k3 ∧
    kt_body k3 = kt_body (set_kt_cancelled 1 (set_kt_retval retval k)) ∧
    kt_qlink k3 = unlinked ∧
    kthread_cancel kthr retval s =
      Returns ()
        (with_kt_mem
           (<[kthr := set_kt_state KT_RUN (set_kt_wchan NULL k3)]> (kt_mem s3)) s3).
Proof.
  intros Hn Hc Hk Hst Hpl Hnl.
  set (k2 := set_kt_cancelled 1 (set_kt_retval retval k)).
  set (s2 := with_kt_mem (<[kthr := k2]> (kt_mem s)) s).
  assert (Hl2 : ∀ y, load_link y s2 = load_link y s).
  { intros y. unfold s2. rewrite (kt_store_load_link s kthr k2 y).
    repeat case_decide; subst; simpl; rewrite ?Hk; done. }
  assert (Hk2 : kt_mem s2 !! kthr = Some k2) by (simpl; apply lookup_insert_eq).
  assert (Hq2 : load_link (LQlink kthr) s2 = Some (kt_qlink k))
    by (rewrite Hl2; simpl; by rewrite Hk).
  rewrite <- Hl2 in Hpl, Hnl.
  destruct (list_remove_Returns _ _ _ pl nl Hq2 Hpl Hnl)
    as (s3 & Hrun & Hlo & Hview).
  destruct (links_only_lookup s2 s3 kthr k2 Hlo Hk2) as (k3 & Hk3 & Hbody & Hq3 & _).
  rewrite Hview, decide_True in Hq3 by done. injection Hq3 as Hq3.
  exists s3, k3. split; [done|]. split; [done|]. split.
  { intros Hpn Hnp y Hy. rewrite <- Hl2.
    by apply (list_remove_linked_frame (LQlink kthr) s2 s3 (kt_qlink k) pl nl). }
  split; [done|]. split; [done|]. split; [done|].
  unfold kthread_cancel.
  rewrite (NULL_eqb_false _ Hn). do 2 kstep.
  rewrite (proj2 (Z.eqb_neq (curthr s) kthr)) by done. do 2 kstep.
  unfold sched_cancel. do 2 kstep. rewrite Hst.
  erewrite bind_Returns; [|exact Hrun].
  rewrite (bind_Returns _ _ _ _ _ (kt_upd_Some _ _ _ _ Hk3)).
  erewrite kt_upd_Some by (simpl; apply lookup_insert_eq).
  unfold with_kt_mem. simpl. by rewrite insert_insert_eq.
Qed.

(** C4.  [kthread_cancel] of a thread other than the caller: the call
    returns, with the result stored in the target and the cancellation flag
    set (by [sched_cancel]).  A target in a cancellable sleep is woken:
    taken off its queue, its wait channel cleared, its state KT_RUN.  Any
    other target is left as it was, state and queue link included; nothing
    but the result slot and the flag changes in the whole state.  No target
    is moved to KT_EXITED. *)
Theorem kthread_cancel_other s kthr retval k :
  kthr ≠ NULL → kthr ≠ curthr s → kt_mem s !! kthr = Some k →
  (kt_state k = KT_SLEEP_CANCELLABLE →
   is_Some (load_link (l_prev (kt_qlink k)) s) ∧
   is_Some (load_link (l_next (kt_qlink k)) s)) →
  ∃ s' k',
    kthread_cancel kthr retval s = Returns () s' ∧
    kt_mem s' !! kthr = Some k' ∧
    kt_retval k' = retval ∧ kt_cancelled k' = 1 ∧
    (kt_state k = KT_SLEEP_CANCELLABLE →
     kt_state k' = KT_RUN ∧ kt_qlink k' = unlinked ∧ kt_wchan k' = NULL) ∧
    (kt_state k ≠ KT_SLEEP_CANCELLABLE →
     k' = set_kt_cancelled 1 (set_kt_retval retval k) ∧
     s' = with_kt_mem (<[kthr := k']> (kt_mem s)) s) ∧
    (kt_state k' = KT_EXITED → kt_state k = KT_EXITED).
Proof.
  intros Hn Hc Hk Hnb.
  destruct (decide (kt_state k = KT_SLEEP_CANCELLABLE)) as [Hst|Hst].
  - destruct (Hnb Hst) as [[pl Hpl] [nl Hnl]].
    destruct (kthread_cancel_wake s kthr retval k pl nl)
      as (s3 & k3 & _ & _ & _ & Hk3 & Hbody & Hq3 & Hrun); try done.
    eexists _, _. split; [exact Hrun|]. split; [simpl; apply lookup_insert_eq|].
    simpl. split; [by apply (f_equal kt_retval) in Hbody|].
    split; [by apply (f_equal kt_cancelled) in Hbody|]. done.
  - eexists _, _. split; [by apply kthread_cancel_plain|].
    split; [simpl; apply lookup_insert_eq|]. simpl. done.
Qed.

(** *** clone *)

Lemma kthread_clone_Returns s thr S n rest N a b pool :
  kt_mem s !! thr = Some S → kt_state S = KT_RUN →
  kthread_allocator s = n :: rest → n ≠ NULL → kt_mem s !! n = Some N → thr ≠ n →
  pg_pool s = a :: b :: pool → a ≠ NULL → b ≠ NULL →
  kthread_clone thr s =
    Returns n (clone_state s n (clone_block S N a b) rest a b pool).
Proof.
  intros HS Hst Hal Hn HN Hne Hpool Ha Hb. unfold kthread_clone.
  kstep. rewrite Hst. simpl. do 2 kstep.
  rewrite (Z_eqb_NULL_false n Hn). simpl. do 2 kstep.
  rewrite (NULL_eqb_false a Ha). simpl. do 4 kstep.
  rewrite (NULL_eqb_false b Hb). simpl. do 16 kstep.
  unfold ret, clone_state, clone_block. by rewrite <- app_assoc.
Qed.

Lemma cast_uint32_small (a : Z) : 0 < a < 2 ^ 32 → cast_uint32 a = a.
Proof. intros. unfold cast_uint32. apply Z.mod_small. lia. Qed.

(** C6.  [kthread_clone] of a live source [S] in state KT_RUN, with a free
    control block [n] and two free stack regions: it returns [n], a new
    non-null control block other than the source, whose result, error,
    cancellation flag and wait-channel reference are those of [S]; whose
    stacks (the kernel stack and the context's) are newly allocated and
    differ from the stack of [S]; in state KT_RUN; with queue link and
    collection link on no list; and with no owning process.  The source is
    left as it was. *)
Theorem kthread_clone_spec s thr S n rest a b pool :
  slab_wf s → pages_wf s →
  kt_mem s !! thr = Some S → kt_state S = KT_RUN →
  thr ∉ kthread_allocator s → is_Some (pg_used s !! (kt_kstack S)) →
  kthread_allocator s = n :: rest → pg_pool s = a :: b :: pool →
  ∃ s' T,
    kthread_clone thr s = Returns n s' ∧
    n ≠ NULL ∧ n ≠ thr ∧ (n ∉ kthread_allocator s') ∧
    kt_mem s' !! n = Some T ∧
    kt_retval T = kt_retval S ∧ kt_errno T = kt_errno S ∧
    kt_cancelled T = kt_cancelled S ∧ kt_wchan T = kt_wchan S ∧
    kt_kstack T ≠ kt_kstack S ∧ c_kstack (kt_ctx T) ≠ kt_kstack S ∧
    pg_used s !! (kt_kstack T) = None ∧ is_Some (pg_used s' !! (kt_kstack T)) ∧
    kt_state T = KT_RUN ∧
    kt_qlink T = unlinked ∧ kt_plink T = unlinked ∧
    (∀ h L, is_list s' h L → (LQlink n ∉ L) ∧ (LPlink n ∉ L)) ∧
    kt_proc T = NULL ∧
    kt_mem s' !! thr = Some S.
Proof.
  intros [Hnd Hslab] [Hpnd Hpages] HS Hst Hlive [np Hused] Hal Hpool.
  rewrite Forall_forall in Hslab, Hpages.
  destruct (Hslab n) as [Hn [N HN]]; [rewrite Hal; set_solver|].
  destruct (Hpages a) as [Ha Hafree]; [rewrite Hpool; set_solver|].
  destruct (Hpages b) as [Hb Hbfree]; [rewrite Hpool; set_solver|].
  assert (Hne : thr ≠ n) by (intros ->; apply Hlive; rewrite Hal; set_solver).
  exists (clone_state s n (clone_block S N a b) rest a b pool),
         (clone_block S N a b).
  split.
  { apply kthread_clone_Returns; try done; unfold NULL; lia. }
  split; [done|]. split; [done|]. split.
  { simpl. rewrite Hal in Hnd. by apply NoDup_cons in Hnd as [? _]. }
  split; [simpl; apply lookup_insert_eq|].
  do 4 (split; [done|]). simpl.
  split; [congruence|]. split; [rewrite cast_uint32_small by done; congruence|].
  split; [done|]. split; [rewrite lookup_insert_eq; eauto|].
  do 3 (split; [done|]). split.
  { intros h L Hl. split.
    - eapply unlinked_on_no_list; [ | |exact Hl];
        [simpl; by rewrite lookup_insert_eq|done].
    - eapply unlinked_on_no_list; [ | |exact Hl];
        [simpl; by rewrite lookup_insert_eq|done]. }
  split; [done|]. by rewrite lookup_insert_ne.
Qed.

(** C5, as the code has it.  [kthread_clone] copies nothing of the source's
    execution context.  In the context of the new control block it sets
    [c_kstack] to the first stack region it allocates and [c_kstacksz] to
    DEFAULT_STACK_SIZE; the instruction pointer, stack pointer, frame
    pointer and page-directory reference stay what the block held when the
    allocator handed it over. *)
Theorem kthread_clone_context s thr S n rest N a b pool :
  slab_wf s → pages_wf s →
  kt_mem s !! thr = Some S → kt_state S = KT_RUN →
  thr ∉ kthread_allocator s →
  kthread_allocator s = n :: rest → kt_mem s !! n = Some N →
  pg_pool s = a :: b :: pool →
  ∃ s' T,
    kthread_clone thr s = Returns n s' ∧ kt_mem s' !! n = Some T ∧
    c_kstack (kt_ctx T) = a ∧ pg_used s !! a = None ∧
    pg_used s' !! a = Some stack_npages ∧
    c_kstacksz (kt_ctx T) = DEFAULT_STACK_SIZE ∧
    c_eip (kt_ctx T) = c_eip (kt_ctx N) ∧ c_esp (kt_ctx T) = c_esp (kt_ctx N) ∧
    c_ebp (kt_ctx T) = c_ebp (kt_ctx N) ∧ c_pdptr (kt_ctx T) = c_pdptr (kt_ctx N).
Proof.
  intros [Hnd Hslab] [Hpnd Hpages] HS Hst Hlive Hal HN Hpool.
  rewrite Forall_forall in Hslab, Hpages.
  destruct (Hslab n) as [Hn _]; [rewrite Hal; set_solver|].
  destruct (Hpages a) as [Ha Hafree]; [rewrite Hpool; set_solver|].
  destruct (Hpages b) as [Hb Hbfree]; [rewrite Hpool; set_solver|].
  assert (Hne : thr ≠ n) by (intros ->; apply Hlive; rewrite Hal; set_solver).
  assert (Hab : a ≠ b).
  { rewrite Hpool in Hpnd. apply NoDup_cons in Hpnd as [Hin _]. set_solver. }
  exists (clone_state s n (clone_block S N a b) rest a b pool),
         (clone_block S N a b).
  split.
  { apply kthread_clone_Returns; try done; unfold NULL; lia. }
  split; [simpl; apply lookup_insert_eq|]. simpl.
  split; [by apply cast_uint32_small|]. split; [done|].
  split; [by rewrite lookup_insert_ne, lookup_insert_eq|]. done.
Qed.

Lemma kthread_clone_Returns_inv thr s t s' :
  kthread_clone thr s = Returns t s' →
  ∃ S rest N a b pool,
    kt_mem s !! thr = Some S ∧ kt_state S = KT_RUN ∧
    kthread_allocator s = t :: rest ∧ t ≠ NULL ∧ kt_mem s !! t = Some N ∧
    pg_pool s = a :: b :: pool ∧ a ≠ NULL ∧ b ≠ NULL.
Proof.
  unfold kthread_clone. intros E.
  kinv E. kinv E. kinv E; [kinv E; by cbv in E2|].
  kinv E. kinv E; [kinv E; by cbv in E4|].
  kinv E. kinv E. kinv E. kinv E; [kinv E; by cbv in E8|]. kinv E.
  repeat (apply bind_Returns_inv in E as (? & ? & _ & E)).
  apply ret_Returns_inv in E as [-> _]. knonnull.
  apply bool_decide_eq_true in E1. subst x6.
  eexists _, _, _, _, _, _. repeat split; try done.
Qed.

(** *** The queue-membership invariant *)

Lemma queue_invariant_ext k k' :
  linked (kt_qlink k') = linked (kt_qlink k) →
  kt_state k' = kt_state k → kt_wchan k' = kt_wchan k →
  queue_invariant k → queue_invariant k'.
Proof. unfold queue_invariant. intros -> -> ->. done. Qed.

Lemma queue_invariant_fresh k :
  kt_qlink k = unlinked → kt_wchan k = NULL → queue_invariant k.
Proof.
  unfold queue_invariant. intros -> ->. simpl. split; [|done].
  split; [done|]. by intros [_ ?].
Qed.

Lemma queue_invariant_running k :
  queue_invariant k → kt_state k = KT_RUN → kt_wchan k = NULL.
Proof.
  intros [_ Hw] Hst. destruct (decide (kt_wchan k = NULL)) as [|Hne]; [done|].
  specialize (Hw Hne). by rewrite Hst in Hw.
Qed.

Lemma links_only_view s s' t k' :
  links_only s s' → kt_mem s' !! t = Some k' →
  ∃ k, kt_mem s !! t = Some k ∧
    kt_state k' = kt_state k ∧ kt_wchan k' = kt_wchan k ∧
    load_link (LQlink t) s' = Some (kt_qlink k') ∧
    load_link (LQlink t) s = Some (kt_qlink k).
Proof.
  intros Hlo Hk'. pose proof (lo_body _ _ Hlo t) as Hb. rewrite Hk' in Hb.
  destruct (kt_mem s !! t) as [k|] eqn:Hk; [|done]. exists k.
  assert (Hb' : kt_body k' = kt_body k) by (simpl in Hb; congruence).
  split; [done|]. split; [by apply (f_equal kt_state) in Hb'|].
  split; [by apply (f_equal kt_wchan) in Hb'|].
  simpl. by rewrite Hk', Hk.
Qed.

Lemma same_kind_proc_not_qlink l x t :
  kind_of l = Some KProc → same_kind l x → x ≠ LQlink t.
Proof.
  intros Hl [Hx|Hx] E; subst x; [done|]. rewrite Hl in Hx. done.
Qed.

Lemma links_wf_check s : links_wf_by_memory s → links_wf s.
Proof.
  intros (Hk & Hp & Hq) l v Hl. destruct l; simpl in Hl; [done|..].
  all: apply fmap_Some in Hl as (x & Hx & ->).
  - by apply (Hp _ _ Hx).
  - by apply (Hk _ _ Hx).
  - by apply (Hk _ _ Hx).
  - by apply (Hq _ _ Hx).
Qed.

Lemma kthread_invariant_store s t k k' :
  kthread_invariant s → kt_mem s !! t = Some k →
  (t ∉ kthread_allocator s → queue_invariant k → queue_invariant k') →
  kthread_invariant (with_kt_mem (<[t := k']> (kt_mem s)) s).
Proof.
  intros Hinv Hk Hk' t0 k0 Hk0 Hlive0. simpl in *.
  destruct (decide (t0 = t)) as [->|Hne].
  - rewrite lookup_insert_eq in Hk0. injection Hk0 as <-.
    apply Hk'; [done|]. by apply (Hinv t).
  - rewrite lookup_insert_ne in Hk0 by done. by apply (Hinv t0).
Qed.

Lemma kthread_exit_invariant retval s :
  kthread_invariant s →
  (∀ s0, kthread_invariant s0 →
         kthread_invariant (final_state (proc_thread_exited retval s0))) →
  kthread_invariant (final_state (kthread_exit retval s)).
Proof.
  intros Hinv Hrely.
  destruct (kt_mem s !! curthr s) as [k|] eqn:Hk.
  2: { unfold kthread_exit. kstep.
       by rewrite (bind_Faults _ _ _ _ (kt_upd_None _ _ _ Hk)). }
  destruct (decide (kt_wchan k = NULL)) as [Hw|Hw].
  2: { destruct (kthread_exit_assertion retval s k Hk) as [msg ->]; [by left|].
       simpl. apply (kthread_invariant_store s _ k); [done|done|].
       intros _. by apply queue_invariant_ext. }
  destruct (decide (kt_qlink k = unlinked)) as [Hq|Hq].
  2: { destruct (kthread_exit_assertion retval s k Hk) as [msg ->];
         [by right; left|].
       simpl. apply (kthread_invariant_store s _ k); [done|done|].
       intros _. by apply queue_invariant_ext. }
  destruct (decide (kt_proc k = curproc s)) as [Hp|Hp].
  2: { destruct (kthread_exit_assertion retval s k Hk) as [msg ->];
         [by right; right|].
       simpl. apply (kthread_invariant_store s _ k); [done|done|].
       intros _. by apply queue_invariant_ext. }
  rewrite (kthread_exit_handoff retval s k) by done.
  assert (Hh : kthread_invariant (exit_handoff retval k s)).
  { apply (kthread_invariant_store s _ k); [done|done|].
    intros _ _. by apply queue_invariant_fresh. }
  specialize (Hrely _ Hh).
  by destruct (proc_thread_exited retval (exit_handoff retval k s)).
Qed.

Lemma kthread_cancel_invariant kthr retval s u s' :
  links_wf s → kthread_invariant s →
  kthread_cancel kthr retval s = Returns u s' → kthread_invariant s'.
Proof.
  intros Hwf Hinv E0. pose proof E0 as E. unfold kthread_cancel in E.
  apply bind_Returns_inv in E as (? & ? & Hn & E).
  apply KASSERT_Returns_inv in Hn as [Hn ->].
  apply negb_true_iff, Z.eqb_neq in Hn.
  apply bind_Returns_inv in E as (c & ? & Hc & E).
  apply get_curthr_Returns_inv in Hc as [-> ->].
  destruct (curthr s =? kthr) eqn:Hc.
  { apply bind_Returns_inv in E as (? & ? & E & _).
    apply bind_Returns_inv in E as (? & ? & E & _).
    pose proof (kthread_exit_never_returns retval s) as Hnr.
    by rewrite E in Hnr. }
  apply Z.eqb_neq in Hc.
  apply bind_Returns_inv in E as (? & ? & Hret & E).
  apply ret_Returns_inv in Hret as [-> ->].
  apply bind_Returns_inv in E as (? & ? & Hk & E).
  apply kt_upd_Returns_inv in Hk as (k & Hk & ->).
  destruct (decide (kt_state k = KT_SLEEP_CANCELLABLE)) as [Hst|Hst].
  2: { rewrite (kthread_cancel_plain s kthr retval k) in E0 by done.
       apply Returns_inj in E0 as [_ <-].
       apply (kthread_invariant_store s _ k); [done|done|].
       intros _. by apply queue_invariant_ext. }
  unfold sched_cancel in E.
  apply bind_Returns_inv in E as (? & ? & Hk2 & E).
  apply kt_upd_Returns_inv in Hk2 as (k2 & Hk2 & ->).
  apply bind_Returns_inv in E as (st & ? & Hk3 & E).
  apply kt_get_Returns_inv in Hk3 as (k3 & Hk3 & -> & ->).
  simpl in Hk2, Hk3. rewrite lookup_insert_eq in Hk2, Hk3.
  simplify_eq. simpl in E. rewrite Hst in E.
  apply bind_Returns_inv in E as (? & s3 & Hrm & _).
  apply list_remove_Returns_inv in Hrm as (v & pl & nl & Hv & Hpl & Hnl).
  assert (Hl2 : ∀ y, load_link y
      (with_kt_mem
         (<[kthr:=set_kt_cancelled 1 (set_kt_retval retval k)]>
            (kt_mem (with_kt_mem (<[kthr:=set_kt_retval retval k]> (kt_mem s)) s)))
         (with_kt_mem (<[kthr:=set_kt_retval retval k]> (kt_mem s)) s))
      = load_link y s).
  { intros y. rewrite !kt_store_load_link.
    repeat case_decide; subst; simpl; rewrite ?Hk; done. }
  rewrite Hl2 in Hv, Hpl, Hnl.
  change (kt_qlink <$> kt_mem s !! kthr = Some v) in Hv.
  rewrite Hk in Hv. simpl in Hv. injection Hv as <-.
  assert (Hq : load_link (LQlink kthr) s = Some (kt_qlink k))
    by (simpl; by rewrite Hk).
  assert (Hlinked : linked (kt_qlink k) = true).
  { unfold linked.
    destruct (l_next (kt_qlink k)), (l_prev (kt_qlink k)); simpl in *; done. }
  destruct (Hwf _ _ Hq) as (_ & _ & Hadj). destruct (Hadj Hlinked) as [Hp Hnx].
  destruct Hp as [Hpn _]. destruct Hnx as [_ Hnp].
  rewrite Hpl in Hpn. rewrite Hnl in Hnp. simpl in Hpn, Hnp.
  injection Hpn as Hpn. injection Hnp as Hnp.
  destruct (kthread_cancel_wake s kthr retval k pl nl)
    as (s4 & k4 & _ & Hlo & Hfr & Hk4 & Hbody & Hq4 & Hrun); try done.
  rewrite Hrun in E0. apply Returns_inj in E0 as [_ <-].
  specialize (Hfr Hpn Hnp).
  intros t0 k0' Hk0' Hlive0. simpl in Hk0', Hlive0.
  rewrite (lo_allocator _ _ Hlo) in Hlive0. simpl in Hlive0.
  destruct (decide (t0 = kthr)) as [->|Hne].
  { rewrite lookup_insert_eq in Hk0'. simplify_eq.
    by apply queue_invariant_fresh. }
  rewrite lookup_insert_ne in Hk0' by done.
  destruct (links_only_view _ _ t0 k0' Hlo Hk0') as (k0 & Hk0 & Hst0 & Hw0 & Hq0' & _).
  simpl in Hk0. rewrite lookup_insert_ne in Hk0 by done.
  specialize (Hfr (LQlink t0)). rewrite Hq0' in Hfr.
  simpl in Hfr. rewrite Hk0 in Hfr. simpl in Hfr.
  apply (queue_invariant_ext k0); [|done|done|by apply (Hinv t0)].
  assert (LQlink t0 ≠ LQlink kthr) as Hneq by congruence.
  specialize (Hfr Hneq). congruence.
Qed.

Lemma kthread_clone_invariant s thr t s' :
  kthread_invariant s → thr ∉ kthread_allocator s →
  kthread_clone thr s = Returns t s' → kthread_invariant s'.
Proof.
  intros Hinv Hlive E.
  destruct (kthread_clone_Returns_inv _ _ _ _ E)
    as (S & rest & N & a & b & pool & HS & Hst & Hal & Ht & HN & Hpool & Ha & Hb).
  assert (Hne : thr ≠ t) by (intros ->; apply Hlive; rewrite Hal; set_solver).
  rewrite (kthread_clone_Returns s thr S t rest N a b pool) in E by done.
  injection E as <-. intros t0 k0 Hk0 Hlive0. simpl in *.
  destruct (decide (t0 = t)) as [->|Hne0].
  - rewrite lookup_insert_eq in Hk0. injection Hk0 as <-.
    apply queue_invariant_fresh; [done|]. simpl.
    apply queue_invariant_running; [|done]. by apply (Hinv thr).
  - rewrite lookup_insert_ne in Hk0 by done. apply (Hinv t0); [done|].
    rewrite Hal. set_solver.
Qed.

(** *** create *)

Lemma kthread_create_run s p pr func arg1 arg2 n rest N a pool :
  p ≠ NULL → proc_mem s !! p = Some pr →
  kthread_allocator s = n :: rest → n ≠ NULL → kt_mem s !! n = Some N →
  pg_pool s = a :: pool → a ≠ NULL →
  kthread_create p func arg1 arg2 s =
    bind (list_insert_tail (LThreads p) (LPlink n)) (λ _, ret n)
      (create_linking s n (create_block N p func arg1 arg2 a (p_pagedir pr))
         rest a pool).
Proof.
  intros Hp Hpr Hal Hn HN Hpool Ha. unfold kthread_create.
  rewrite (NULL_eqb_false p Hp). simpl. do 2 kstep.
  rewrite (Z_eqb_NULL_false n Hn). simpl. do 2 kstep.
  rewrite (NULL_eqb_false a Ha). simpl. do 5 kstep.
  rewrite (Z_eqb_NULL_false a Ha). simpl. do 8 kstep.
  reflexivity.
Qed.

Lemma kthread_create_returns_non_null p func arg1 arg2 s t s' :
  kthread_create p func arg1 arg2 s = Returns t s' → t ≠ NULL.
Proof.
  unfold kthread_create. intros E.
  apply bind_Returns_inv in E as (? & s1 & _ & E).
  apply bind_Returns_inv in E as (n & s2 & _ & E).
  apply bind_Returns_inv in E as (? & s3 & Hn & E).
  apply KASSERT_Returns_inv in Hn as [Hn _].
  repeat (apply bind_Returns_inv in E as (? & ? & _ & E)).
  injection E as <- _.
  intros ->. by rewrite Z.eqb_refl in Hn.
Qed.

Lemma kthread_create_exhausted p func arg1 arg2 s :
  kthread_allocator s = [] ∨ pg_pool s = [] →
  is_panic (kthread_create p func arg1 arg2 s) = true.
Proof.
  intros Hex. unfold kthread_create.
  destruct (NULL =? p) eqn:Hp; [done|]. simpl. kstep.
  destruct (kthread_allocator s) as [|n rest] eqn:Hal.
  { rewrite (bind_Returns _ _ _ _ _ (slab_obj_alloc_nil _ Hal)). done. }
  kstep. destruct (n =? NULL) eqn:Hn; [done|]. simpl. kstep.
  destruct Hex as [|Hpool]; [done|].
  erewrite bind_Returns; [|apply alloc_stack_nil; simpl; eassumption]. done.
Qed.

Lemma create_linking_load s n T rest a pool y :
  y ≠ LPlink n → y ≠ LQlink n →
  load_link y (create_linking s n T rest a pool) = load_link y s.
Proof.
  intros H1 H2. destruct y; simpl; try done.
  all: rewrite lookup_insert_ne; [done|congruence].
Qed.

(** C1.  [kthread_create] for a valid process whose thread collection holds
    the threads [ts]: with a free control block [n] and a free stack region
    it returns [n], non-null and taken off the free list, in state KT_RUN,
    not cancelled, with null result, no error, null wait channel and a
    queue link that is on no list, owned by [p] and appended to the thread
    collection of [p], which then holds [ts ++ [n]] and nothing else.
    Whatever it returns is non-null, and when the
    control-block pool or the page pool is exhausted it does not return but
    panics on its assertion. *)
Theorem kthread_create_spec s p func arg1 arg2 ts :
  p ≠ NULL → thread_list s p ts → slab_wf s →
  (∀ t, t ∈ ts → t ∉ kthread_allocator s) →
  (∀ n rest a pool,
     kthread_allocator s = n :: rest → pg_pool s = a :: pool → a ≠ NULL →
     ∃ s' T,
       kthread_create p func arg1 arg2 s = Returns n s' ∧
       n ≠ NULL ∧ kthread_allocator s' = rest ∧ (n ∉ kthread_allocator s') ∧
       kt_mem s' !! n = Some T ∧
       kt_state T = KT_RUN ∧ kt_cancelled T = 0 ∧ kt_retval T = NULL ∧
       kt_errno T = 0 ∧ kt_wchan T = NULL ∧ kt_proc T = p ∧ kt_kstack T = a ∧
       kt_qlink T = unlinked ∧
       (∀ h L, is_list s' h L → LQlink n ∉ L) ∧
       thread_list s' p (ts ++ [n]) ∧
       (∀ ts', thread_list s' p ts' → ts' = ts ++ [n])) ∧
  (∀ t s', kthread_create p func arg1 arg2 s = Returns t s' → t ≠ NULL) ∧
  (kthread_allocator s = [] ∨ pg_pool s = [] →
   is_panic (kthread_create p func arg1 arg2 s) = true).
Proof.
  intros Hp Hts [Hnd Hslab] Hlive. rewrite Forall_forall in Hslab.
  split; [|split].
  2: { intros t s'. apply kthread_create_returns_non_null. }
  2: { apply kthread_create_exhausted. }
  intros n rest a pool Hal Hpool Ha.
  destruct (Hslab n) as [Hn [N HN]]; [rewrite Hal; set_solver|].
  destruct (is_list_head _ _ _ Hts) as (hl & Hhl & Hlast & Hzin).
  assert (∃ pr, proc_mem s !! p = Some pr ∧ p_threads pr = hl) as (pr & Hpr & Hprl).
  { simpl in Hhl. destruct (proc_mem s !! p) as [pr|]; [|done].
    exists pr. by simplify_eq/=. }
  assert (Hnts : n ∉ ts).
  { intros Hin. apply (Hlive n Hin). rewrite Hal. set_solver. }
  assert (Hfresh : ∀ y, y ∈ LThreads p :: (LPlink <$> ts) →
                        y ≠ LPlink n ∧ y ≠ LQlink n).
  { intros y Hy. apply elem_of_cons in Hy as [->|Hy]; [done|].
    apply list_elem_of_fmap in Hy as (t & -> & Ht). split; [|done].
    intros [= ->]. done. }
  rewrite (kthread_create_run s p pr func arg1 arg2 n rest N a pool) by done.
  set (T0 := create_block N p func arg1 arg2 a (p_pagedir pr)).
  set (s1 := create_linking s n T0 rest a pool).
  assert (Hload1 : ∀ y, y ∈ LThreads p :: (LPlink <$> ts) →
                        load_link y s1 = load_link y s).
  { intros y Hy. destruct (Hfresh y Hy). by apply create_linking_load. }
  assert (Hts1 : is_list s1 (LThreads p) (LPlink <$> ts))
    by (by apply (is_list_ext s)).
  assert (Hhl1 : load_link (LThreads p) s1 = Some hl)
    by (rewrite Hload1; [done|set_solver]).
  assert (Hn1 : kt_mem s1 !! n = Some T0) by (simpl; apply lookup_insert_eq).
  assert (Hi1 : load_link (LPlink n) s1 = Some (kt_plink T0))
    by (simpl; by rewrite lookup_insert_eq).
  destruct (is_list_elem_mapped _ _ _ (l_prev hl) Hts1 Hzin) as [pl Hpl].
  destruct (Hfresh _ Hzin) as [Hz1 Hz2].
  destruct (list_insert_before_Returns (LThreads p) (LPlink n) s1 hl
              (kt_plink T0) pl) as (s' & Hrun & Hlo & Hview); try done.
  unfold list_insert_tail. rewrite (bind_Returns _ _ _ _ _ Hrun).
  destruct (links_only_lookup s1 s' n T0 Hlo Hn1) as (T & HT & Hbody & Hq & _).
  assert (Hq' : load_link (LQlink n) s' = Some unlinked).
  { rewrite Hview. rewrite decide_False by done.
    rewrite decide_False by congruence. rewrite decide_False by done.
    simpl. by rewrite lookup_insert_eq. }
  exists s', T. split; [done|]. split; [done|].
  split; [by rewrite (lo_allocator _ _ Hlo)|]. split.
  { rewrite (lo_allocator _ _ Hlo). simpl. rewrite Hal in Hnd.
    by apply NoDup_cons in Hnd as [? _]. }
  split; [done|].
  assert (Hf : ∀ (A : Type) (f : kthread_t → A),
               (∀ k, f (kt_body k) = f k) → f T = f T0).
  { intros A f Hfb. rewrite <- (Hfb T), <- (Hfb T0). by rewrite Hbody. }
  split; [by apply (Hf _ kt_state)|]. split; [by apply (Hf _ kt_cancelled)|].
  split; [by apply (Hf _ kt_retval)|]. split; [by apply (Hf _ kt_errno)|].
  split; [by apply (Hf _ kt_wchan)|]. split; [by apply (Hf _ kt_proc)|].
  split; [by apply (Hf _ kt_kstack)|].
  split; [congruence|]. split.
  { intros h L Hl. eapply unlinked_on_no_list; [exact Hq'|done|exact Hl]. }
  assert (Hl' : thread_list s' p (ts ++ [n])).
  { unfold thread_list. rewrite fmap_app. simpl.
    apply (is_list_insert_tail s1 s' _ _ _ hl pl); try done.
    intros Hin. destruct (Hfresh _ Hin) as [Hbad _]. done. }
  split; [done|]. intros ts' Hts'. by apply (thread_list_unique s' p).
Qed.

Lemma kthread_create_Returns_inv p func arg1 arg2 s t s' :
  kthread_create p func arg1 arg2 s = Returns t s' →
  ∃ pr n rest N a pool,
    p ≠ NULL ∧ proc_mem s !! p = Some pr ∧
    kthread_allocator s = n :: rest ∧ n ≠ NULL ∧ kt_mem s !! n = Some N ∧
    pg_pool s = a :: pool ∧ a ≠ NULL.
Proof.
  unfold kthread_create. intros E.
  kinv E. kinv E; [kinv E; by cbv in E2|].
  kinv E. kinv E; [kinv E; by cbv in E4|].
  kinv E. kinv E. kinv E. knonnull.
  eexists _, _, _, _, _, _. repeat split; done.
Qed.

Lemma kthread_create_invariant p func arg1 arg2 s t s' :
  links_wf s → kthread_invariant s →
  kthread_create p func arg1 arg2 s = Returns t s' → kthread_invariant s'.
Proof.
  intros Hwf Hinv E.
  destruct (kthread_create_Returns_inv _ _ _ _ _ _ _ E)
    as (pr & n & rest & N & a & pool & Hp & Hpr & Hal & Hn & HN & Hpool & Ha).
  rewrite (kthread_create_run s p pr func arg1 arg2 n rest N a pool) in E by done.
  set (T0 := create_block N p func arg1 arg2 a (p_pagedir pr)) in *.
  set (s1 := create_linking s n T0 rest a pool) in *.
  apply bind_Returns_inv in E as (u & s2 & Hins & E).
  apply ret_Returns_inv in E as [-> ->].
  apply list_insert_before_frame in Hins as (hl & Hhl & Hlo & Hframe).
  assert (Hhl0 : load_link (LThreads p) s = Some hl).
  { rewrite <- Hhl. symmetry. by apply create_linking_load. }
  destruct (Hwf _ _ Hhl0) as (_ & Hkind & _).
  intros t0 k0' Hk0' Hlive0. rewrite (lo_allocator _ _ Hlo) in Hlive0.
  destruct (links_only_view s1 s2 t0 k0' Hlo Hk0') as (k0 & Hk0 & Hst & Hw & Hq' & Hq).
  rewrite Hframe in Hq'; [|done|done|].
  2: { intros E. by apply (same_kind_proc_not_qlink (LThreads p) _ t0) in Hkind. }
  assert (Hqq : kt_qlink k0' = kt_qlink k0) by congruence.
  apply (queue_invariant_ext k0); [by rewrite Hqq|done|done|].
  simpl in Hk0, Hlive0. destruct (decide (t0 = n)) as [->|Hne].
  - rewrite lookup_insert_eq in Hk0. injection Hk0 as <-.
    by apply queue_invariant_fresh.
  - rewrite lookup_insert_ne in Hk0 by done. apply (Hinv t0); [done|].
    rewrite Hal. set_solver.
Qed.

(** *** destroy *)

Lemma kthread_destroy_Returns s t k :
  t ≠ NULL → kt_mem s !! t = Some k → kt_kstack k ≠ NULL →
  (linked (kt_plink k) = true →
   is_Some (load_link (l_prev (kt_plink k)) s) ∧
   is_Some (load_link (l_next (kt_plink k)) s)) →
  ∃ s',
    kthread_destroy t s = Returns () s' ∧
    curthr s' = curthr s ∧ curproc s' = curproc s ∧
    kthread_allocator s' = t :: kthread_allocator s ∧
    pg_used s' = delete (kt_kstack k) (pg_used s) ∧
    pg_pool s' = kt_kstack k :: pg_pool s ∧
    pg_log s' = pg_log s ++ [PageFree (kt_kstack k) stack_npages] ∧
    (∀ t', kt_body <$> kt_mem s' !! t' = kt_body <$> kt_mem s !! t') ∧
    (∀ p, p_pagedir <$> proc_mem s' !! p = p_pagedir <$> proc_mem s !! p) ∧
    (linked (kt_plink k) = false →
     (kt_mem s' = kt_mem s ∧ proc_mem s' = proc_mem s ∧ queue_mem s' = queue_mem s)) ∧
    (∀ y, y ≠ LPlink t → y ≠ l_prev (kt_plink k) → y ≠ l_next (kt_plink k) →
          load_link y s' = load_link y s) ∧
    (∃ v, load_link (LPlink t) s' = Some v ∧ linked v = false).
Proof.
  intros Ht Hk Hks Hnb. unfold kthread_destroy.
  rewrite (Z_eqb_NULL_false t Ht), bind_assoc. kstep.
  rewrite (Z_eqb_NULL_false _ Hks). simpl. do 3 kstep.
  unfold free_stack, page_free_n. fold stack_npages. knorm.
  set (s1 := mk_kstate _ _ _ _ _ _ _ _ _).
  assert (Hl1 : ∀ y, load_link y s1 = load_link y s).
  { intros y. by destruct y. }
  assert (Hp1 : load_link (LPlink t) s1 = Some (kt_plink k))
    by (rewrite Hl1; simpl; by rewrite Hk).
  rewrite (bind_Returns _ _ _ _ _ (list_link_is_linked_Some _ _ _ Hp1)).
  destruct (linked (kt_plink k)) eqn:Hlinked.
  - destruct Hnb as [[pl Hpl] [nl Hnl]]; [done|].
    rewrite <- Hl1 in Hpl, Hnl.
    destruct (list_remove_Returns _ _ _ pl nl Hp1 Hpl Hnl)
      as (s2 & Hrun & Hlo & Hview).
    rewrite (bind_Returns _ _ _ _ _ Hrun). unfold slab_obj_free.
    eexists. split; [done|]. destruct Hlo. simpl in *.
    repeat split; try done; try congruence.
    + intros y Hy1 Hy2 Hy3.
      transitivity (load_link y s2); [by destruct y|].
      rewrite Hview, !decide_False by done. apply Hl1.
    + exists unlinked. specialize (Hview (LPlink t)).
      by rewrite decide_True in Hview.
  - rewrite (bind_Returns _ _ _ _ _ (eq_refl : ret () s1 = Returns () s1)).
    unfold slab_obj_free. eexists. split; [done|]. simpl.
    repeat split; try done.
    exists (kt_plink k). by rewrite Hk.
Qed.

Lemma kthread_destroy_Returns_inv t s u s' :
  kthread_destroy t s = Returns u s' →
  ∃ k, t ≠ NULL ∧ kt_mem s !! t = Some k ∧ kt_kstack k ≠ NULL ∧
    (linked (kt_plink k) = true →
     is_Some (load_link (l_prev (kt_plink k)) s) ∧
     is_Some (load_link (l_next (kt_plink k)) s)).
Proof.
  unfold kthread_destroy. intros E.
  destruct (t =? NULL) eqn:Ht; [by kinv E|]. apply Z.eqb_neq in Ht.
  rewrite bind_assoc in E.
  apply bind_Returns_inv in E as (? & ? & Hk & E).
  apply kt_get_Returns_inv in Hk as (k & Hk & -> & ->).
  apply bind_Returns_inv in E as (? & ? & Hks & E).
  apply KASSERT_Returns_inv in Hks as [Hks ->].
  apply negb_true_iff, Z.eqb_neq in Hks.
  apply bind_Returns_inv in E as (? & ? & Hk' & E).
  apply kt_get_Returns_inv in Hk' as (k' & Hk' & -> & ->).
  assert (k' = k) as -> by congruence.
  apply bind_Returns_inv in E as (? & s1 & Hfree & E).
  rewrite free_stack_Returns in Hfree. simplify_eq.
  unfold list_link_is_linked in E. rewrite bind_assoc in E.
  apply bind_Returns_inv in E as (v & ? & Hv & E).
  apply link_get_Returns_inv in Hv as [Hv ->].
  change (kt_plink <$> kt_mem s !! t = Some v) in Hv.
  rewrite Hk in Hv. injection Hv as <-.
  apply bind_Returns_inv in E as (? & ? & Hret & E).
  apply ret_Returns_inv in Hret as [-> ->].
  exists k. split; [done|]. split; [done|]. split; [done|]. intros Hl.
  rewrite Hl in E. apply bind_Returns_inv in E as (? & s2 & Hrm & _).
  apply list_remove_Returns_inv in Hrm as (v & pl & nl & Hv & Hpl & Hnl).
  change (kt_plink <$> kt_mem s !! t = Some v) in Hv.
  rewrite Hk in Hv. injection Hv as <-.
  split; [exists pl|exists nl].
  - rewrite <- Hpl. by destruct (l_prev (kt_plink k)).
  - rewrite <- Hnl. by destruct (l_next (kt_plink k)).
Qed.

Lemma kthread_destroy_invariant t s u s' :
  links_wf s → kthread_invariant s →
  kthread_destroy t s = Returns u s' → kthread_invariant s'.
Proof.
  intros Hwf Hinv E.
  destruct (kthread_destroy_Returns_inv _ _ _ _ E) as (k & Ht & Hk & Hks & Hnb).
  destruct (kthread_destroy_Returns s t k Ht Hk Hks Hnb)
    as (s'' & Hrun & _ & _ & Hal & _ & _ & _ & Hbody & _ & _ & Hframe & _).
  rewrite Hrun in E. apply Returns_inj in E as [_ <-].
  assert (Hpl : load_link (LPlink t) s = Some (kt_plink k))
    by (simpl; by rewrite Hk).
  destruct (Hwf _ _ Hpl) as (Hkn & Hkp & _).
  intros t0 k0' Hk0' Hlive0. rewrite Hal in Hlive0.
  pose proof (Hbody t0) as Hb. rewrite Hk0' in Hb.
  destruct (kt_mem s !! t0) as [k0|] eqn:Hk0; [|done].
  assert (Hb' : kt_body k0' = kt_body k0) by (simpl in Hb; congruence).
  assert (Hq : load_link (LQlink t0) s'' = load_link (LQlink t0) s).
  { apply Hframe; [done| |].
    - intros E. by apply (same_kind_proc_not_qlink (LPlink t) _ t0) in Hkp.
    - intros E. by apply (same_kind_proc_not_qlink (LPlink t) _ t0) in Hkn. }
  simpl in Hq. rewrite Hk0', Hk0 in Hq. injection Hq as Hq.
  apply (queue_invariant_ext k0); [by rewrite Hq| | |].
  - by apply (f_equal kt_state) in Hb'.
  - by apply (f_equal kt_wchan) in Hb'.
  - apply (Hinv t0); [done|]. set_solver.
Qed.

Lemma kthread_destroy_assertion_fails s t :
  t = NULL ∨ (∃ k, kt_mem s !! t = Some k ∧ kt_kstack k = NULL) →
  kthread_destroy t s = Panics "t && t->kt_kstack" s.
Proof.
  intros [->|(k & Hk & Hks)]; [done|]. unfold kthread_destroy.
  destruct (t =? NULL) eqn:Ht; [done|]. rewrite bind_assoc. kstep.
  by rewrite Hks.
Qed.

(** C7, as the code has it.  The assertion of [kthread_destroy] rejects a
    null control block and a null stack field, nothing else.  Destroying
    does not clear [kt_kstack], so a second [kthread_destroy] of the same
    control block passes the assertion and hands the same stack region to
    the page allocator once more; the control block is put on the free
    list twice. *)
Theorem kthread_destroy_twice s t k :
  kt_mem s !! t = Some k →
  (t = NULL ∨ kt_kstack k = NULL →
   kthread_destroy t s = Panics "t && t->kt_kstack" s) ∧
  (t ≠ NULL → kt_kstack k ≠ NULL →
   (linked (kt_plink k) = true →
    is_Some (load_link (l_prev (kt_plink k)) s) ∧
    is_Some (load_link (l_next (kt_plink k)) s)) →
   ∃ s1 s2 k1,
     kthread_destroy t s = Returns () s1 ∧
     kt_mem s1 !! t = Some k1 ∧ kt_kstack k1 = kt_kstack k ∧
     kthread_destroy t s1 = Returns () s2 ∧
     pg_log s2 =
       pg_log s ++ [PageFree (kt_kstack k) stack_npages;
                    PageFree (kt_kstack k) stack_npages] ∧
     pg_pool s2 = kt_kstack k :: kt_kstack k :: pg_pool s ∧
     kthread_allocator s2 = t :: t :: kthread_allocator s).
Proof.
  intros Hk. split.
  { intros Hbad. apply kthread_destroy_assertion_fails.
    destruct Hbad as [?|?]; [by left|right; eauto]. }
  intros Ht Hks Hnb.
  destruct (kthread_destroy_Returns s t k Ht Hk Hks Hnb)
    as (s1 & Hrun1 & _ & _ & Hal1 & _ & Hpool1 & Hlog1 & Hbody1 & _ & _ & _ & Hpl1).
  pose proof (Hbody1 t) as Hb. rewrite Hk in Hb.
  destruct (kt_mem s1 !! t) as [k1|] eqn:Hk1; [|done].
  assert (Hb' : kt_body k1 = kt_body k) by (simpl in Hb; congruence).
  assert (Hks1 : kt_kstack k1 = kt_kstack k)
    by (by apply (f_equal kt_kstack) in Hb').
  destruct Hpl1 as (v & Hv & Hunl). simpl in Hv. rewrite Hk1 in Hv.
  injection Hv as <-.
  destruct (kthread_destroy_Returns s1 t k1)
    as (s2 & Hrun2 & _ & _ & Hal2 & _ & Hpool2 & Hlog2 & _);
    [done|done|congruence|by rewrite Hunl|].
  exists s1, s2, k1. split; [done|]. split; [done|]. split; [done|].
  split; [done|]. split.
  { rewrite Hlog2, Hlog1, Hks1, <- app_assoc. done. }
  split; [by rewrite Hpool2, Hpool1, Hks1|]. by rewrite Hal2, Hal1.
Qed.

(** C10, as the code has it.  [kthread_clone] allocates two distinct
    regions: the first is bound to [c_kstack] of the new context, the second
    stored in [kt_kstack].  [kthread_destroy] of any control block makes one
    call of the page allocator, freeing the region in [kt_kstack], and every
    other region stays as it was.  Besides that it takes the block off its
    thread collection when it is linked, which rewrites the collection link
    of the block and of its two neighbours, and puts the block on the free
    list of the slab.  No other field of any control block changes, and with
    an unlinked block no memory changes at all.  So after destroying a fresh
    clone the region bound to its context is still allocated. *)
Theorem kthread_clone_destroy_stacks :
  (∀ s t k,
     t ≠ NULL → kt_mem s !! t = Some k → kt_kstack k ≠ NULL →
     (linked (kt_plink k) = true →
      is_Some (load_link (l_prev (kt_plink k)) s) ∧
      is_Some (load_link (l_next (kt_plink k)) s)) →
     ∃ s',
       kthread_destroy t s = Returns () s' ∧
       pg_log s' = pg_log s ++ [PageFree (kt_kstack k) stack_npages] ∧
       pg_used s' = delete (kt_kstack k) (pg_used s) ∧
       (∀ r, r ≠ kt_kstack k → pg_used s' !! r = pg_used s !! r) ∧
       kthread_allocator s' = t :: kthread_allocator s ∧
       (∃ v, load_link (LPlink t) s' = Some v ∧ linked v = false) ∧
       (∀ t', kt_body <$> kt_mem s' !! t' = kt_body <$> kt_mem s !! t') ∧
       (∀ p, p_pagedir <$> proc_mem s' !! p = p_pagedir <$> proc_mem s !! p) ∧
       (∀ y, y ≠ LPlink t → y ≠ l_prev (kt_plink k) → y ≠ l_next (kt_plink k) →
             load_link y s' = load_link y s) ∧
       (linked (kt_plink k) = false →
        (kt_mem s' = kt_mem s ∧ proc_mem s' = proc_mem s ∧
         queue_mem s' = queue_mem s))) ∧
  (∀ s thr S n rest a b pool,
     slab_wf s → pages_wf s →
     kt_mem s !! thr = Some S → kt_state S = KT_RUN →
     thr ∉ kthread_allocator s →
     kthread_allocator s = n :: rest → pg_pool s = a :: b :: pool →
     ∃ s1 T s2,
       kthread_clone thr s = Returns n s1 ∧ kt_mem s1 !! n = Some T ∧
       c_kstack (kt_ctx T) = a ∧ kt_kstack T = b ∧ a ≠ b ∧
       pg_log s1 =
         pg_log s ++ [PageAlloc stack_npages a; PageAlloc stack_npages b] ∧
       pg_used s1 !! a = Some stack_npages ∧
       pg_used s1 !! b = Some stack_npages ∧
       kthread_destroy n s1 = Returns () s2 ∧
       pg_log s2 = pg_log s1 ++ [PageFree b stack_npages] ∧
       pg_used s2 !! b = None ∧
       pg_used s2 !! a = Some stack_npages ∧
       kt_mem s2 = kt_mem s1).
Proof.
  split.
  - intros s t k Ht Hk Hks Hnb.
    destruct (kthread_destroy_Returns s t k Ht Hk Hks Hnb)
      as (s' & Hrun & _ & _ & Hal & Hused & _ & Hlog & Hbody & Hpd & Hun & Hfr & Hpl).
    exists s'. split; [done|]. split; [done|]. split; [done|]. split.
    { intros r Hr. rewrite Hused. by apply lookup_delete_ne. }
    done.
  - intros s thr S n rest a b pool [Hnd Hslab] [Hpnd Hpages] HS Hst Hlive Hal Hpool.
    rewrite Forall_forall in Hslab, Hpages.
    destruct (Hslab n) as [Hn [N HN]]; [rewrite Hal; set_solver|].
    destruct (Hpages a) as [Ha Hafree]; [rewrite Hpool; set_solver|].
    destruct (Hpages b) as [Hb Hbfree]; [rewrite Hpool; set_solver|].
    assert (Hne : thr ≠ n) by (intros ->; apply Hlive; rewrite Hal; set_solver).
    assert (Hab : a ≠ b).
    { rewrite Hpool in Hpnd. apply NoDup_cons in Hpnd as [Hin _]. set_solver. }
    set (T := clone_block S N a b).
    set (s1 := clone_state s n T rest a b pool).
    assert (HT : kt_mem s1 !! n = Some T) by (simpl; apply lookup_insert_eq).
    destruct (kthread_destroy_Returns s1 n T) as
      (s2 & Hrun & _ & _ & _ & Hused & _ & Hlog & _ & _ & Hun & _);
      [done|done|simpl; unfold NULL; lia|done|].
    exists s1, T, s2.
    split; [apply kthread_clone_Returns; try done; unfold NULL; lia|].
    split; [done|]. split; [by apply cast_uint32_small|].
    split; [done|]. split; [done|]. split; [done|].
    split; [simpl; by rewrite lookup_insert_ne, lookup_insert_eq|].
    split; [simpl; by rewrite lookup_insert_eq|].
    split; [done|]. split; [done|].
    split; [rewrite Hused; apply lookup_delete_eq|].
    split.
    { rewrite Hused. simpl. rewrite lookup_delete_ne by done.
      by rewrite lookup_insert_ne, lookup_insert_eq. }
    by destruct Hun.
Qed.

(** *** The invariant across the five operations *)

(** C8.  The queue-membership invariant (a live control block's queue link
    is linked iff its state is sleeping and its wait channel non-null, and
    its wait channel is null unless it sleeps) holds after every operation
    of kthread.c that it held before: after [kthread_create],
    [kthread_clone], [kthread_destroy] and [kthread_cancel] whenever they
    return, and in the state [kthread_exit] (or a cancel of the calling
    thread) ends in, given that the thread-exited notification of the
    process layer keeps it.  Links in memory are assumed well-formed where
    an operation walks them, and the thread cloned is assumed live. *)
Theorem kthread_invariant_preserved :
  (∀ p func arg1 arg2 s t s',
     links_wf s → kthread_invariant s →
     kthread_create p func arg1 arg2 s = Returns t s' → kthread_invariant s') ∧
  (∀ thr s t s',
     kthread_invariant s → thr ∉ kthread_allocator s →
     kthread_clone thr s = Returns t s' → kthread_invariant s') ∧
  (∀ t s u s',
     links_wf s → kthread_invariant s →
     kthread_destroy t s = Returns u s' → kthread_invariant s') ∧
  (∀ kthr retval s u s',
     links_wf s → kthread_invariant s →
     kthread_cancel kthr retval s = Returns u s' → kthread_invariant s') ∧
  (∀ retval s,
     kthread_invariant s →
     (∀ s0, kthread_invariant s0 →
            kthread_invariant (final_state (proc_thread_exited retval s0))) →
     kthread_invariant (final_state (kthread_exit retval s)) ∧
     (curthr s ≠ NULL →
      kthread_invariant (final_state (kthread_cancel (curthr s) retval s)))) ∧
  (∀ s t k,
     kthread_invariant s → kt_mem s !! t = Some k → t ∉ kthread_allocator s →
     (linked (kt_qlink k) = true ↔
      sleeping (kt_state k) = true ∧ kt_wchan k ≠ NULL) ∧
     (sleeping (kt_state k) = false → kt_wchan k = NULL)).
Proof.
  split; [|split; [|split; [|split; [|split]]]].
  - intros p func arg1 arg2 s t s'. apply kthread_create_invariant.
  - intros thr s t s'. apply kthread_clone_invariant.
  - intros t s u s'. apply kthread_destroy_invariant.
  - intros kthr retval s u s'. apply kthread_cancel_invariant.
  - intros retval s Hinv Hrely. split; [by apply kthread_exit_invariant|].
    intros Hc. rewrite kthread_cancel_self by done.
    by apply kthread_exit_invariant.
  - intros s t k Hinv Hk Hlive. destruct (Hinv t k Hk Hlive) as [Hq Hw].
    split; [done|]. intros Hs.
    destruct (decide (kt_wchan k = NULL)) as [|Hne]; [done|].
    specialize (Hw Hne). congruence.
Qed.

End Properties.

(** ** More on lists as chains of links *)

(** Two chains that leave the same link run together: the end of one lies
    on the other. *)
Lemma path_meet s a P P' z z' :
  path s a (P ++ [z]) → path s a (P' ++ [z']) → z ∉ P' → z ≠ z' → z' ∈ P.
Proof.
  revert a P'. induction P as [|b P IH]; intros a P' Hp Hp' Hz Hzz.
  - destruct Hp as [[Hn _] _]. destruct P' as [|b' P'].
    + destruct Hp' as [[Hn' _] _]. rewrite Hn in Hn'. by injection Hn' as ->.
    + destruct Hp' as [[Hn' _] _]. rewrite Hn in Hn'. injection Hn' as ->.
      set_solver.
  - destruct Hp as [[Hn _] Hp]. destruct P' as [|b' P'].
    + destruct Hp' as [[Hn' _] _]. rewrite Hn in Hn'. injection Hn' as ->.
      set_solver.
    + destruct Hp' as [[Hn' _] Hp']. rewrite Hn in Hn'. injection Hn' as <-.
      apply elem_of_cons. right. apply (IH b P'); [done|done|set_solver|done].
Qed.

(** Lists with different heads, neither head on the other list, share no
    link. *)
Lemma is_list_disjoint s h L h' L' x :
  is_list s h L → is_list s h' L' → h ≠ h' → h ∉ L' → h' ∉ L →
  x ∈ L → x ∉ L'.
Proof.
  intros [Hnd Hp] [Hnd' Hp'] Hne Hh Hh' Hx Hx'.
  apply list_elem_of_split in Hx as (A & S & ->).
  apply list_elem_of_split in Hx' as (A' & S' & ->).
  rewrite <- app_assoc in Hp, Hp'.
  apply path_app in Hp as [_ [_ Hp]]. apply path_app in Hp' as [_ [_ Hp']].
  apply Hh'. assert (h' ∈ S); [|set_solver].
  apply (path_meet s x S S' h h'); [done|done|set_solver|done].
Qed.

Lemma thread_list_disjoint s p q ts qs t :
  thread_list s p ts → thread_list s q qs → p ≠ q → t ∈ ts → t ∉ qs.
Proof.
  intros Hp Hq Hne Ht Hin.
  apply (is_list_disjoint s (LThreads p) (LPlink <$> ts)
           (LThreads q) (LPlink <$> qs) (LPlink t)); try done.
  - congruence.
  - intros (y & ? & _)%list_elem_of_fmap. done.
  - intros (y & ? & _)%list_elem_of_fmap. done.
  - by apply list_elem_of_fmap_2.
  - by apply list_elem_of_fmap_2.
Qed.

(** Removing a link from a list leaves the list without it, the other
    links in their order. *)
Lemma is_list_remove s s' h L1 x L2 v pl nl :
  is_list s h (L1 ++ x :: L2) →
  load_link x s = Some v →
  load_link (l_prev v) s = Some pl → load_link (l_next v) s = Some nl →
  (∀ y, load_link y s' =
      if decide (y = x) then Some unlinked
      else if decide (y = l_next v) then
        Some (mk_link (if decide (l_prev v = l_next v) then l_next v else l_next nl)
                (l_prev v))
      else if decide (y = l_prev v) then Some (mk_link (l_next v) (l_prev pl))
      else load_link y s) →
  is_list s' h (L1 ++ L2).
Proof.
  intros [Hnd Hp] Hv Hpl Hnl Hview.
  apply NoDup_cons in Hnd as [Hh Hnd].
  apply NoDup_app in Hnd as (Hnd1 & Hdis & Hnd2).
  apply NoDup_cons in Hnd2 as [Hx2 Hnd2].
  assert (Hh1 : h ∉ L1) by set_solver.
  assert (Hh2 : h ∉ L2) by set_solver.
  assert (Hhx : h ≠ x) by set_solver.
  assert (Hx1 : x ∉ L1) by set_solver.
  assert (H12 : ∀ y, y ∈ L1 → y ∉ L2) by set_solver.
  rewrite <- app_assoc in Hp. apply path_app in Hp as [Hp1 Hp].
  remember (List.last L1 h) as a eqn:Ea.
  assert (Ha : a ∈ h :: L1) by (rewrite Ea; apply last_elem_of).
  assert (Hax : a ≠ x) by set_solver.
  destruct Hp as [[Han Hxp] Hp]. rewrite Hv in Hxp. simpl in Hxp.
  injection Hxp as Hprev.
  split.
  { apply NoDup_cons. split; [set_solver|].
    apply NoDup_app. split; [done|]. split; [set_solver|done]. }
  assert (Hpath1 : ∀ b, l_next v = b → b ∈ L2 ++ [h] →
                        path s' h L1).
  { intros b Hb Hbin. apply (path_frame s); [by apply NoDup_cons|done| |].
    - rewrite <- Ea. intros c Hc Hne. rewrite Hview.
      rewrite decide_False by set_solver.
      destruct (decide (c = l_next v)) as [->|Hcn].
      + rewrite Hprev. rewrite decide_False by (rewrite Hb in Hne |- *; congruence).
        by rewrite Hnl.
      + rewrite decide_False; [done|]. by rewrite Hprev.
    - intros d Hd. rewrite Hview. rewrite decide_False by set_solver.
      rewrite decide_False by (rewrite Hb; set_solver).
      destruct (decide (d = l_prev v)) as [->|Hdp]; [|done].
      by rewrite Hpl. }
  destruct L2 as [|b L2].
  - destruct Hp as [[Hxn Hhp] _]. rewrite Hv in Hxn. simpl in Hxn.
    injection Hxn as Hnext. rewrite app_nil_r. apply path_app. rewrite <- Ea.
    split; [apply (Hpath1 h); set_solver|].
    simpl. split; [|done]. split.
    + rewrite Hview. rewrite decide_False by done. rewrite Hnext, Hprev.
      destruct (decide (a = h)) as [Hah|Hah]; [done|].
      by rewrite decide_True.
    + rewrite Hview. rewrite decide_False by done. rewrite Hnext.
      rewrite decide_True by done. simpl. by rewrite Hprev.
  - destruct Hp as [[Hxn Hbp] Hp]. rewrite Hv in Hxn. simpl in Hxn.
    injection Hxn as Hnext. apply NoDup_cons in Hnd2 as [Hb2 Hnd2].
    assert (Hbh : b ≠ h) by set_solver.
    assert (Hbx : b ≠ x) by set_solver.
    assert (Hab : a ≠ b).
    { intros ->. apply elem_of_cons in Ha as [->|Ha]; [done|].
      apply (H12 _ Ha). set_solver. }
    rewrite <- app_assoc. apply path_app. rewrite <- Ea.
    split; [apply (Hpath1 b); set_solver|].
    change ((b :: L2) ++ [h]) with (b :: (L2 ++ [h])).
    split; [split|].
    + rewrite Hview. rewrite decide_False by done. rewrite Hnext, Hprev.
      rewrite decide_False by done. by rewrite decide_True.
    + rewrite Hview. rewrite decide_False by done. rewrite Hnext.
      rewrite decide_True by done. simpl. by rewrite Hprev.
    + apply (path_frame s); [|done| |].
      * apply NoDup_cons. split; [set_solver|].
        apply NoDup_app. split; [done|]. split; [set_solver|apply NoDup_singleton].
      * rewrite List.last_last. intros c Hc Hne. rewrite Hview.
        rewrite decide_False by set_solver. rewrite Hnext, Hprev.
        destruct (decide (c = b)) as [->|Hcb].
        { rewrite decide_False by done. by rewrite <- Hnext, Hnl. }
        rewrite decide_False; [done|]. set_solver.
      * intros d Hd. rewrite Hview.
        rewrite decide_False by set_solver. rewrite Hnext, Hprev.
        rewrite decide_False by set_solver.
        destruct (decide (d = a)) as [->|Hda]; [|done].
        by rewrite <- Hprev, Hpl.
Qed.

(** A link on a list has both neighbours in memory: the one before it on
    the list or at its head, the one after it on the list or at its head. *)
Lemma is_list_neighbours s h L1 x L2 :
  is_list s h (L1 ++ x :: L2) →
  ∃ v pl nl,
    load_link x s = Some v ∧
    load_link (l_prev v) s = Some pl ∧ load_link (l_next v) s = Some nl ∧
    l_prev v ∈ h :: L1 ∧ l_next v ∈ L2 ++ [h] ∧ linked v = true.
Proof.
  intros Hl. pose proof Hl as [Hnd Hp].
  rewrite <- app_assoc in Hp. apply path_app in Hp as [_ Hp].
  destruct Hp as [[_ Hxp] Hp].
  destruct (load_link x s) as [v|] eqn:Hv; [|done].
  simpl in Hxp. injection Hxp as Hprev.
  assert (Hpin : l_prev v ∈ h :: L1) by (rewrite Hprev; apply last_elem_of).
  assert (Hnin : l_next v ∈ L2 ++ [h]).
  { destruct L2 as [|b L2]; destruct Hp as [[Hxn _] _];
      rewrite Hv in Hxn; simpl in Hxn; injection Hxn as ->; set_solver. }
  destruct (is_list_elem_mapped s h _ (l_prev v) Hl) as [pl Hpl]; [set_solver|].
  destruct (is_list_elem_mapped s h _ (l_next v) Hl) as [nl Hnl]; [set_solver|].
  exists v, pl, nl. repeat split; try done.
  unfold linked. destruct (l_next v), (l_prev v); done.
Qed.

(** Links of the thread collections of two processes differ. *)
Lemma thread_list_apart s p q ts qs y z :
  thread_list s p ts → thread_list s q qs → p ≠ q →
  y ∈ LThreads p :: (LPlink <$> ts) → z ∈ LThreads q :: (LPlink <$> qs) → y ≠ z.
Proof.
  intros Hp Hq Hne Hy Hz ->.
  apply elem_of_cons in Hy as [->|Hy]; apply elem_of_cons in Hz as [Hz|Hz].
  - congruence.
  - apply list_elem_of_fmap in Hz as (? & ? & _). done.
  - subst z. apply list_elem_of_fmap in Hy as (? & ? & _). done.
  - apply list_elem_of_fmap in Hy as (t & -> & Ht).
    apply list_elem_of_fmap in Hz as (t' & [= <-] & Ht').
    by apply (thread_list_disjoint s p q ts qs t).
Qed.

(** The last link of a list points forward to the head. *)
Lemma is_list_tail_next s h L hl pl :
  is_list s h L → load_link h s = Some hl → load_link (l_prev hl) s = Some pl →
  l_next pl = h.
Proof.
  intros [_ Hp] Hh Hpl. apply path_app in Hp as [_ [[Hn Hz] _]].
  rewrite Hh in Hz. simpl in Hz. injection Hz as Hz.
  rewrite <- Hz, Hpl in Hn. simpl in Hn. by injection Hn.
Qed.

Lemma list_link_eta (l : list_link_t) : mk_link (l_next l) (l_prev l) = l.
Proof. by destruct l. Qed.

Lemma kt_body_eq k k' :
  kt_body k' = kt_body k → kt_qlink k' = kt_qlink k → kt_plink k' = kt_plink k →
  k' = k.
Proof.
  destruct k, k'. unfold kt_body, set_kt_qlink, set_kt_plink. simpl.
  intros [= -> -> -> -> -> -> -> ->] -> ->. done.
Qed.

(** ** The memory invariant under allocation and release *)

Lemma kt_body_lookup (m m' : gmap Z kthread_t) t k' :
  kt_body <$> m' !! t = kt_body <$> m !! t → m' !! t = Some k' →
  ∃ k, m !! t = Some k ∧ kt_body k' = kt_body k.
Proof.
  intros Hb Hk'. rewrite Hk' in Hb. destruct (m !! t) as [k|]; [|done].
  exists k. split; [done|]. simpl in Hb. congruence.
Qed.

Lemma kt_body_kstack k k' : kt_body k' = kt_body k → kt_kstack k' = kt_kstack k.
Proof. intros E. by apply (f_equal kt_kstack) in E. Qed.

Lemma memory_invariant_alloc s s' t T front :
  memory_invariant s →
  kthread_allocator s = t :: kthread_allocator s' →
  pg_pool s = front ++ pg_pool s' →
  (∀ r, r ∈ front → is_Some (pg_used s' !! r)) →
  (∀ r, r ∉ front → pg_used s' !! r = pg_used s !! r) →
  (∀ t', t' ≠ t → kt_body <$> kt_mem s' !! t' = kt_body <$> kt_mem s !! t') →
  kt_mem s' !! t = Some T → kt_kstack T ∈ front →
  memory_invariant s'.
Proof.
  intros ([Hnd Hslab] & [Hpnd Hpages] & Hrange & Hown & Hdist)
    Hal Hpool Hnew Hold Hbody HT Hks.
  rewrite Forall_forall in Hslab, Hpages.
  rewrite Hal in Hnd. apply NoDup_cons in Hnd as [Ht Hnd].
  rewrite Hpool in Hpnd. apply NoDup_app in Hpnd as (_ & Hfd & Hpnd).
  assert (Hlive : ∀ t' k', t' ≠ t → kt_mem s' !! t' = Some k' →
                    ∃ k, kt_mem s !! t' = Some k ∧ kt_kstack k = kt_kstack k').
  { intros t' k' Hne Hk'.
    destruct (kt_body_lookup _ _ _ _ (Hbody t' Hne) Hk') as (k & Hk & Hb).
    exists k. split; [done|]. symmetry. by apply kt_body_kstack. }
  assert (Hused : ∀ r, is_Some (pg_used s !! r) → r ∉ front).
  { intros r [np Hr] Hin. destruct (Hpages r) as [_ Hfree];
      [rewrite Hpool; set_solver|]. congruence. }
  split; [|split; [|split; [|split]]].
  - split; [done|]. apply Forall_forall. intros x Hx.
    destruct (Hslab x) as [Hx0 Hxm]; [rewrite Hal; set_solver|].
    split; [done|]. assert (Hne : x ≠ t) by (intros ->; done).
    pose proof (Hbody x Hne) as Hb. destruct Hxm as [k Hk]. rewrite Hk in Hb.
    destruct (kt_mem s' !! x); [eauto|done].
  - split; [done|]. apply Forall_forall. intros x Hx.
    destruct (Hpages x) as [Hx0 Hxf]; [rewrite Hpool; set_solver|].
    split; [done|]. rewrite Hold; [done|]. intros Hin. by apply (Hfd x).
  - intros r np Hr. destruct (decide (r ∈ front)) as [Hin|Hin].
    + destruct (Hpages r) as [Hr0 _]; [rewrite Hpool; set_solver|]. done.
    + rewrite Hold in Hr by done. by apply (Hrange r np).
  - intros t' k' Hk' Hl'. destruct (decide (t' = t)) as [->|Hne].
    + rewrite HT in Hk'. injection Hk' as <-. by apply Hnew.
    + destruct (Hlive t' k' Hne Hk') as (k & Hk & Hkk).
      assert (Hu : is_Some (pg_used s !! kt_kstack k)).
      { apply (Hown t'); [done|]. rewrite Hal. set_solver. }
      rewrite <- Hkk. rewrite Hold; [done|]. by apply Hused.
  - intros t1 k1 Hk1 Hl1 t2 k2 Hk2 Hl2 Heq.
    destruct (decide (t1 = t)) as [->|Hne1], (decide (t2 = t)) as [->|Hne2];
      [done| | |].
    + rewrite HT in Hk1. injection Hk1 as <-.
      destruct (Hlive t2 k2 Hne2 Hk2) as (k & Hk & Hkk). exfalso.
      apply (Hused (kt_kstack k)); [|congruence].
      apply (Hown t2); [done|]. rewrite Hal. set_solver.
    + rewrite HT in Hk2. injection Hk2 as <-.
      destruct (Hlive t1 k1 Hne1 Hk1) as (k & Hk & Hkk). exfalso.
      apply (Hused (kt_kstack k)); [|congruence].
      apply (Hown t1); [done|]. rewrite Hal. set_solver.
    + destruct (Hlive t1 k1 Hne1 Hk1) as (k & Hk & Hkk).
      destruct (Hlive t2 k2 Hne2 Hk2) as (k' & Hk' & Hkk').
      assert (H1 : t1 ∉ kthread_allocator s) by (rewrite Hal; set_solver).
      assert (H2 : t2 ∉ kthread_allocator s) by (rewrite Hal; set_solver).
      apply (Hdist t1 k Hk H1 t2 k' Hk' H2). congruence.
Qed.

Lemma memory_invariant_free s s' t k :
  memory_invariant s →
  t ≠ NULL → kt_mem s !! t = Some k → t ∉ kthread_allocator s →
  kthread_allocator s' = t :: kthread_allocator s →
  pg_pool s' = kt_kstack k :: pg_pool s →
  pg_used s' = delete (kt_kstack k) (pg_used s) →
  (∀ t', kt_body <$> kt_mem s' !! t' = kt_body <$> kt_mem s !! t') →
  memory_invariant s'.
Proof.
  intros ([Hnd Hslab] & [Hpnd Hpages] & Hrange & Hown & Hdist)
    Ht Hk Hlive Hal Hpool Hused Hbody.
  rewrite Forall_forall in Hslab, Hpages.
  assert (Hview : ∀ t' k', kt_mem s' !! t' = Some k' →
                    ∃ k0, kt_mem s !! t' = Some k0 ∧ kt_kstack k0 = kt_kstack k').
  { intros t' k' Hk'.
    destruct (kt_body_lookup _ _ _ _ (Hbody t') Hk') as (k0 & Hk0 & Hb).
    exists k0. split; [done|]. symmetry. by apply kt_body_kstack. }
  destruct (Hown t k Hk Hlive) as [np Hnp].
  split; [|split; [|split; [|split]]].
  - split; [rewrite Hal; by apply NoDup_cons|].
    apply Forall_forall. intros x Hx. rewrite Hal in Hx.
    assert (Hm : ∀ y, is_Some (kt_mem s !! y) → is_Some (kt_mem s' !! y)).
    { intros y [k0 Hk0]. pose proof (Hbody y) as Hb. rewrite Hk0 in Hb.
      destruct (kt_mem s' !! y); [eauto|done]. }
    apply elem_of_cons in Hx as [->|Hx]; [split; [done|apply Hm; eauto]|].
    destruct (Hslab x Hx) as [Hx0 Hxm]. split; [done|by apply Hm].
  - split.
    + rewrite Hpool. apply NoDup_cons. split; [|done].
      intros Hin. destruct (Hpages _ Hin) as [_ Hfree]. congruence.
    + apply Forall_forall. intros x Hx. rewrite Hpool in Hx. rewrite Hused.
      apply elem_of_cons in Hx as [->|Hx].
      * split; [by apply (Hrange _ np)|apply lookup_delete_eq].
      * destruct (Hpages x Hx) as [Hx0 Hxf]. split; [done|].
        apply lookup_delete_None. by right.
  - intros r n Hr. rewrite Hused in Hr.
    apply lookup_delete_Some in Hr as [_ Hr]. by apply (Hrange r n).
  - intros t' k' Hk' Hl'. rewrite Hal in Hl'.
    destruct (Hview t' k' Hk') as (k0 & Hk0 & Hkk).
    assert (Hne : t' ≠ t) by set_solver.
    assert (Hl0 : t' ∉ kthread_allocator s) by set_solver.
    rewrite Hused, <- Hkk. rewrite lookup_delete_ne; [by apply (Hown t')|].
    intros E. apply Hne. by apply (Hdist t k Hk Hlive t' k0).
  - intros t1 k1 Hk1 Hl1 t2 k2 Hk2 Hl2 Heq. rewrite Hal in Hl1, Hl2.
    destruct (Hview t1 k1 Hk1) as (k0 & Hk0 & Hkk).
    destruct (Hview t2 k2 Hk2) as (k0' & Hk0' & Hkk').
    assert (H1 : t1 ∉ kthread_allocator s) by set_solver.
    assert (H2 : t2 ∉ kthread_allocator s) by set_solver.
    apply (Hdist t1 k0 Hk0 H1 t2 k0' Hk0' H2). congruence.
Qed.

Section Further.

Context `{!Platform}.

(** *** What destroy does to the links *)

Lemma kthread_destroy_linked s t k pl nl :
  t ≠ NULL → kt_mem s !! t = Some k → kt_kstack k ≠ NULL →
  linked (kt_plink k) = true →
  load_link (l_prev (kt_plink k)) s = Some pl →
  load_link (l_next (kt_plink k)) s = Some nl →
  ∃ s', kthread_destroy t s = Returns () s' ∧
    ∀ y, load_link y s' =
      if decide (y = LPlink t) then Some unlinked
      else if decide (y = l_next (kt_plink k)) then
        Some (mk_link (if decide (l_prev (kt_plink k) = l_next (kt_plink k))
                       then l_next (kt_plink k) else l_next nl)
                (l_prev (kt_plink k)))
      else if decide (y = l_prev (kt_plink k)) then
        Some (mk_link (l_next (kt_plink k)) (l_prev pl))
      else load_link y s.
Proof.
  intros Ht Hk Hks Hlinked Hpl Hnl. unfold kthread_destroy.
  rewrite (Z_eqb_NULL_false t Ht), bind_assoc. kstep.
  rewrite (Z_eqb_NULL_false _ Hks). simpl. do 3 kstep.
  unfold free_stack, page_free_n. fold stack_npages. knorm.
  set (s1 := mk_kstate _ _ _ _ _ _ _ _ _).
  assert (Hl1 : ∀ y, load_link y s1 = load_link y s).
  { intros y. by destruct y. }
  assert (Hp1 : load_link (LPlink t) s1 = Some (kt_plink k))
    by (rewrite Hl1; simpl; by rewrite Hk).
  rewrite (bind_Returns _ _ _ _ _ (list_link_is_linked_Some _ _ _ Hp1)).
  rewrite Hlinked. rewrite <- Hl1 in Hpl, Hnl.
  destruct (list_remove_Returns _ _ _ pl nl Hp1 Hpl Hnl)
    as (s2 & Hrun & Hlo & Hview).
  rewrite (bind_Returns _ _ _ _ _ Hrun). unfold slab_obj_free.
  eexists. split; [done|]. intros y.
  transitivity (load_link y s2); [by destruct y|].
  rewrite Hview. by rewrite Hl1.
Qed.

(** *** What create does to the links *)

Lemma kthread_create_view s p func arg1 arg2 ts n rest a pool :
  p ≠ NULL → thread_list s p ts → slab_wf s →
  (∀ t, t ∈ ts → t ∉ kthread_allocator s) →
  kthread_allocator s = n :: rest → pg_pool s = a :: pool → a ≠ NULL →
  ∃ s' pr N hl pl,
    proc_mem s !! p = Some pr ∧ kt_mem s !! n = Some N ∧ n ≠ NULL ∧ n ∉ ts ∧
    load_link (LThreads p) s = Some hl ∧ load_link (l_prev hl) s = Some pl ∧
    l_prev hl ∈ LThreads p :: (LPlink <$> ts) ∧
    kthread_create p func arg1 arg2 s = Returns n s' ∧
    links_only
      (create_linking s n (create_block N p func arg1 arg2 a (p_pagedir pr))
         rest a pool) s' ∧
    thread_list s' p (ts ++ [n]) ∧
    ∀ y, load_link y s' =
      if decide (y = LThreads p) then
        Some (mk_link (if decide (l_prev hl = LThreads p) then LPlink n
                       else l_next hl) (LPlink n))
      else if decide (y = l_prev hl) then Some (mk_link (LPlink n) (l_prev pl))
      else if decide (y = LPlink n) then Some (mk_link (LThreads p) (l_prev hl))
      else if decide (y = LQlink n) then Some unlinked
      else load_link y s.
Proof.
  intros Hp Hts [Hnd Hslab] Hlive Hal Hpool Ha. rewrite Forall_forall in Hslab.
  destruct (Hslab n) as [Hn [N HN]]; [rewrite Hal; set_solver|].
  destruct (is_list_head _ _ _ Hts) as (hl & Hhl & Hlast & Hzin).
  assert (∃ pr, proc_mem s !! p = Some pr ∧ p_threads pr = hl) as (pr & Hpr & Hprl).
  { simpl in Hhl. destruct (proc_mem s !! p) as [pr|]; [|done].
    exists pr. by simplify_eq/=. }
  assert (Hnts : n ∉ ts).
  { intros Hin. apply (Hlive n Hin). rewrite Hal. set_solver. }
  assert (Hfresh : ∀ y, y ∈ LThreads p :: (LPlink <$> ts) →
                        y ≠ LPlink n ∧ y ≠ LQlink n).
  { intros y Hy. apply elem_of_cons in Hy as [->|Hy]; [done|].
    apply list_elem_of_fmap in Hy as (t & -> & Ht). split; [|done].
    intros [= ->]. done. }
  pose proof (kthread_create_run s p pr func arg1 arg2 n rest N a pool
                Hp Hpr Hal Hn HN Hpool Ha) as Hstart.
  set (T0 := create_block N p func arg1 arg2 a (p_pagedir pr)) in *.
  set (s1 := create_linking s n T0 rest a pool) in *.
  assert (Hload1 : ∀ y, y ≠ LPlink n → y ≠ LQlink n →
                        load_link y s1 = load_link y s).
  { intros y Hy1 Hy2. by apply create_linking_load. }
  assert (Hts1 : is_list s1 (LThreads p) (LPlink <$> ts)).
  { apply (is_list_ext s); [|done]. intros y Hy.
    destruct (Hfresh y Hy). by apply Hload1. }
  assert (Hhl1 : load_link (LThreads p) s1 = Some hl)
    by (rewrite Hload1; done).
  assert (Hn1 : kt_mem s1 !! n = Some T0) by (simpl; apply lookup_insert_eq).
  assert (Hi1 : load_link (LPlink n) s1 = Some (kt_plink T0))
    by (simpl; by rewrite lookup_insert_eq).
  destruct (is_list_elem_mapped _ _ _ (l_prev hl) Hts1 Hzin) as [pl Hpl].
  destruct (Hfresh _ Hzin) as [Hz1 Hz2].
  destruct (list_insert_before_Returns (LThreads p) (LPlink n) s1 hl
              (kt_plink T0) pl) as (s' & Hrun & Hlo & Hview); try done.
  exists s', pr, N, hl, pl.
  split; [done|]. split; [done|]. split; [done|]. split; [done|].
  split; [done|]. split; [by rewrite <- Hload1|]. split; [done|]. split.
  { rewrite Hstart. unfold list_insert_tail.
    by rewrite (bind_Returns _ _ _ _ _ Hrun). }
  split; [done|]. split.
  { unfold thread_list. rewrite fmap_app. simpl.
    apply (is_list_insert_tail s1 s' _ _ _ hl pl); try done.
    intros Hin. destruct (Hfresh _ Hin) as [Hbad _]. done. }
  intros y. rewrite Hview.
  destruct (decide (y = LThreads p)); [done|].
  destruct (decide (y = l_prev hl)); [done|].
  destruct (decide (y = LPlink n)); [done|].
  destruct (decide (y = LQlink n)) as [->|]; [|by apply Hload1].
  simpl. by rewrite lookup_insert_eq.
Qed.

(** *** What create and clone have done when they return *)

Lemma kthread_create_effect p func arg1 arg2 s t s' :
  kthread_create p func arg1 arg2 s = Returns t s' →
  ∃ pr N a T,
    p ≠ NULL ∧ t ≠ NULL ∧ a ≠ NULL ∧
    proc_mem s !! p = Some pr ∧ kt_mem s !! t = Some N ∧
    kthread_allocator s = t :: kthread_allocator s' ∧
    pg_pool s = a :: pg_pool s' ∧
    pg_used s' = <[a := stack_npages]> (pg_used s) ∧
    pg_log s' = pg_log s ++ [PageAlloc stack_npages a] ∧
    curthr s' = curthr s ∧ curproc s' = curproc s ∧
    (∀ t', t' ≠ t → kt_body <$> kt_mem s' !! t' = kt_body <$> kt_mem s !! t') ∧
    (∀ q, p_pagedir <$> proc_mem s' !! q = p_pagedir <$> proc_mem s !! q) ∧
    kt_mem s' !! t = Some T ∧
    kt_body T = kt_body (create_block N p func arg1 arg2 a (p_pagedir pr)).
Proof.
  intros E.
  destruct (kthread_create_Returns_inv _ _ _ _ _ _ _ E)
    as (pr & n & rest & N & a & pool & Hp & Hpr & Hal & Hn & HN & Hpool & Ha).
  rewrite (kthread_create_run s p pr func arg1 arg2 n rest N a pool) in E by done.
  set (T0 := create_block N p func arg1 arg2 a (p_pagedir pr)) in *.
  set (s1 := create_linking s n T0 rest a pool) in *.
  apply bind_Returns_inv in E as (u & s2 & Hins & E).
  apply ret_Returns_inv in E as [-> ->].
  apply list_insert_before_frame in Hins as (hl & Hhl & Hlo & Hframe).
  assert (Hn1 : kt_mem s1 !! n = Some T0) by (simpl; apply lookup_insert_eq).
  destruct (links_only_lookup s1 s2 n T0 Hlo Hn1) as (T & HT & Hbody & _).
  destruct Hlo as [E1 E2 E3 E4 E5 E6 E7 E8]. simpl in *.
  exists pr, N, a, T. repeat split; try done; try congruence.
  intros t' Hne. rewrite E7. by rewrite lookup_insert_ne.
Qed.

Lemma kthread_clone_effect thr s t s' :
  thr ∉ kthread_allocator s →
  kthread_clone thr s = Returns t s' →
  ∃ S rest N a b pool,
    kt_mem s !! thr = Some S ∧ kt_state S = KT_RUN ∧
    kthread_allocator s = t :: rest ∧ t ≠ NULL ∧ kt_mem s !! t = Some N ∧
    thr ≠ t ∧ pg_pool s = a :: b :: pool ∧ a ≠ NULL ∧ b ≠ NULL ∧
    s' = clone_state s t (clone_block S N a b) rest a b pool.
Proof.
  intros Hlive E.
  destruct (kthread_clone_Returns_inv _ _ _ _ E)
    as (S & rest & N & a & b & pool & HS & Hst & Hal & Ht & HN & Hpool & Ha & Hb).
  assert (Hne : thr ≠ t) by (intros ->; apply Hlive; rewrite Hal; set_solver).
  rewrite (kthread_clone_Returns s thr S t rest N a b pool) in E by done.
  apply Returns_inj in E as [_ <-].
  exists S, rest, N, a, b, pool. done.
Qed.

Lemma kthread_create_memory_invariant p func arg1 arg2 s t s' :
  memory_invariant s →
  kthread_create p func arg1 arg2 s = Returns t s' → memory_invariant s'.
Proof.
  intros Hinv E.
  destruct (kthread_create_effect _ _ _ _ _ _ _ E)
    as (pr & N & a & T & _ & _ & _ & _ & _ & Hal & Hpool & Hused & _ & _ & _
        & Hbody & _ & HT & HbT).
  apply (memory_invariant_alloc s s' t T [a]); try done.
  - intros r ->%list_elem_of_singleton. rewrite Hused, lookup_insert_eq. eauto.
  - intros r Hr. rewrite Hused. apply lookup_insert_ne. set_solver.
  - rewrite (kt_body_kstack _ _ HbT). simpl. set_solver.
Qed.

Lemma kthread_clone_memory_invariant thr s t s' :
  memory_invariant s → thr ∉ kthread_allocator s →
  kthread_clone thr s = Returns t s' → memory_invariant s'.
Proof.
  intros Hinv Hlive E.
  destruct (kthread_clone_effect _ _ _ _ Hlive E)
    as (S & rest & N & a & b & pool & _ & _ & Hal & _ & _ & _ & Hpool & _ & _ & ->).
  apply (memory_invariant_alloc s _ t (clone_block S N a b) [a; b]);
    try done; simpl.
  - intros r Hr. destruct (decide (r = b)) as [->|Hne].
    + rewrite lookup_insert_eq. eauto.
    + rewrite lookup_insert_ne by done.
      assert (r = a) as -> by set_solver. rewrite lookup_insert_eq. eauto.
  - intros r Hr. rewrite !lookup_insert_ne by set_solver. done.
  - intros t' Hne. by rewrite lookup_insert_ne.
  - apply lookup_insert_eq.
  - set_solver.
Qed.

Lemma kthread_destroy_memory_invariant t s u s' :
  memory_invariant s → t ∉ kthread_allocator s →
  kthread_destroy t s = Returns u s' → memory_invariant s'.
Proof.
  intros Hinv Hlive E.
  destruct (kthread_destroy_Returns_inv _ _ _ _ E) as (k & Ht & Hk & Hks & Hnb).
  destruct (kthread_destroy_Returns s t k Ht Hk Hks Hnb)
    as (s'' & Hrun & _ & _ & Hal & Hused & Hpool & _ & Hbody & _).
  rewrite Hrun in E. apply Returns_inj in E as [_ <-].
  by apply (memory_invariant_free s s'' t k).
Qed.

(** *** Further properties of the operations *)

(** X1.  [kthread_destroy] of a thread [t] that is on the thread collection
    of process [p]: the collection loses [t] and nothing else, the other
    threads keeping their order; the collection link of [t] is cleared and
    [t] is put on the free list.  The collections of all other processes
    and every scheduler queue hold what they held before (a thread that is
    destroyed while it is queued stays on its queue), and no control block
    changes in any field other than its links. *)
Theorem kthread_destroy_unlinks s p t k ts1 ts2 :
  t ≠ NULL → kt_mem s !! t = Some k → kt_kstack k ≠ NULL →
  thread_list s p (ts1 ++ t :: ts2) →
  ∃ s',
    kthread_destroy t s = Returns () s' ∧
    thread_list s' p (ts1 ++ ts2) ∧
    (∀ ts', thread_list s' p ts' → ts' = ts1 ++ ts2 ∧ t ∉ ts') ∧
    load_link (LPlink t) s' = Some unlinked ∧
    kthread_allocator s' = t :: kthread_allocator s ∧
    (∀ q qs, q ≠ p → thread_list s q qs → thread_list s' q qs) ∧
    (∀ q ws, is_list s (LQueue q) (LQlink <$> ws) →
             is_list s' (LQueue q) (LQlink <$> ws)) ∧
    (∀ t', kt_body <$> kt_mem s' !! t' = kt_body <$> kt_mem s !! t').
Proof.
  intros Ht Hk Hks Hts. pose proof Hts as Hl.
  unfold thread_list in Hl. rewrite fmap_app, fmap_cons in Hl.
  destruct (is_list_neighbours _ _ _ _ _ Hl)
    as (v & pl & nl & Hv & Hpl & Hnl & Hpin & Hnin & Hlinked).
  simpl in Hv. rewrite Hk in Hv. injection Hv as <-.
  assert (Hv : load_link (LPlink t) s = Some (kt_plink k))
    by (simpl; by rewrite Hk).
  destruct (kthread_destroy_linked s t k pl nl Ht Hk Hks Hlinked Hpl Hnl)
    as (s' & Hrun & Hview).
  destruct (kthread_destroy_Returns s t k Ht Hk Hks) as
    (s'' & Hrun' & _ & _ & Hal & _ & _ & _ & Hbody & _); [eauto|].
  rewrite Hrun in Hrun'. apply Returns_inj in Hrun' as [_ <-].
  assert (Hl' : thread_list s' p (ts1 ++ ts2)).
  { unfold thread_list. rewrite fmap_app.
    by apply (is_list_remove s s' _ _ (LPlink t) _ (kt_plink k) pl nl). }
  assert (Hnd : NoDup (ts1 ++ t :: ts2)).
  { destruct Hts as [Hnd _]. apply NoDup_cons in Hnd as [_ Hnd].
    by apply NoDup_fmap_1 in Hnd. }
  apply NoDup_app in Hnd as (_ & Hd1 & Hnd). apply NoDup_cons in Hnd as [Hd2 _].
  assert (Hon : ∀ z, z ∈ [LPlink t; l_next (kt_plink k); l_prev (kt_plink k)] →
                     z ∈ LThreads p :: (LPlink <$> ts1 ++ t :: ts2)).
  { intros z Hz. rewrite fmap_app, fmap_cons. set_solver. }
  assert (Hframe : ∀ y, (∀ z, z ∈ LThreads p :: (LPlink <$> ts1 ++ t :: ts2) →
                              y ≠ z) →
                        load_link y s' = load_link y s).
  { intros y Hy. rewrite Hview.
    rewrite !decide_False by (apply Hy, Hon; set_solver). done. }
  exists s'. split; [done|]. split; [done|]. split.
  { intros ts' Hts'. rewrite <- (thread_list_unique s' p _ _ Hl' Hts').
    split; [done|]. set_solver. }
  split; [by rewrite Hview, decide_True|]. split; [done|].
  split; [|split; [|done]].
  - intros q qs Hq Hqs. apply (is_list_ext s); [|done].
    intros y Hy. apply Hframe. intros z Hz E.
    by apply (thread_list_apart s p q _ _ z y Hts Hqs).
  - intros q ws Hws. apply (is_list_ext s); [|done].
    intros y Hy. apply Hframe. intros z Hz ->.
    assert (Hkq : kind_of z = Some KQueue).
    { apply elem_of_cons in Hy as [->|Hy]; [done|].
      apply list_elem_of_fmap in Hy as (? & -> & _). done. }
    apply elem_of_cons in Hz as [->|Hz]; [done|].
    apply list_elem_of_fmap in Hz as (? & -> & _). done.
Qed.

(** X2.  [kthread_create] followed by [kthread_destroy] of the thread it
    returned restores the state: the thread collection of [p], the free
    list of control blocks, the free regions and the regions in use, every
    process, every queue and every other control block are as before.  What
    remains is the contents of the recycled block, whose two links are
    cleared, and two calls in the log of the page allocator: the allocation
    and the release of the same region with the same page count. *)
Theorem kthread_create_destroy_round_trip s p func arg1 arg2 ts n rest a pool :
  p ≠ NULL → thread_list s p ts → slab_wf s → pages_wf s →
  (∀ t, t ∈ ts → t ∉ kthread_allocator s) →
  kthread_allocator s = n :: rest → pg_pool s = a :: pool →
  ∃ s1 s2 T,
    kthread_create p func arg1 arg2 s = Returns n s1 ∧
    kthread_destroy n s1 = Returns () s2 ∧
    s2 = mk_kstate (curthr s) (curproc s) (<[n := T]> (kt_mem s))
           (kthread_allocator s) (proc_mem s) (queue_mem s) (pg_used s)
           (pg_pool s)
           (pg_log s ++ [PageAlloc stack_npages a; PageFree a stack_npages]) ∧
    kt_qlink T = unlinked ∧ kt_plink T = unlinked ∧
    thread_list s2 p ts.
Proof.
  intros Hp Hts Hslab [Hpnd Hpages] Hlive Hal Hpool.
  rewrite Forall_forall in Hpages.
  destruct (Hpages a) as [Ha Hafree]; [rewrite Hpool; set_solver|].
  assert (Ha0 : a ≠ NULL) by (unfold NULL; lia).
  destruct (kthread_create_view s p func arg1 arg2 ts n rest a pool)
    as (s1 & pr & N & hl & pl & Hpr & HN & Hn & Hnts & Hhl & Hpl & Hzin & Hrun1
        & Hlo1 & Hts1 & Hview1); try done.
  set (T0 := create_block N p func arg1 arg2 a (p_pagedir pr)) in *.
  assert (Hn0 : kt_mem (create_linking s n T0 rest a pool) !! n = Some T0)
    by (simpl; apply lookup_insert_eq).
  destruct (links_only_lookup _ s1 n T0 Hlo1 Hn0) as (T1 & HT1 & Hbody1 & _ & Hpl1).
  rewrite Hview1 in Hpl1.
  assert (Hfresh : ∀ y, y ∈ LThreads p :: (LPlink <$> ts) →
                        y ≠ LPlink n ∧ y ≠ LQlink n).
  { intros y Hy. apply elem_of_cons in Hy as [->|Hy]; [done|].
    apply list_elem_of_fmap in Hy as (t & -> & Ht). split; [|done].
    intros [= ->]. done. }
  destruct (Hfresh _ Hzin) as [Hz1 Hz2].
  rewrite decide_False, decide_False, decide_True in Hpl1 by done.
  injection Hpl1 as Hpl1.
  assert (Hks1 : kt_kstack T1 = a) by (by apply (f_equal kt_kstack) in Hbody1).
  assert (Hznull : l_prev hl ≠ LNull) by (intros E; by rewrite E in Hpl).
  assert (Hlinked : linked (kt_plink T1) = true).
  { rewrite <- Hpl1. unfold linked. simpl. by destruct (l_prev hl). }
  assert (Htail : l_next pl = LThreads p)
    by (by apply (is_list_tail_next s _ _ hl pl Hts)).
  destruct (kthread_destroy_linked s1 n T1
              (if decide (l_prev hl = LThreads p)
               then mk_link (LPlink n) (LPlink n)
               else mk_link (LPlink n) (l_prev pl))
              (mk_link (if decide (l_prev hl = LThreads p) then LPlink n
                        else l_next hl) (LPlink n)))
    as (s2 & Hrun2 & Hview2); try done.
  { congruence. }
  { rewrite <- Hpl1. cbn [l_prev].
    destruct (decide (l_prev hl = LThreads p)) as [E|E]; rewrite Hview1.
    - rewrite E. by rewrite decide_True.
    - rewrite decide_False by done. by rewrite decide_True. }
  { rewrite <- Hpl1. cbn [l_next]. rewrite Hview1. by rewrite decide_True. }
  rewrite <- Hpl1 in Hview2. cbn [l_next l_prev] in Hview2.
  destruct (kthread_destroy_Returns s1 n T1) as
    (s2' & Hrun2' & Hc & Hcp & Hal2 & Hused2 & Hpool2 & Hlog2 & Hbody2 & Hpd2 & _);
    [done|done|congruence| |].
  { intros _. rewrite <- Hpl1. cbn [l_next l_prev]. rewrite !Hview1.
    split; repeat case_decide; eauto. }
  rewrite Hrun2 in Hrun2'. apply Returns_inj in Hrun2' as [_ <-].
  assert (Hload : ∀ y, load_link y s2 =
                       if decide (y = LPlink n) then Some unlinked
                       else if decide (y = LQlink n) then Some unlinked
                       else load_link y s).
  { intros y. rewrite Hview2.
    destruct (decide (y = LPlink n)) as [|Hy1]; [done|].
    destruct (decide (y = LThreads p)) as [->|Hy2].
    { rewrite (decide_False (P := LThreads p = LQlink n)) by done.
      rewrite Hhl. f_equal.
      destruct (decide (l_prev hl = LThreads p)) as [E|E]; simpl.
      - rewrite E in Hpl. assert (pl = hl) as -> by congruence.
        rewrite <- (list_link_eta hl) at 2. by rewrite Htail.
      - apply list_link_eta. }
    destruct (decide (y = l_prev hl)) as [->|Hy3].
    { rewrite !decide_False by done.
      rewrite Hpl. f_equal. simpl.
      rewrite <- (list_link_eta pl) at 2. by rewrite Htail. }
    rewrite Hview1. by rewrite !decide_False by done. }
  assert (∃ T2, kt_mem s2 !! n = Some T2) as [T2 HT2].
  { pose proof (Hbody2 n) as Hb. rewrite HT1 in Hb.
    destruct (kt_mem s2 !! n); [eauto|done]. }
  pose proof (Hload (LQlink n)) as Hq2. pose proof (Hload (LPlink n)) as Hp2.
  rewrite decide_False, decide_True in Hq2 by done.
  rewrite decide_True in Hp2 by done.
  simpl in Hq2, Hp2. rewrite HT2 in Hq2, Hp2. simpl in Hq2, Hp2.
  exists s1, s2, T2. split; [done|]. split; [done|].
  assert (Hmem : kt_mem s2 = <[n := T2]> (kt_mem s)).
  { apply map_eq. intros t. destruct (decide (t = n)) as [->|Hne].
    { by rewrite lookup_insert_eq. }
    rewrite lookup_insert_ne by done.
    pose proof (Hbody2 t) as Hb2. pose proof (lo_body _ _ Hlo1 t) as Hb1.
    simpl in Hb1. rewrite lookup_insert_ne in Hb1 by done.
    pose proof (Hload (LQlink t)) as Hq. pose proof (Hload (LPlink t)) as Hpp.
    rewrite !decide_False in Hq by congruence.
    rewrite !decide_False in Hpp by congruence. simpl in Hq, Hpp.
    rewrite Hb1 in Hb2.
    destruct (kt_mem s2 !! t) as [k2|], (kt_mem s !! t) as [k|]; try done.
    f_equal. apply kt_body_eq; simpl in *; congruence. }
  assert (Hprocs : proc_mem s2 = proc_mem s).
  { apply map_eq. intros q.
    pose proof (Hpd2 q) as Hd2. pose proof (lo_pagedir _ _ Hlo1 q) as Hd1.
    simpl in Hd1. rewrite Hd1 in Hd2.
    pose proof (Hload (LThreads q)) as Hq. simpl in Hq.
    destruct (proc_mem s2 !! q) as [[]|], (proc_mem s !! q) as [[]|]; try done.
    simpl in *. congruence. }
  assert (Hqueues : queue_mem s2 = queue_mem s).
  { apply map_eq. intros q. pose proof (Hload (LQueue q)) as Hq. simpl in Hq.
    destruct (queue_mem s2 !! q) as [[]|], (queue_mem s !! q) as [[]|]; try done.
    simpl in *. congruence. }
  assert (Hstate : s2 = mk_kstate (curthr s) (curproc s) (<[n := T2]> (kt_mem s))
           (kthread_allocator s) (proc_mem s) (queue_mem s) (pg_used s)
           (pg_pool s)
           (pg_log s ++ [PageAlloc stack_npages a; PageFree a stack_npages])).
  { destruct Hlo1 as [E1 E2 E3 E4 E5 E6 _ _]. simpl in *.
    destruct s2. simpl in *. f_equal; try congruence.
    - rewrite Hused2, E4, Hks1. by apply delete_insert_id.
    - rewrite Hlog2, E6, Hks1, <- app_assoc. done. }
  split; [done|]. split; [congruence|]. split; [congruence|].
  apply (is_list_ext s); [|done]. intros y Hy. rewrite Hload.
  destruct (Hfresh y Hy). by rewrite !decide_False.
Qed.

(** X3.  What [kthread_create] leaves alone.  It writes four links: the
    list head of [p], the link of the last thread of the collection (the
    head itself when the collection is empty) and the two links of the new
    block.  Every other link in memory keeps its value, no control block
    other than the new one changes in any other field, and no page
    directory is written.  So the thread collections of all other processes
    and the scheduler queues hold what they held, as long as no free
    control block is on them. *)
Theorem kthread_create_frame s p func arg1 arg2 ts n rest a pool :
  p ≠ NULL → thread_list s p ts → slab_wf s →
  (∀ t, t ∈ ts → t ∉ kthread_allocator s) →
  kthread_allocator s = n :: rest → pg_pool s = a :: pool → a ≠ NULL →
  ∃ s',
    kthread_create p func arg1 arg2 s = Returns n s' ∧
    (∀ y, y ≠ LThreads p → y ≠ List.last (LPlink <$> ts) (LThreads p) →
          y ≠ LPlink n → y ≠ LQlink n → load_link y s' = load_link y s) ∧
    (∀ t, t ≠ n → kt_body <$> kt_mem s' !! t = kt_body <$> kt_mem s !! t) ∧
    (∀ q, p_pagedir <$> proc_mem s' !! q = p_pagedir <$> proc_mem s !! q) ∧
    (∀ q qs, q ≠ p → thread_list s q qs →
             (∀ t, t ∈ qs → t ∉ kthread_allocator s) → thread_list s' q qs) ∧
    (∀ q ws, is_list s (LQueue q) (LQlink <$> ws) →
             (∀ t, t ∈ ws → t ∉ kthread_allocator s) →
             is_list s' (LQueue q) (LQlink <$> ws)).
Proof.
  intros Hp Hts Hslab Hlive Hal Hpool Ha.
  destruct (kthread_create_view s p func arg1 arg2 ts n rest a pool)
    as (s' & pr & N & hl & pl & Hpr & HN & Hn & Hnts & Hhl & Hpl & Hzin & Hrun
        & Hlo & _ & Hview); try done.
  destruct (is_list_head _ _ _ Hts) as (hl' & Hhl' & Hlast & _).
  assert (hl' = hl) as -> by congruence.
  assert (Hframe : ∀ y, y ≠ LThreads p → y ≠ l_prev hl → y ≠ LPlink n →
                        y ≠ LQlink n → load_link y s' = load_link y s).
  { intros y H1 H2 H3 H4. rewrite Hview. by rewrite !decide_False by done. }
  exists s'. split; [done|]. split.
  { intros y H1 H2 H3 H4. apply Hframe; try done. by rewrite Hlast. }
  split.
  { intros t Hne. rewrite (lo_body _ _ Hlo t). simpl.
    by rewrite lookup_insert_ne. }
  split; [apply (lo_pagedir _ _ Hlo)|]. split.
  - intros q qs Hq Hqs Hqlive. apply (is_list_ext s); [|done].
    intros y Hy. apply Hframe.
    + intros ->.
      apply (thread_list_apart s p q ts qs (LThreads p) (LThreads p) Hts Hqs);
        [congruence|set_solver|done|done].
    + intros ->.
      apply (thread_list_apart s p q ts qs (l_prev hl) (l_prev hl) Hts Hqs);
        [congruence|done|done|done].
    + intros ->. apply elem_of_cons in Hy as [?|Hy]; [done|].
      apply list_elem_of_fmap in Hy as (t & [= <-] & Ht).
      apply (Hqlive n Ht). rewrite Hal. set_solver.
    + intros ->. apply elem_of_cons in Hy as [?|Hy]; [done|].
      apply list_elem_of_fmap in Hy as (t & ? & Ht). done.
  - intros q ws Hws Hwlive. apply (is_list_ext s); [|done].
    intros y Hy.
    assert (Hkind : kind_of y = Some KQueue).
    { apply elem_of_cons in Hy as [->|Hy]; [done|].
      apply list_elem_of_fmap in Hy as (t & -> & _). done. }
    apply Hframe.
    + intros ->. done.
    + intros ->. apply elem_of_cons in Hzin as [E|Hz].
      * rewrite E in Hkind. done.
      * apply list_elem_of_fmap in Hz as (t & E & _). rewrite E in Hkind. done.
    + intros ->. done.
    + intros ->. apply elem_of_cons in Hy as [?|Hy]; [done|].
      apply list_elem_of_fmap in Hy as (t & [= <-] & Ht).
      apply (Hwlive n Ht). rewrite Hal. set_solver.
Qed.

(** X4.  Two calls of [kthread_create] for the same process, from a state
    that satisfies the memory invariant: both return, with different control
    blocks that hold different stacks; the collection grows by the two
    threads in the order of their creation; after the second call the first
    thread is still runnable and owned by [p]; and the memory invariant
    holds again. *)
Theorem kthread_create_twice s p f1 x1 y1 f2 x2 y2 ts n1 n2 rest a1 a2 pool :
  p ≠ NULL → thread_list s p ts → memory_invariant s →
  (∀ t, t ∈ ts → t ∉ kthread_allocator s) →
  kthread_allocator s = n1 :: n2 :: rest → pg_pool s = a1 :: a2 :: pool →
  ∃ s1 s2 T1 T2,
    kthread_create p f1 x1 y1 s = Returns n1 s1 ∧
    kthread_create p f2 x2 y2 s1 = Returns n2 s2 ∧
    n1 ≠ n2 ∧ thread_list s2 p (ts ++ [n1; n2]) ∧
    kt_mem s2 !! n1 = Some T1 ∧ kt_mem s2 !! n2 = Some T2 ∧
    kt_kstack T1 = a1 ∧ kt_kstack T2 = a2 ∧ a1 ≠ a2 ∧
    kt_proc T1 = p ∧ kt_proc T2 = p ∧
    kt_state T1 = KT_RUN ∧ kt_state T2 = KT_RUN ∧
    memory_invariant s2.
Proof.
  intros Hp Hts Hinv Hlive Hal Hpool.
  pose proof Hinv as ([Hnd Hslab] & [Hpnd Hpages] & _).
  rewrite Forall_forall in Hpages.
  destruct (Hpages a1) as [Ha1 _]; [rewrite Hpool; set_solver|].
  destruct (Hpages a2) as [Ha2 _]; [rewrite Hpool; set_solver|].
  assert (Ha12 : a1 ≠ a2).
  { rewrite Hpool in Hpnd. apply NoDup_cons in Hpnd as [Hin _]. set_solver. }
  assert (Hn12 : n1 ≠ n2).
  { rewrite Hal in Hnd. apply NoDup_cons in Hnd as [Hin _]. set_solver. }
  destruct (kthread_create_view s p f1 x1 y1 ts n1 (n2 :: rest) a1 (a2 :: pool))
    as (s1 & pr & N & hl & pl & _ & _ & _ & Hn1ts & _ & _ & _ & Hrun1 & _ & Hts1 & _);
    try done; [unfold NULL; lia|].
  destruct (kthread_create_effect _ _ _ _ _ _ _ Hrun1)
    as (pr1 & N1 & b1 & T1 & _ & _ & _ & Hpr1 & _ & Hal1 & Hpool1 & _ & _ & _ & _
        & _ & _ & HT1 & HbT1).
  rewrite Hal in Hal1. injection Hal1 as Hal1.
  rewrite Hpool in Hpool1. injection Hpool1 as <- Hpool1.
  assert (Hinv1 : memory_invariant s1).
  { by apply (kthread_create_memory_invariant p f1 x1 y1 s n1 s1). }
  destruct (kthread_create_view s1 p f2 x2 y2 (ts ++ [n1]) n2 rest a2 pool)
    as (s2 & _ & _ & _ & _ & _ & _ & _ & _ & _ & _ & _ & Hrun2 & _ & Hts2 & _);
    try done; [by destruct Hinv1| |unfold NULL; lia|].
  { intros t Ht. rewrite <- Hal1. rewrite Hal in Hnd.
    apply NoDup_cons in Hnd as [Hin1 Hnd].
    apply elem_of_app in Ht as [Ht|Ht].
    - specialize (Hlive t Ht). rewrite Hal in Hlive. set_solver.
    - apply list_elem_of_singleton in Ht as ->. set_solver. }
  destruct (kthread_create_effect _ _ _ _ _ _ _ Hrun2)
    as (pr2 & N2 & b2 & T2 & _ & _ & _ & _ & _ & Hal2 & Hpool2 & _ & _ & _ & _
        & Hbody2 & _ & HT2 & HbT2).
  rewrite <- Hpool1 in Hpool2. injection Hpool2 as <- _.
  pose proof (Hbody2 n1 Hn12) as Hb. rewrite HT1 in Hb.
  destruct (kt_mem s2 !! n1) as [T1'|] eqn:HT1'; [|done].
  assert (HbT1' : kt_body T1' = kt_body T1) by (simpl in Hb; congruence).
  rewrite HbT1 in HbT1'.
  assert (Hf : ∀ (A : Type) (f : kthread_t → A) T T0,
               (∀ k, f (kt_body k) = f k) → kt_body T = kt_body T0 → f T = f T0).
  { intros A f T T0 Hfb E. rewrite <- (Hfb T), <- (Hfb T0). by rewrite E. }
  exists s1, s2, T1', T2. split; [done|]. split; [done|]. split; [done|].
  split; [by rewrite <- app_assoc in Hts2|]. split; [done|]. split; [done|].
  split; [by rewrite (Hf _ kt_kstack _ _ (λ _, eq_refl) HbT1')|].
  split; [by rewrite (Hf _ kt_kstack _ _ (λ _, eq_refl) HbT2)|].
  split; [done|].
  split; [by rewrite (Hf _ kt_proc _ _ (λ _, eq_refl) HbT1')|].
  split; [by rewrite (Hf _ kt_proc _ _ (λ _, eq_refl) HbT2)|].
  split; [by rewrite (Hf _ kt_state _ _ (λ _, eq_refl) HbT1')|].
  split; [by rewrite (Hf _ kt_state _ _ (λ _, eq_refl) HbT2)|].
  by apply (kthread_create_memory_invariant p f2 x2 y2 s1 n2 s2).
Qed.

(** X5.  Whenever [kthread_create] returns, whatever the state it ran in:
    the process and the result are non-null; one control block, the first
    of the free list, and one region, the first free one, have been taken,
    the region with the page count of a stack; the context of the new
    thread is what [context_setup] makes of the entry function, [(int) arg1],
    [arg2], that region, DEFAULT_STACK_SIZE and the page directory of [p],
    and the same region is the kernel stack of the thread; the thread is
    owned by [p], runnable, not cancelled, with null result, no error and
    no wait channel; no other control block changes outside its links. *)
Theorem kthread_create_returned p func arg1 arg2 s t s' :
  kthread_create p func arg1 arg2 s = Returns t s' →
  ∃ pr N a T,
    p ≠ NULL ∧ t ≠ NULL ∧ a ≠ NULL ∧
    proc_mem s !! p = Some pr ∧ kt_mem s !! t = Some N ∧
    kthread_allocator s = t :: kthread_allocator s' ∧
    pg_pool s = a :: pg_pool s' ∧
    pg_used s' = <[a := stack_npages]> (pg_used s) ∧
    pg_log s' = pg_log s ++ [PageAlloc stack_npages a] ∧
    kt_mem s' !! t = Some T ∧
    kt_ctx T = context_setup (kt_ctx N) func (cast_int arg1) arg2 a
                 DEFAULT_STACK_SIZE (p_pagedir pr) ∧
    kt_kstack T = a ∧ kt_proc T = p ∧ kt_state T = KT_RUN ∧
    kt_retval T = NULL ∧ kt_errno T = 0 ∧ kt_cancelled T = 0 ∧
    kt_wchan T = NULL ∧
    (∀ t', t' ≠ t → kt_body <$> kt_mem s' !! t' = kt_body <$> kt_mem s !! t').
Proof.
  intros E.
  destruct (kthread_create_effect _ _ _ _ _ _ _ E)
    as (pr & N & a & T & Hp & Ht & Ha & Hpr & HN & Hal & Hpool & Hused & Hlog
        & _ & _ & Hbody & _ & HT & HbT).
  exists pr, N, a, T.
  assert (Hf : ∀ (A : Type) (f : kthread_t → A),
               (∀ k, f (kt_body k) = f k) →
               f T = f (create_block N p func arg1 arg2 a (p_pagedir pr))).
  { intros A f Hfb. rewrite <- (Hfb T), <- (Hfb (create_block _ _ _ _ _ _ _)).
    by rewrite HbT. }
  do 10 (split; [done|]).
  split; [by apply (Hf _ kt_ctx)|]. split; [by apply (Hf _ kt_kstack)|].
  split; [by apply (Hf _ kt_proc)|]. split; [by apply (Hf _ kt_state)|].
  split; [by apply (Hf _ kt_retval)|]. split; [by apply (Hf _ kt_errno)|].
  split; [by apply (Hf _ kt_cancelled)|]. split; [by apply (Hf _ kt_wchan)|].
  done.
Qed.


(** X7.  For a live source thread, [kthread_clone] returns [t] in [s']
    exactly when the source is in state KT_RUN, [t] is the first free
    control block and is non-null, and the first two free regions are
    non-null; [s'] is then [clone_state]: the new block written into [t],
    the two regions in use (the context stack first, the kernel stack
    second), and nothing else changed. *)
Theorem kthread_clone_returns_iff thr s t s' :
  thr ∉ kthread_allocator s →
  kthread_clone thr s = Returns t s' ↔
  ∃ S rest N a b pool,
    kt_mem s !! thr = Some S ∧ kt_state S = KT_RUN ∧
    kthread_allocator s = t :: rest ∧ t ≠ NULL ∧ kt_mem s !! t = Some N ∧
    pg_pool s = a :: b :: pool ∧ a ≠ NULL ∧ b ≠ NULL ∧
    s' = clone_state s t (clone_block S N a b) rest a b pool.
Proof.
  intros Hlive. split.
  - intros E.
    destruct (kthread_clone_effect _ _ _ _ Hlive E)
      as (S & rest & N & a & b & pool & ? & ? & ? & ? & ? & ? & ? & ? & ? & ?).
    exists S, rest, N, a, b, pool. done.
  - intros (S & rest & N & a & b & pool & HS & Hst & Hal & Ht & HN & Hpool
            & Ha & Hb & ->).
    apply kthread_clone_Returns; try done.
    intros ->. apply Hlive. rewrite Hal. set_solver.
Qed.


(** X9.  The memory invariant (free control blocks distinct, non-null and
    in slab memory; free regions distinct 32-bit addresses not in use; every
    live control block holding an allocated region as its kernel stack, no
    two of them the same region) holds after [kthread_create], after
    [kthread_clone] of a live thread and after [kthread_destroy] of a live
    thread, whenever they return. *)
Theorem memory_invariant_preserved :
  (∀ p func arg1 arg2 s t s',
     memory_invariant s →
     kthread_create p func arg1 arg2 s = Returns t s' → memory_invariant s') ∧
  (∀ thr s t s',
     memory_invariant s → thr ∉ kthread_allocator s →
     kthread_clone thr s = Returns t s' → memory_invariant s') ∧
  (∀ t s u s',
     memory_invariant s → t ∉ kthread_allocator s →
     kthread_destroy t s = Returns u s' → memory_invariant s').
Proof.
  split; [|split].
  - intros p func arg1 arg2 s t s'. apply kthread_create_memory_invariant.
  - intros thr s t s'. apply kthread_clone_memory_invariant.
  - intros t s u s'. apply kthread_destroy_memory_invariant.
Qed.

(** X10.  Up to the point where it hands over to the process layer, or
    stops on an assertion, [kthread_exit] releases nothing.  The state it
    ends in differs from the state it started in only in the control block
    of the calling thread, and there only in the result and, on the
    hand-over, the state field: allocators and page map are as before, and
    every link and every list, the thread collection of the process
    included, holds what it held. *)
Theorem kthread_exit_releases_nothing retval s k :
  kt_mem s !! curthr s = Some k →
  ∃ s1 k1,
    ((∃ msg, kthread_exit retval s = Panics msg s1) ∨
     kthread_exit retval s =
       match proc_thread_exited retval s1 with
       | Returns _ s' =>
           Panics "Should never get here! proc_thread_exited() will kill thread." s'
       | o => o
       end) ∧
    s1 = with_kt_mem (<[curthr s := k1]> (kt_mem s)) s ∧
    k1 = set_kt_state (kt_state k1) (set_kt_retval retval k) ∧
    (kt_state k1 = kt_state k ∨ kt_state k1 = KT_EXITED) ∧
    (∀ y, load_link y s1 = load_link y s) ∧
    (∀ h L, is_list s h L → is_list s1 h L).
Proof.
  intros Hk.
  assert (Hlinks : ∀ k1, kt_qlink k1 = kt_qlink k → kt_plink k1 = kt_plink k →
            ∀ y, load_link y (with_kt_mem (<[curthr s := k1]> (kt_mem s)) s)
                 = load_link y s).
  { intros k1 Hq Hpl y. rewrite kt_store_load_link.
    repeat case_decide; subst; simpl; rewrite ?Hk; simpl; congruence. }
  destruct (decide (kt_wchan k = NULL ∧ kt_qlink k = unlinked ∧
                    kt_proc k = curproc s)) as [(Hw & Hq & Hp)|Hbad].
  - exists (exit_handoff retval k s),
      (set_kt_state KT_EXITED (set_kt_retval retval k)).
    split; [right; by apply kthread_exit_handoff|]. split; [done|].
    split; [done|]. split; [by right|].
    split; [by apply Hlinks|].
    intros h L. apply is_list_ext. intros y _. by apply Hlinks.
  - exists (exit_stored retval k s), (set_kt_retval retval k).
    split.
    { left. apply kthread_exit_assertion; [done|].
      destruct (decide (kt_wchan k = NULL)); [|by left].
      destruct (decide (kt_qlink k = unlinked)); [|by right; left].
      destruct (decide (kt_proc k = curproc s)); [|by right; right].
      naive_solver. }
    split; [done|]. split; [by destruct k|]. split; [by left|].
    split; [by apply Hlinks|].
    intros h L. apply is_list_ext. intros y _. by apply Hlinks.
Qed.

(** X11.  Cancelling a thread other than the caller twice: both calls
    return, and the second one changes nothing but the result slot of the
    target, which then holds the second value (the later cancel overwrites
    the result of the earlier one); with the same value the second call
    changes nothing at all.  [sched_cancel] is the one modelled above. *)
Theorem kthread_cancel_again s kthr r1 r2 k :
  kthr ≠ NULL → kthr ≠ curthr s → kt_mem s !! kthr = Some k →
  (kt_state k = KT_SLEEP_CANCELLABLE →
   is_Some (load_link (l_prev (kt_qlink k)) s) ∧
   is_Some (load_link (l_next (kt_qlink k)) s)) →
  ∃ s1 k1 s2,
    kthread_cancel kthr r1 s = Returns () s1 ∧
    kt_mem s1 !! kthr = Some k1 ∧
    kthread_cancel kthr r2 s1 = Returns () s2 ∧
    s2 = with_kt_mem (<[kthr := set_kt_retval r2 k1]> (kt_mem s1)) s1 ∧
    (r2 = r1 → s2 = s1).
Proof.
  intros Hn Hc Hk Hnb.
  assert (Hsecond : ∀ s1 k1,
            curthr s1 = curthr s → kt_mem s1 !! kthr = Some k1 →
            kt_state k1 ≠ KT_SLEEP_CANCELLABLE → kt_cancelled k1 = 1 →
            kt_retval k1 = r1 →
            kthread_cancel kthr r2 s1 =
              Returns ()
                (with_kt_mem (<[kthr := set_kt_retval r2 k1]> (kt_mem s1)) s1) ∧
            (r2 = r1 →
             with_kt_mem (<[kthr := set_kt_retval r2 k1]> (kt_mem s1)) s1 = s1)).
  { intros s1 k1 Hc1 Hk1 Hst1 Hcn1 Hr1. split.
    - rewrite (kthread_cancel_plain s1 kthr r2 k1); [|done|congruence|done|done].
      do 3 f_equal. destruct k1. simpl in *. by subst.
    - intros ->. replace (set_kt_retval r1 k1) with k1
        by (destruct k1; simpl in *; by subst).
      rewrite insert_id by done. by destruct s1. }
  destruct (decide (kt_state k = KT_SLEEP_CANCELLABLE)) as [Hst|Hst].
  - destruct (Hnb Hst) as [[pl Hpl] [nl Hnl]].
    destruct (kthread_cancel_wake s kthr r1 k pl nl)
      as (s3 & k3 & _ & Hlo & _ & Hk3 & Hbody & Hq3 & Hrun); try done.
    set (k1 := set_kt_state KT_RUN (set_kt_wchan NULL k3)) in *.
    set (s1 := with_kt_mem (<[kthr := k1]> (kt_mem s3)) s3) in *.
    assert (Hk1 : kt_mem s1 !! kthr = Some k1) by (simpl; apply lookup_insert_eq).
    destruct (Hsecond s1 k1) as [Hrun2 Hid]; try done.
    { simpl. by rewrite (lo_curthr _ _ Hlo). }
    { simpl. by apply (f_equal kt_cancelled) in Hbody. }
    { simpl. by apply (f_equal kt_retval) in Hbody. }
    eexists s1, k1, _. split; [done|]. split; [done|]. split; [exact Hrun2|].
    done.
  - set (k1 := set_kt_cancelled 1 (set_kt_retval r1 k)).
    set (s1 := with_kt_mem (<[kthr := k1]> (kt_mem s)) s).
    assert (Hk1 : kt_mem s1 !! kthr = Some k1) by (simpl; apply lookup_insert_eq).
    destruct (Hsecond s1 k1) as [Hrun2 Hid]; try done.
    eexists s1, k1, _. split; [by apply kthread_cancel_plain|].
    split; [done|]. split; [exact Hrun2|]. done.
Qed.

(** X12.  A thread created for the current process passes every assertion
    of [kthread_exit]: running as the calling thread right after
    [kthread_create], its exit stores the result, sets the state to
    KT_EXITED and hands over to [proc_thread_exited], and the thread is
    still on the collection of its process at that point. *)
Theorem kthread_create_then_exit s p func arg1 arg2 ts n rest a pool retval :
  p ≠ NULL → thread_list s p ts → slab_wf s →
  (∀ t, t ∈ ts → t ∉ kthread_allocator s) →
  kthread_allocator s = n :: rest → pg_pool s = a :: pool → a ≠ NULL →
  curproc s = p →
  ∃ s' T,
    kthread_create p func arg1 arg2 s = Returns n s' ∧
    kt_mem s' !! n = Some T ∧
    kthread_exit retval (with_curthr n s') =
      match proc_thread_exited retval
              (exit_handoff retval T (with_curthr n s')) with
      | Returns _ s'' =>
          Panics "Should never get here! proc_thread_exited() will kill thread." s''
      | o => o
      end ∧
    kt_mem (exit_handoff retval T (with_curthr n s')) !! n =
      Some (set_kt_state KT_EXITED (set_kt_retval retval T)) ∧
    thread_list (exit_handoff retval T (with_curthr n s')) p (ts ++ [n]).
Proof.
  intros Hp Hts Hslab Hlive Hal Hpool Ha Hcp.
  destruct (kthread_create_view s p func arg1 arg2 ts n rest a pool)
    as (s' & pr & N & hl & pl & _ & _ & _ & _ & _ & _ & Hzin & Hrun & Hlo & Hts'
        & Hview); try done.
  destruct (kthread_create_effect _ _ _ _ _ _ _ Hrun)
    as (pr' & N' & a' & T & _ & _ & _ & _ & _ & _ & _ & _ & _ & _ & Hcp' & _ & _
        & HT & HbT).
  assert (Hq : kt_qlink T = unlinked).
  { pose proof (Hview (LQlink n)) as Hv.
    rewrite decide_False in Hv by done.
    rewrite decide_False in Hv.
    2: { intros E. rewrite <- E in Hzin.
         apply elem_of_cons in Hzin as [?|Hz]; [done|].
         apply list_elem_of_fmap in Hz as (? & ? & _). done. }
    rewrite decide_False, decide_True in Hv by done.
    simpl in Hv. rewrite HT in Hv. simpl in Hv. congruence. }
  exists s', T. split; [done|]. split; [done|].
  assert (Hexit : kt_mem (with_curthr n s') !! curthr (with_curthr n s') = Some T)
    by done.
  split.
  { apply (kthread_exit_handoff retval (with_curthr n s') T Hexit).
    - by apply (f_equal kt_wchan) in HbT.
    - done.
    - apply (f_equal kt_proc) in HbT. simpl in *. congruence. }
  split; [simpl; apply lookup_insert_eq|].
  apply (is_list_ext s'); [|done]. intros y _.
  unfold exit_handoff. rewrite kt_store_load_link. simpl.
  repeat case_decide; subst; simpl; rewrite ?HT; done.
Qed.


(** X14.  The threads of a process stay its threads: when the thread
    collection of [p] holds [ts], each of them live and naming [p] in
    [kt_proc], then after [kthread_create] for [p] the same is true of
    [ts ++ [n]], after [kthread_destroy] of one of them it is true of the
    others, the destroyed block being on the free list, and after
    [kthread_clone] of a live thread it is still true of [ts], the clone
    not among them. *)
Theorem process_threads_preserved :
  (∀ s p func arg1 arg2 ts n rest a pool,
     p ≠ NULL → slab_wf s → process_threads s p ts →
     kthread_allocator s = n :: rest → pg_pool s = a :: pool → a ≠ NULL →
     ∃ s', kthread_create p func arg1 arg2 s = Returns n s' ∧
       process_threads s' p (ts ++ [n])) ∧
  (∀ s p t k ts1 ts2,
     t ≠ NULL → kt_mem s !! t = Some k → kt_kstack k ≠ NULL →
     process_threads s p (ts1 ++ t :: ts2) →
     ∃ s', kthread_destroy t s = Returns () s' ∧
       process_threads s' p (ts1 ++ ts2) ∧ t ∈ kthread_allocator s') ∧
  (∀ s p ts thr n s',
     process_threads s p ts → thr ∉ kthread_allocator s →
     kthread_clone thr s = Returns n s' →
     process_threads s' p ts ∧ n ∉ ts).
Proof.
  split; [|split].
  - intros s p func arg1 arg2 ts n rest a pool Hp Hslab [Hts Hown] Hal Hpool Ha.
    destruct (kthread_create_view s p func arg1 arg2 ts n rest a pool)
      as (s' & pr & N & hl & pl & _ & _ & _ & Hnts & _ & _ & _ & Hrun & _ & Hts'
          & _); try done.
    { intros t Ht. by apply Hown. }
    destruct (kthread_create_effect _ _ _ _ _ _ _ Hrun)
      as (pr' & N' & a' & T & _ & _ & _ & _ & _ & Hal' & _ & _ & _ & _ & _
          & Hbody & _ & HT & HbT).
    rewrite Hal in Hal'. injection Hal' as Hal'.
    destruct Hslab as [Hnd _]. rewrite Hal in Hnd.
    apply NoDup_cons in Hnd as [Hn Hnd].
    exists s'. split; [done|]. split; [done|].
    intros t Ht. rewrite <- Hal'. apply elem_of_app in Ht as [Ht|Ht].
    + destruct (Hown t Ht) as [Hlive Hpr]. rewrite Hal in Hlive.
      split; [set_solver|].
      assert (Hne : t ≠ n) by (intros ->; done).
      pose proof (Hbody t Hne) as Hb.
      destruct (kt_mem s !! t) as [k|]; [|done].
      destruct (kt_mem s' !! t) as [k'|]; [|done].
      simpl in *. assert (Hb' : kt_body k' = kt_body k) by congruence.
      apply (f_equal kt_proc) in Hb'. simpl in Hb'. congruence.
    + apply list_elem_of_singleton in Ht as ->. split; [done|].
      rewrite HT. simpl. f_equal. by apply (f_equal kt_proc) in HbT.
  - intros s p t k ts1 ts2 Ht Hk Hks [Hts Hown]. pose proof Hts as Hl.
    unfold thread_list in Hl. rewrite fmap_app, fmap_cons in Hl.
    destruct (is_list_neighbours _ _ _ _ _ Hl)
      as (v & pl & nl & Hv & Hpl & Hnl & _ & _ & Hlinked).
    simpl in Hv. rewrite Hk in Hv. injection Hv as <-.
    assert (Hv : load_link (LPlink t) s = Some (kt_plink k))
      by (simpl; by rewrite Hk).
    destruct (kthread_destroy_linked s t k pl nl Ht Hk Hks Hlinked Hpl Hnl)
      as (s' & Hrun & Hview).
    destruct (kthread_destroy_Returns s t k Ht Hk Hks) as
      (s'' & Hrun' & _ & _ & Hal & _ & _ & _ & Hbody & _); [eauto|].
    rewrite Hrun in Hrun'. apply Returns_inj in Hrun' as [_ <-].
    assert (Hnd : NoDup (ts1 ++ t :: ts2)).
    { destruct Hts as [Hnd _]. apply NoDup_cons in Hnd as [_ Hnd].
      by apply NoDup_fmap_1 in Hnd. }
    apply NoDup_app in Hnd as (_ & Hd1 & Hnd).
    apply NoDup_cons in Hnd as [Hd2 _].
    exists s'. split; [done|]. split; [|rewrite Hal; set_solver]. split.
    { unfold thread_list. rewrite fmap_app.
      by apply (is_list_remove s s' _ _ (LPlink t) _ (kt_plink k) pl nl). }
    intros t' Ht'.
    assert (Hin : t' ∈ ts1 ++ t :: ts2) by set_solver.
    assert (Hne : t' ≠ t) by set_solver.
    destruct (Hown t' Hin) as [Hlive Hpr]. rewrite Hal.
    split; [set_solver|].
    pose proof (Hbody t') as Hb.
    destruct (kt_mem s !! t') as [k0|]; [|done].
    destruct (kt_mem s' !! t') as [k'|]; [|done].
    simpl in *. assert (Hb' : kt_body k' = kt_body k0) by congruence.
    apply (f_equal kt_proc) in Hb'. simpl in Hb'. congruence.
  - intros s p ts thr n s' [Hts Hown] Hlive E.
    destruct (kthread_clone_effect _ _ _ _ Hlive E)
      as (S & rest & N & a & b & pool & _ & _ & Hal & _ & _ & _ & _ & _ & _ & ->).
    assert (Hnts : n ∉ ts).
    { intros Hin. destruct (Hown n Hin) as [Hl _]. apply Hl. rewrite Hal.
      set_solver. }
    split; [|done]. split.
    + apply (is_list_ext s); [|done]. intros y Hy.
      apply elem_of_cons in Hy as [->|Hy]; [done|].
      apply list_elem_of_fmap in Hy as (t & -> & Ht). simpl.
      rewrite lookup_insert_ne; [done|]. intros ->. done.
    + intros t Ht. destruct (Hown t Ht) as [Hl Hpr]. simpl.
      rewrite Hal in Hl. split; [set_solver|].
      rewrite lookup_insert_ne; [done|]. intros ->. done.
Qed.

(** X15.  The region requested for a stack is larger than
    DEFAULT_STACK_SIZE bytes, by [page_size - DEFAULT_STACK_SIZE mod
    page_size] bytes: a whole spare page exactly when the stack size is a
    whole number of pages, less than a page otherwise. *)
Theorem stack_region_covers :
  0 ≤ PAGE_SHIFT → 0 ≤ DEFAULT_STACK_SIZE →
  1 + DEFAULT_STACK_SIZE / 2 ^ PAGE_SHIFT < 2 ^ 31 →
  stack_npages * page_size =
    DEFAULT_STACK_SIZE + (page_size - DEFAULT_STACK_SIZE mod page_size) ∧
  DEFAULT_STACK_SIZE < stack_npages * page_size ≤ DEFAULT_STACK_SIZE + page_size ∧
  (stack_npages * page_size = DEFAULT_STACK_SIZE + page_size ↔
   DEFAULT_STACK_SIZE mod page_size = 0).
Proof.
  intros Hshift Hsize Hrange.
  assert (Hpos : 0 < page_size) by (unfold page_size; by apply Z.pow_pos_nonneg).
  assert (Hn : stack_npages = 1 + DEFAULT_STACK_SIZE / page_size).
  { unfold stack_npages, page_size. rewrite Z.shiftr_div_pow2 by done.
    apply cast_int_small. split; [|done].
    assert (0 ≤ DEFAULT_STACK_SIZE / 2 ^ PAGE_SHIFT)
      by (apply Z.div_pos; [done|by apply Z.pow_pos_nonneg]).
    transitivity 0; [done|lia]. }
  rewrite Hn. clear Hn Hrange Hshift.
  generalize dependent page_size. intros P HP.
  assert (Hnz : P ≠ 0) by (intros ->; done).
  pose proof (Z.div_mod DEFAULT_STACK_SIZE P Hnz) as Hdm.
  pose proof (Z.mod_pos_bound DEFAULT_STACK_SIZE P HP) as Hb.
  generalize dependent (DEFAULT_STACK_SIZE / P).
  generalize dependent (DEFAULT_STACK_SIZE mod P).
  intros r Hr q Hq. repeat split; nia.
Qed.

End Further.

(** ** The operations at work *)

#[local] Existing Instance weenix.

Ltac by_computation := refine (bool_decide_unpack _ _); vm_compute; exact I.

Lemma machine2_thread_list : thread_list machine2 100 [1000; 2000].
Proof.
  split; [by_computation|]. simpl. repeat split.
Qed.

Lemma machine2_links_wf : links_wf machine2.
Proof. apply links_wf_check. by_computation. Qed.

Lemma machine2_invariant : kthread_invariant machine2.
Proof. by_computation. Qed.

Lemma kthread_create_spec_witness :
  ∃ s' T,
    kthread_create 100 11 22 33 machine2 = Returns 3000 s' ∧
    kt_mem s' !! 3000 = Some T ∧ kt_state T = KT_RUN ∧
    kt_qlink T = unlinked ∧ thread_list s' 100 [1000; 2000; 3000].
Proof.
  assert (Hp : (100 : Z) ≠ NULL) by done.
  assert (Hslab : slab_wf machine2) by by_computation.
  assert (Hlive : ∀ t, t ∈ [1000; 2000] → t ∉ kthread_allocator machine2).
  { intros t Ht Hin. apply list_elem_of_singleton in Hin as ->.
    revert Ht. by_computation. }
  destruct (proj1 (kthread_create_spec machine2 100 11 22 33 [1000; 2000] Hp
                     machine2_thread_list Hslab Hlive)
              3000 [] 327680 [458752] eq_refl eq_refl)
    as (s' & T & Hrun & _ & _ & _ & HT & Hst & _ & _ & _ & _ & _ & _ & Hq & _
        & Hl & _);
    [done|].
  exists s', T. done.
Defined.

Lemma kthread_exit_spec_witness :
  kthread_exit 99 machine1 = Switched (exit_handoff 99 thread1 machine1) ∧
  kt_mem (exit_handoff 99 thread1 machine1) !! 1000 =
    Some (set_kt_state KT_EXITED (set_kt_retval 99 thread1)) ∧
  is_return (kthread_exit 99 machine1) = false.
Proof.
  destruct (kthread_exit_spec 99 machine1 thread1 eq_refl) as (_ & H2 & H3).
  destruct (H2 eq_refl eq_refl eq_refl) as [Hh E].
  split; [exact E|]. split; [exact Hh|exact H3].
Defined.

Lemma kthread_cancel_self_is_exit_witness :
  kthread_cancel 1000 99 machine1 = kthread_exit 99 machine1 ∧
  is_return (kthread_cancel 1000 99 machine1) = false.
Proof.
  assert (Hc : curthr machine1 ≠ NULL) by done.
  exact (kthread_cancel_self_is_exit 99 machine1 Hc).
Defined.

Lemma kthread_cancel_other_witness :
  ∃ s' k',
    kthread_cancel 2000 7 machine2 = Returns () s' ∧
    kt_mem s' !! 2000 = Some k' ∧
    kt_retval k' = 7 ∧ kt_cancelled k' = 1 ∧
    kt_state k' = KT_RUN ∧ kt_qlink k' = unlinked ∧ kt_wchan k' = NULL.
Proof.
  assert (Hn : (2000 : Z) ≠ NULL) by done.
  assert (Hc : (2000 : Z) ≠ curthr machine2) by done.
  assert (Hnb : kt_state thread2 = KT_SLEEP_CANCELLABLE →
                is_Some (load_link (l_prev (kt_qlink thread2)) machine2) ∧
                is_Some (load_link (l_next (kt_qlink thread2)) machine2)).
  { intros _. split; eexists; reflexivity. }
  destruct (kthread_cancel_other machine2 2000 7 thread2 Hn Hc eq_refl Hnb)
    as (s' & k' & Hrun & Hk' & Hr & Hcn & Hwake & _).
  destruct (Hwake eq_refl) as (Hst & Hq & Hw).
  exists s', k'. done.
Defined.

(** C5, the claim as stated, at [machine1]: the source at 1000 is in state
    KT_RUN and its context holds instruction pointer 11 and page directory
    7000; the clone at 2000 holds 0 and 0, what the block held before. *)
Lemma kthread_clone_context_counterexample :
  kt_state <$> kt_mem machine1 !! 1000 = Some KT_RUN ∧
  returned (kthread_clone 1000 machine1) = Some 2000 ∧
  kt_ctx <$> kt_mem machine1 !! 1000 =
    Some (mk_ctx 11 131072 131072 7000 65536 65536) ∧
  kt_ctx <$> block_after (kthread_clone 1000 machine1) 2000 =
    Some (mk_ctx 0 0 0 0 196608 65536) ∧
  c_eip (mk_ctx 0 0 0 0 196608 65536) ≠
    c_eip (mk_ctx 11 131072 131072 7000 65536 65536).
Proof. vm_compute. repeat split. discriminate. Qed.

Lemma kthread_clone_context_witness :
  ∃ s' T,
    kthread_clone 1000 machine1 = Returns 2000 s' ∧
    kt_mem s' !! 2000 = Some T ∧
    c_kstack (kt_ctx T) = 196608 ∧ c_kstacksz (kt_ctx T) = 65536 ∧
    c_eip (kt_ctx T) = 0 ∧ c_pdptr (kt_ctx T) = 0.
Proof.
  assert (Hslab : slab_wf machine1) by by_computation.
  assert (Hpages : pages_wf machine1) by by_computation.
  assert (Hlive : 1000 ∉ kthread_allocator machine1) by by_computation.
  destruct (kthread_clone_context machine1 1000 thread1 2000 [3000]
              blank_kthread 196608 327680 [458752] Hslab Hpages eq_refl
              eq_refl Hlive eq_refl eq_refl eq_refl)
    as (s' & T & Hrun & HT & Hks & _ & _ & Hsz & Heip & _ & _ & Hpd).
  exists s', T. done.
Defined.

Lemma kthread_clone_spec_witness :
  ∃ s' T,
    kthread_clone 1000 machine1 = Returns 2000 s' ∧
    kt_mem s' !! 2000 = Some T ∧
    kt_retval T = 0 ∧ kt_cancelled T = 0 ∧ kt_kstack T ≠ 65536 ∧
    kt_state T = KT_RUN ∧ kt_qlink T = unlinked ∧ kt_plink T = unlinked ∧
    kt_proc T = NULL.
Proof.
  assert (Hslab : slab_wf machine1) by by_computation.
  assert (Hpages : pages_wf machine1) by by_computation.
  assert (Hlive : 1000 ∉ kthread_allocator machine1) by by_computation.
  assert (Hused : is_Some (pg_used machine1 !! (kt_kstack thread1)))
    by (eexists; reflexivity).
  destruct (kthread_clone_spec machine1 1000 thread1 2000 [3000]
              196608 327680 [458752] Hslab Hpages eq_refl eq_refl Hlive
              Hused eq_refl eq_refl)
    as (s' & T & Hrun & _ & _ & _ & HT & Hr & _ & Hc & _ & Hks & _ & _ & _
        & Hst & Hq & Hp & _ & Hpr & _).
  exists s', T. done.
Defined.

(** C7, the claim as stated, at [machine1]: the first destroy of the
    thread at 1000 returns; the second one is not stopped by the assertion
    but returns too, and the page allocator has been handed the stack at
    65536 twice. *)
Lemma kthread_destroy_twice_counterexample :
  is_return (kthread_destroy 1000 machine1) = true ∧
  is_panic
    (kthread_destroy 1000 (final_state (kthread_destroy 1000 machine1))) = false ∧
  is_return
    (kthread_destroy 1000 (final_state (kthread_destroy 1000 machine1))) = true ∧
  pg_log
    (final_state
       (kthread_destroy 1000 (final_state (kthread_destroy 1000 machine1)))) =
    [PageAlloc 17 65536; PageFree 65536 17; PageFree 65536 17].
Proof. vm_compute. repeat split. Qed.

Lemma kthread_destroy_twice_witness :
  ∃ s1 s2,
    kthread_destroy 1000 machine1 = Returns () s1 ∧
    kthread_destroy 1000 s1 = Returns () s2 ∧
    pg_pool s2 = 65536 :: 65536 :: pg_pool machine1 ∧
    kthread_allocator s2 = 1000 :: 1000 :: kthread_allocator machine1.
Proof.
  assert (Ht : (1000 : Z) ≠ NULL) by done.
  assert (Hks : kt_kstack thread1 ≠ NULL) by done.
  assert (Hnb : linked (kt_plink thread1) = true →
                is_Some (load_link (l_prev (kt_plink thread1)) machine1) ∧
                is_Some (load_link (l_next (kt_plink thread1)) machine1)).
  { intros _. split; eexists; reflexivity. }
  destruct (proj2 (kthread_destroy_twice machine1 1000 thread1 eq_refl)
              Ht Hks Hnb)
    as (s1 & s2 & k1 & Hrun1 & _ & _ & Hrun2 & _ & Hpool & Hal).
  exists s1, s2. done.
Defined.

Lemma kthread_invariant_preserved_witness :
  kthread_invariant (final_state (kthread_create 100 11 22 33 machine2)) ∧
  kthread_invariant (final_state (kthread_clone 1000 machine2)) ∧
  kthread_invariant (final_state (kthread_destroy 2000 machine2)) ∧
  kthread_invariant (final_state (kthread_cancel 2000 7 machine2)) ∧
  kthread_invariant (final_state (kthread_exit 99 machine2)).
Proof.
  destruct kthread_invariant_preserved as (Hcreate & Hclone & Hdestroy & Hcancel & Hexit & _).
  assert (Hlive : 1000 ∉ kthread_allocator machine2) by by_computation.
  split; [|split; [|split; [|split]]].
  - apply (Hcreate 100 11 22 33 machine2 3000 _ machine2_links_wf
             machine2_invariant).
    vm_compute. reflexivity.
  - apply (Hclone 1000 machine2 3000 _ machine2_invariant Hlive).
    vm_compute. reflexivity.
  - apply (Hdestroy 2000 machine2 () _ machine2_links_wf machine2_invariant).
    vm_compute. reflexivity.
  - apply (Hcancel 2000 7 machine2 () _ machine2_links_wf machine2_invariant).
    vm_compute. reflexivity.
  - destruct (Hexit 99 machine2 machine2_invariant) as [He _];
      [intros s0 Hs0; exact Hs0|exact He].
Defined.

(** C9, the claim as stated, on a platform whose default stack size of 6000
    bytes is not a whole number of 4096-byte pages: [alloc_stack] asks for 2
    pages, where one more than the size in pages, rounded up, is 3. *)
Lemma stack_page_count_counterexample :
  pg_log (final_state (@alloc_stack odd_stack machine0)) = [PageAlloc 2 65536] ∧
  ceil_div (@DEFAULT_STACK_SIZE odd_stack) (@page_size odd_stack) + 1 = 3.
Proof. vm_compute. split; reflexivity. Qed.

Lemma stack_page_count_witness :
  @stack_npages weenix = 1 + 65536 / 4096 ∧
  @stack_npages weenix = ceil_div 65536 4096 + 1 ∧
  (∃ a s', alloc_stack machine0 = Returns a s' ∧ a = 65536 ∧
     pg_log s' = [PageAlloc (@stack_npages weenix) 65536]) ∧
  (∃ s', free_stack 65536 machine1 = Returns () s' ∧
     pg_log s' = [PageAlloc 17 65536; PageFree 65536 (@stack_npages weenix)]).
Proof.
  assert (H1 : 0 ≤ @PAGE_SHIFT weenix) by (vm_compute; discriminate).
  assert (H2 : - 2 ^ 31 ≤ 1 + @DEFAULT_STACK_SIZE weenix / 2 ^ @PAGE_SHIFT weenix
               < 2 ^ 31) by (vm_compute; split; [discriminate|reflexivity]).
  destruct (stack_page_count H1 H2) as (Hn & Hceil & Halloc & Hfree).
  split; [exact Hn|]. split; [exact (Hceil eq_refl)|].
  destruct (Halloc machine0) as (a & s' & Hrun & Ha & Hlog).
  destruct (Hfree machine1 65536) as (s'' & Hrun' & Hlog').
  split.
  - exists a, s'. split; [exact Hrun|]. split; [exact Ha|].
    rewrite Hlog, Ha. reflexivity.
  - exists s''. split; [exact Hrun'|exact Hlog'].
Defined.

(** C10, the claim as stated, at [machine1]: destroying the thread at 1000
    frees its stack, and it also rewrites the collection link of the block
    and the list head of process 100 and puts the block on the free list. *)
Lemma kthread_clone_destroy_stacks_counterexample :
  is_return (kthread_destroy 1000 machine1) = true ∧
  kt_plink <$> kt_mem machine1 !! 1000 =
    Some (mk_link (LThreads 100) (LThreads 100)) ∧
  kt_plink <$> block_after (kthread_destroy 1000 machine1) 1000 =
    Some unlinked ∧
  p_threads <$> proc_mem machine1 !! 100 =
    Some (mk_link (LPlink 1000) (LPlink 1000)) ∧
  p_threads <$> proc_mem (final_state (kthread_destroy 1000 machine1)) !! 100 =
    Some (mk_link (LThreads 100) (LThreads 100)) ∧
  kthread_allocator machine1 = [2000; 3000] ∧
  kthread_allocator (final_state (kthread_destroy 1000 machine1)) =
    [1000; 2000; 3000].
Proof. vm_compute. repeat split. Qed.

Lemma kthread_clone_destroy_stacks_witness :
  ∃ s1 T s2,
    kthread_clone 1000 machine1 = Returns 2000 s1 ∧
    kt_mem s1 !! 2000 = Some T ∧
    c_kstack (kt_ctx T) = 196608 ∧ kt_kstack T = 327680 ∧
    kthread_destroy 2000 s1 = Returns () s2 ∧
    pg_used s2 !! 327680 = None ∧ pg_used s2 !! 196608 = Some 17 ∧
    kt_mem s2 = kt_mem s1.
Proof.
  assert (Hslab : slab_wf machine1) by by_computation.
  assert (Hpages : pages_wf machine1) by by_computation.
  assert (Hlive : 1000 ∉ kthread_allocator machine1) by by_computation.
  destruct (proj2 kthread_clone_destroy_stacks machine1 1000 thread1 2000
              [3000] 196608 327680 [458752] Hslab Hpages eq_refl eq_refl
              Hlive eq_refl eq_refl)
    as (s1 & T & s2 & Hrun & HT & Hc & Hk & _ & _ & _ & _ & Hd & _ & Hb & Ha & Hm).
  exists s1, T, s2. done.
Defined.

(** ** Further runs *)

Lemma machine1_thread_list : thread_list machine1 100 [1000].
Proof.
  split; [by_computation|]. simpl. repeat split.
Qed.

Lemma machine3_thread_lists :
  thread_list machine3 100 [1000] ∧ thread_list machine3 200 [2000] ∧
  is_list machine3 (LQueue 500) (LQlink <$> [2000]).
Proof.
  split; [|split]; (split; [by_computation|]); simpl; repeat split.
Qed.

Lemma machine2_live : ∀ t, t ∈ [1000; 2000] → t ∉ kthread_allocator machine2.
Proof.
  intros t Ht Hin. apply list_elem_of_singleton in Hin as ->.
  revert Ht. by_computation.
Qed.

Lemma machine2_queue : is_list machine2 (LQueue 500) (LQlink <$> [2000]).
Proof.
  split; [by_computation|]. simpl. repeat split.
Qed.

Lemma kthread_destroy_unlinks_witness :
  ∃ s',
    kthread_destroy 2000 machine2 = Returns () s' ∧
    thread_list s' 100 [1000] ∧
    load_link (LPlink 2000) s' = Some unlinked ∧
    kthread_allocator s' = [2000; 3000] ∧
    is_list s' (LQueue 500) [LQlink 2000].
Proof.
  assert (Ht : (2000 : Z) ≠ NULL) by done.
  assert (Hks : kt_kstack thread2 ≠ NULL) by done.
  destruct (kthread_destroy_unlinks machine2 100 2000 thread2 [1000] []
              Ht eq_refl Hks machine2_thread_list)
    as (s' & Hrun & Hl & _ & Hp & Hal & _ & Hq & _).
  exists s'. split; [exact Hrun|]. split; [exact Hl|]. split; [exact Hp|].
  split; [exact Hal|]. exact (Hq 500 [2000] machine2_queue).
Defined.

Lemma kthread_create_destroy_round_trip_witness :
  ∃ s1 s2 T,
    kthread_create 100 11 22 33 machine2 = Returns 3000 s1 ∧
    kthread_destroy 3000 s1 = Returns () s2 ∧
    kt_mem s2 = <[3000 := T]> (kt_mem machine2) ∧
    kthread_allocator s2 = [3000] ∧ proc_mem s2 = proc_mem machine2 ∧
    pg_used s2 = pg_used machine2 ∧ pg_pool s2 = [327680; 458752] ∧
    pg_log s2 =
      [PageAlloc 17 65536; PageAlloc 17 196608; PageAlloc 17 327680;
       PageFree 327680 17] ∧
    thread_list s2 100 [1000; 2000].
Proof.
  assert (Hp : (100 : Z) ≠ NULL) by done.
  assert (Hslab : slab_wf machine2) by by_computation.
  assert (Hpages : pages_wf machine2) by by_computation.
  destruct (kthread_create_destroy_round_trip machine2 100 11 22 33 [1000; 2000]
              3000 [] 327680 [458752] Hp machine2_thread_list Hslab Hpages
              machine2_live eq_refl eq_refl)
    as (s1 & s2 & T & Hrun1 & Hrun2 & Hs2 & _ & _ & Hl).
  exists s1, s2, T. rewrite Hs2 in *. done.
Defined.

Lemma kthread_create_frame_witness :
  ∃ s',
    kthread_create 100 11 22 33 machine3 = Returns 3000 s' ∧
    kt_body <$> kt_mem s' !! 2000 = Some (kt_body thread_of_200) ∧
    thread_list s' 200 [2000] ∧
    is_list s' (LQueue 500) [LQlink 2000].
Proof.
  assert (Hp : (100 : Z) ≠ NULL) by done.
  assert (Ha : (327680 : Z) ≠ NULL) by done.
  assert (Hslab : slab_wf machine3) by by_computation.
  assert (Hlive : ∀ t, t ∈ [1000] → t ∉ kthread_allocator machine3).
  { intros t Ht Hin. apply list_elem_of_singleton in Hin as ->.
    revert Ht. by_computation. }
  assert (Hlive2 : ∀ t, t ∈ [2000] → t ∉ kthread_allocator machine3).
  { intros t Ht Hin. apply list_elem_of_singleton in Hin as ->.
    revert Ht. by_computation. }
  destruct machine3_thread_lists as (H100 & H200 & H500).
  destruct (kthread_create_frame machine3 100 11 22 33 [1000] 3000 []
              327680 [458752] Hp H100 Hslab Hlive eq_refl eq_refl Ha)
    as (s' & Hrun & _ & Hbody & _ & Hlists & Hqueues).
  assert (Hne : (2000 : Z) ≠ 3000) by done.
  assert (Hpq : (200 : Z) ≠ 100) by done.
  exists s'. split; [exact Hrun|]. split; [exact (Hbody 2000 Hne)|].
  split; [exact (Hlists 200 [2000] Hpq H200 Hlive2)|].
  exact (Hqueues 500 [2000] H500 Hlive2).
Defined.

Lemma kthread_create_twice_witness :
  ∃ s1 s2 T1 T2,
    kthread_create 100 11 22 33 machine1 = Returns 2000 s1 ∧
    kthread_create 100 12 23 34 s1 = Returns 3000 s2 ∧
    thread_list s2 100 [1000; 2000; 3000] ∧
    kt_mem s2 !! 2000 = Some T1 ∧ kt_mem s2 !! 3000 = Some T2 ∧
    kt_kstack T1 = 196608 ∧ kt_kstack T2 = 327680.
Proof.
  assert (Hp : (100 : Z) ≠ NULL) by done.
  assert (Hinv : memory_invariant machine1) by by_computation.
  assert (Hlive : ∀ t, t ∈ [1000] → t ∉ kthread_allocator machine1).
  { intros t ->%list_elem_of_singleton. by_computation. }
  destruct (kthread_create_twice machine1 100 11 22 33 12 23 34 [1000]
              2000 3000 [] 196608 327680 [458752] Hp machine1_thread_list
              Hinv Hlive eq_refl eq_refl)
    as (s1 & s2 & T1 & T2 & Hrun1 & Hrun2 & _ & Hl & HT1 & HT2 & Hk1 & Hk2 & _).
  exists s1, s2, T1, T2. done.
Defined.



Lemma kthread_clone_returns_iff_witness :
  kthread_clone 1000 machine1 =
    Returns 2000
      (clone_state machine1 2000 (clone_block thread1 blank_kthread 196608 327680)
         [3000] 196608 327680 [458752]).
Proof.
  assert (Hlive : 1000 ∉ kthread_allocator machine1) by by_computation.
  apply (proj2 (kthread_clone_returns_iff 1000 machine1 2000 _ Hlive)).
  exists thread1, [3000], blank_kthread, 196608, 327680, [458752].
  repeat split; done.
Defined.

Lemma kthread_create_returned_witness :
  ∃ T,
    kt_mem (final_state (kthread_create 100 11 22 33 machine2)) !! 3000 = Some T ∧
    kt_kstack T ≠ NULL ∧ kt_proc T = 100 ∧ kt_state T = KT_RUN ∧
    kthread_allocator machine2 =
      3000 :: kthread_allocator (final_state (kthread_create 100 11 22 33 machine2)).
Proof.
  assert (Hrun : kthread_create 100 11 22 33 machine2 =
                 Returns 3000 (final_state (kthread_create 100 11 22 33 machine2)))
    by (vm_compute; reflexivity).
  destruct (kthread_create_returned 100 11 22 33 machine2 3000 _ Hrun)
    as (pr & N & a & T & _ & _ & Ha & _ & _ & Hal & _ & _ & _ & HT & _ & Hks
        & Hpr & Hst & _).
  exists T. split; [exact HT|]. split; [by rewrite Hks|]. done.
Defined.

Lemma kthread_exit_releases_nothing_witness :
  ∃ s1,
    kthread_exit 99 machine2 = Switched s1 ∧
    kthread_allocator s1 = kthread_allocator machine2 ∧
    pg_used s1 = pg_used machine2 ∧
    thread_list s1 100 [1000; 2000].
Proof.
  destruct (kthread_exit_releases_nothing 99 machine2 thread1_of_two eq_refl)
    as (s1 & k1 & Hrun & Hs1 & Hk1 & _ & _ & Hlists).
  exists s1. split.
  { destruct Hrun as [[msg Hrun]|Hrun].
    - exfalso. revert Hrun. vm_compute. discriminate.
    - rewrite Hrun. reflexivity. }
  rewrite Hs1 at 1 2. split; [reflexivity|]. split; [reflexivity|].
  exact (Hlists _ _ machine2_thread_list).
Defined.

Lemma kthread_cancel_again_witness :
  ∃ s1 s2 k2,
    kthread_cancel 2000 7 machine2 = Returns () s1 ∧
    kthread_cancel 2000 8 s1 = Returns () s2 ∧
    kt_mem s2 !! 2000 = Some k2 ∧ kt_retval k2 = 8.
Proof.
  assert (Hn : (2000 : Z) ≠ NULL) by done.
  assert (Hc : (2000 : Z) ≠ curthr machine2) by done.
  assert (Hnb : kt_state thread2 = KT_SLEEP_CANCELLABLE →
                is_Some (load_link (l_prev (kt_qlink thread2)) machine2) ∧
                is_Some (load_link (l_next (kt_qlink thread2)) machine2)).
  { intros _. split; eexists; reflexivity. }
  destruct (kthread_cancel_again machine2 2000 7 8 thread2 Hn Hc eq_refl Hnb)
    as (s1 & k1 & s2 & Hrun1 & Hk1 & Hrun2 & Hs2 & _).
  exists s1, s2, (set_kt_retval 8 k1). split; [exact Hrun1|].
  split; [exact Hrun2|]. rewrite Hs2. split; [apply lookup_insert_eq|reflexivity].
Defined.

Lemma memory_invariant_preserved_witness :
  memory_invariant (final_state (kthread_create 100 11 22 33 machine2)) ∧
  memory_invariant (final_state (kthread_clone 1000 machine2)) ∧
  memory_invariant (final_state (kthread_destroy 2000 machine2)).
Proof.
  destruct memory_invariant_preserved as (Hcreate & Hclone & Hdestroy).
  assert (Hinv : memory_invariant machine2) by by_computation.
  assert (Hlive1 : 1000 ∉ kthread_allocator machine2) by by_computation.
  assert (Hlive2 : 2000 ∉ kthread_allocator machine2) by by_computation.
  split; [|split].
  - apply (Hcreate 100 11 22 33 machine2 3000 _ Hinv). vm_compute. reflexivity.
  - apply (Hclone 1000 machine2 3000 _ Hinv Hlive1). vm_compute. reflexivity.
  - apply (Hdestroy 2000 machine2 () _ Hinv Hlive2). vm_compute. reflexivity.
Defined.

Lemma kthread_create_then_exit_witness :
  ∃ s' T,
    kthread_create 100 11 22 33 machine2 = Returns 3000 s' ∧
    kt_mem s' !! 3000 = Some T ∧
    kthread_exit 99 (with_curthr 3000 s') =
      Switched (exit_handoff 99 T (with_curthr 3000 s')).
Proof.
  assert (Hp : (100 : Z) ≠ NULL) by done.
  assert (Ha : (327680 : Z) ≠ NULL) by done.
  assert (Hslab : slab_wf machine2) by by_computation.
  destruct (kthread_create_then_exit machine2 100 11 22 33 [1000; 2000] 3000 []
              327680 [458752] 99 Hp machine2_thread_list Hslab machine2_live
              eq_refl eq_refl Ha eq_refl)
    as (s' & T & Hrun & HT & Hexit & _).
  exists s', T. split; [exact Hrun|]. split; [exact HT|exact Hexit].
Defined.


Lemma machine2_process_threads : process_threads machine2 100 [1000; 2000].
Proof.
  split; [exact machine2_thread_list|]. intros t Ht.
  split; [by apply machine2_live|].
  assert (t = 1000 ∨ t = 2000) as [->| ->] by set_solver; reflexivity.
Qed.

Lemma process_threads_preserved_witness :
  (∃ s', kthread_create 100 11 22 33 machine2 = Returns 3000 s' ∧
     process_threads s' 100 [1000; 2000; 3000]) ∧
  (∃ s', kthread_destroy 1000 machine2 = Returns () s' ∧
     process_threads s' 100 [2000]).
Proof.
  destruct process_threads_preserved as (Hcreate & Hdestroy & _).
  assert (Hp : (100 : Z) ≠ NULL) by done.
  assert (Ha : (327680 : Z) ≠ NULL) by done.
  assert (Ht : (1000 : Z) ≠ NULL) by done.
  assert (Hks : kt_kstack thread1_of_two ≠ NULL) by done.
  assert (Hslab : slab_wf machine2) by by_computation.
  split.
  - exact (Hcreate machine2 100 11 22 33 [1000; 2000] 3000 [] 327680 [458752]
             Hp Hslab machine2_process_threads eq_refl eq_refl Ha).
  - destruct (Hdestroy machine2 100 1000 thread1_of_two [] [2000] Ht eq_refl Hks
                machine2_process_threads) as (s' & Hrun & Hpt & _).
    exists s'. split; [exact Hrun|exact Hpt].
Defined.

Lemma stack_region_covers_witness :
  @stack_npages weenix * @page_size weenix = 65536 + 4096.
Proof.
  assert (H1 : 0 ≤ @PAGE_SHIFT weenix) by (vm_compute; discriminate).
  assert (H2 : 0 ≤ @DEFAULT_STACK_SIZE weenix) by (vm_compute; discriminate).
  assert (H3 : 1 + @DEFAULT_STACK_SIZE weenix / 2 ^ @PAGE_SHIFT weenix < 2 ^ 31)
    by (vm_compute; reflexivity).
  destruct (stack_region_covers H1 H2 H3) as (_ & _ & Hfull).
  exact (proj2 Hfull eq_refl).
Defined.
